(** * Alpha-stream trading bot: risk engine, detectors and scorers

    A shallow embedding of [main.py] (the [TradingBot] ledger), of
    [breakout.py], of [mean_reversion.py] and of the ledger of the
    simulator in [test_bot.py], with the properties the specification
    states about them (C1 to C10) and further properties read off the code
    (X1 to X28).

    Number model.  The program computes on IEEE doubles (Python [float],
    numpy [float64]).  Here a finite number is an exact rational ([Q]):
    rounding, overflow and signed zeros are not represented.  The special
    values that the pandas code produces on purpose -- NaN for an
    incomplete rolling window, the infinities and NaN of a numpy division
    by zero -- are represented (type [fl] below).  Python-level division
    ([float / float]) raises [ZeroDivisionError] on a zero divisor and is
    modelled as such.

    One comparison is decided by rounding at round prices: the take-profit
    target [entry_price * 1.1], which is 110.00000000000001 for an entry of
    100 and exactly 11 for an entry of 10.  The three take-profit targets
    are therefore computed as the program computes them, as the binary64
    product of the entry price and the binary64 constant ([double] below:
    round to nearest, ties to even; overflow and subnormal numbers are not
    represented). *)

From Stdlib Require Import QArith Qabs Qminmax Qround Lqa ZArith Lia List Bool.
From Stdlib Require Import Sorted Permutation.
From stdpp Require Import gmap strings list fin_maps.

Local Open Scope string_scope.

(** ** Rational comparisons as booleans *)

Definition Qlt_bool (x y : Q) : bool := negb (Qle_bool y x).

(** ** Exceptions and call outcomes *)

Inductive exn : Type :=
| ZeroDivisionError
| IndexError
| KeyError
| TypeError
| AttributeError.

Inductive outcome (A : Type) : Type :=
| Returned (a : A)
| Raised (e : exn).
Arguments Returned {A} a.
Arguments Raised {A} e.

(** ** binary64 rounding *)

(** The exponent [e] with [2 ^ e <= q < 2 ^ (e + 1)], for positive [q]. *)
Definition binade (q : Q) : Z :=
  let e := (Z.log2 (Qnum q) - Z.log2 (Zpos (Qden q)))%Z in
  if Qle_bool (2 ^ e)%Q q then e else (e - 1)%Z.

(** The nearest integer, the even one at a tie. *)
Definition round_half_even (q : Q) : Z :=
  let f := Qfloor q in
  match Qcompare (q - inject_Z f)%Q (1 # 2)%Q with
  | Lt => f
  | Gt => (f + 1)%Z
  | Eq => if Z.even f then f else (f + 1)%Z
  end.

(** The binary64 number nearest to [q]: 53 significant bits, ties to
    even.  A Python float literal [c] is [double c], and the float product
    [x * y] of two floats is [double (x * y)]. *)
Definition double (q : Q) : Q :=
  if Qeq_bool q 0 then 0%Q
  else
    let a := Qabs q in
    let ulp := (2 ^ (binade a - 52))%Q in
    let m := (inject_Z (round_half_even (a / ulp)) * ulp)%Q in
    if Qle_bool 0 q then m else (- m)%Q.

(** * main.py: the position and risk manager *)

Module Bot.

(** Trading parameters (module constants of main.py). *)
Definition STARTING_CAPITAL : Q := 100.
Definition MAX_RISK_PER_TRADE : Q := 50.
Definition STOP_LOSS_PERCENT : Q := 5 # 100.
Definition TRAILING_STOP_PERCENT : Q := 10 # 100.
Definition MAX_DAILY_LOSS_PERCENT : Q := 15 # 100.

(** A value of [self.positions]: [{'shares', 'entry_price', 'strategy'}]. *)
Record position : Type := mkPosition {
  shares : Q;
  entry_price : Q;
  strategy : string
}.

(** One row appended to trades.csv by [log_trade] (the timestamp column is
    left out; [row_cash] is the [cash_remaining] column). *)
Record trade_row : Type := mkRow {
  row_symbol : string;
  row_action : string;
  row_price : Q;
  row_shares : Q;
  row_pnl : Q;
  row_strategy : string;
  row_cash : Q
}.

(** The mutable fields of a [TradingBot]; the two dictionaries are keyed by
    symbol, and the CSV file is the list of its rows, oldest first. *)
Record bot : Type := mkBot {
  cash : Q;
  positions : gmap string position;
  daily_pl : Q;
  starting_day_value : Q;
  trailing_stops : gmap string Q;
  trades : list trade_row
}.

(** [TradingBot.__init__] *)
Definition init : bot :=
  mkBot STARTING_CAPITAL ∅ 0 STARTING_CAPITAL ∅ [].

Definition with_cash (s : bot) (c : Q) : bot :=
  mkBot c (positions s) (daily_pl s) (starting_day_value s)
        (trailing_stops s) (trades s).
Definition with_positions (s : bot) (m : gmap string position) : bot :=
  mkBot (cash s) m (daily_pl s) (starting_day_value s)
        (trailing_stops s) (trades s).
Definition with_daily_pl (s : bot) (d : Q) : bot :=
  mkBot (cash s) (positions s) d (starting_day_value s)
        (trailing_stops s) (trades s).
Definition with_trailing_stops (s : bot) (m : gmap string Q) : bot :=
  mkBot (cash s) (positions s) (daily_pl s) (starting_day_value s)
        m (trades s).

(** [log_trade]: one row is appended, carrying the cash at that moment. *)
Definition log_trade (s : bot) (symbol action : string) (price shares pnl : Q)
    (strategy : string) : bot :=
  mkBot (cash s) (positions s) (daily_pl s) (starting_day_value s)
        (trailing_stops s)
        (trades s ++ [mkRow symbol action price shares pnl strategy (cash s)]).

(** [can_make_trade] *)
Definition can_make_trade (s : bot) (risk_amount : Q) : bool :=
  if Qlt_bool MAX_RISK_PER_TRADE risk_amount then false
  else if Qle_bool (daily_pl s) (- MAX_DAILY_LOSS_PERCENT * starting_day_value s)
  then false
  else true.

(** [execute_buy].  [order_ok] tells whether [api.submit_order] returned
    ([true]) or raised ([false]).  The share count [amount / price] is
    computed before the cash check and outside the [try]: a zero price
    raises to the caller.  Inside the [try], a zero total share count makes
    the averaging division raise after the cash was debited. *)
Definition execute_buy (order_ok : bool) (s : bot) (symbol : string)
    (price amount : Q) (strategy : string) : outcome bool * bot :=
  if negb (can_make_trade s amount) then (Returned false, s)
  else if Qeq_bool price 0 then (Raised ZeroDivisionError, s)
  else
    let shares := (amount / price)%Q in
    if Qlt_bool (cash s) amount then (Returned false, s)
    else if negb order_ok then (Returned false, s)
    else
      let s1 := with_cash s (cash s - amount)%Q in
      let merged :=
        match positions s1 !! symbol with
        | None => Some (with_positions s1
                   (<[symbol := mkPosition shares price strategy]> (positions s1)))
        | Some p =>
            let current_shares := Bot.shares p in
            let current_price := entry_price p in
            let total_shares := (current_shares + shares)%Q in
            if Qeq_bool total_shares 0 then None
            else
              let avg_price :=
                ((current_shares * current_price + shares * price)
                   / total_shares)%Q in
              Some (with_positions s1
                   (<[symbol := mkPosition total_shares avg_price strategy]>
                      (positions s1)))
        end in
      match merged with
      | None => (Returned false, s1)
      | Some s2 =>
          let s3 :=
            if String.eqb strategy "breakout"
            then with_trailing_stops s2
                   (<[symbol := (price * (1 - TRAILING_STOP_PERCENT))%Q]>
                      (trailing_stops s2))
            else s2 in
          (Returned true, log_trade s3 symbol "BUY" price shares 0 strategy)
      end.

(** [execute_sell].  The whole body is inside the [try]; nothing in it
    divides, so the only exception is the order call's. *)
Definition execute_sell (order_ok : bool) (s : bot) (symbol : string)
    (price shares : Q) (strategy reason : string) : bool * bot :=
  if negb order_ok then (false, s)
  else
    match positions s !! symbol with
    | Some p =>
        let entry_price := Bot.entry_price p in
        let pnl := ((price - entry_price) * shares)%Q in
        let s1 := with_daily_pl s (daily_pl s + pnl)%Q in
        let s2 := with_cash s1 (cash s1 + shares * price)%Q in
        let s3 :=
          if Qle_bool (Bot.shares p) shares then
            with_trailing_stops
              (with_positions s2 (delete symbol (positions s2)))
              (delete symbol (trailing_stops s2))
          else
            with_positions s2
              (<[symbol := mkPosition (Bot.shares p - shares)%Q
                             (Bot.entry_price p) (Bot.strategy p)]>
                 (positions s2)) in
        (true, log_trade s3 symbol ("SELL (" ++ reason ++ ")")
                 price shares pnl strategy)
    | None => (false, s)
    end.

(** The price feed of [get_current_price]: the latest trade price, else the
    mid quote, else [None]. *)
Definition price_feed : Type := string -> option Q.

(** Per symbol, whether the order submitted for it in this cycle goes
    through. *)
Definition order_feed : Type := string -> bool.

(** One iteration of the loop of [check_stop_losses] over the snapshot
    [list(self.positions.items())].  [not current_price] skips an absent
    price and a price of zero. *)
Definition stop_loss_step (feed : price_feed) (orders : order_feed)
    (s : bot) (item : string * position) : bot :=
  let symbol := fst item in
  let position := snd item in
  match feed symbol with
  | None => s
  | Some current_price =>
      if Qeq_bool current_price 0 then s
      else
        let entry_price := Bot.entry_price position in
        let strategy := Bot.strategy position in
        if Qle_bool current_price (entry_price * (1 - STOP_LOSS_PERCENT))%Q then
          snd (execute_sell (orders symbol) s symbol current_price
                 (Bot.shares position) strategy "stop_loss")
        else if String.eqb strategy "breakout" then
          match trailing_stops s !! symbol with
          | Some stop =>
              if Qle_bool current_price stop then
                snd (execute_sell (orders symbol) s symbol current_price
                       (Bot.shares position) strategy "trailing_stop")
              else if Qlt_bool (stop / (1 - TRAILING_STOP_PERCENT))%Q current_price
              then with_trailing_stops s
                     (<[symbol := (current_price * (1 - TRAILING_STOP_PERCENT))%Q]>
                        (trailing_stops s))
              else s
          | None => s
          end
        else s
  end.

(** [check_stop_losses].  The snapshot is walked in the key order of the
    map, Python walks it in insertion order; every iteration acts on its own
    symbol only, so the order shows in nothing but the order of the rows a
    cycle appends to the log. *)
Definition check_stop_losses (feed : price_feed) (orders : order_feed)
    (s : bot) : bot :=
  fold_left (stop_loss_step feed orders) (map_to_list (positions s)) s.

(** [entry_price * 1.5], [entry_price * 1.3], [entry_price * 1.1]: the float
    product of the entry price and the float literal. *)
Definition take_profit_target (entry_price multiple : Q) : Q :=
  double (entry_price * double multiple).
Arguments take_profit_target : simpl never.

(** One iteration of the loop of [check_take_profits]. *)
Definition take_profit_step (feed : price_feed) (orders : order_feed)
    (s : bot) (item : string * position) : bot :=
  let symbol := fst item in
  let position := snd item in
  match feed symbol with
  | None => s
  | Some current_price =>
      if Qeq_bool current_price 0 then s
      else
        let entry_price := Bot.entry_price position in
        let strategy := Bot.strategy position in
        let sell := snd (execute_sell (orders symbol) s symbol current_price
                           (Bot.shares position) strategy "take_profit") in
        if String.eqb strategy "sentiment"
           && Qle_bool (take_profit_target entry_price (15 # 10)) current_price
        then sell
        else if String.eqb strategy "breakout"
           && Qle_bool (take_profit_target entry_price (13 # 10)) current_price
        then sell
        else if String.eqb strategy "mean_reversion"
           && Qle_bool (take_profit_target entry_price (11 # 10)) current_price
        then sell
        else s
  end.

(** [check_take_profits] *)
Definition check_take_profits (feed : price_feed) (orders : order_feed)
    (s : bot) : bot :=
  fold_left (take_profit_step feed orders) (map_to_list (positions s)) s.

(** One iteration of [close_all_positions_at_market_close]. *)
Definition market_close_step (feed : price_feed) (orders : order_feed)
    (s : bot) (item : string * position) : bot :=
  let symbol := fst item in
  let position := snd item in
  match feed symbol with
  | None => s
  | Some current_price =>
      if Qeq_bool current_price 0 then s
      else snd (execute_sell (orders symbol) s symbol current_price
                  (Bot.shares position) (Bot.strategy position) "market_close")
  end.

(** [close_all_positions_at_market_close] *)
Definition close_all_positions_at_market_close (feed : price_feed)
    (orders : order_feed) (s : bot) : bot :=
  fold_left (market_close_step feed orders) (map_to_list (positions s)) s.

(** The calls that change the ledger, as one alphabet. *)
Inductive op : Type :=
| Buy (order_ok : bool) (symbol : string) (price amount : Q) (strategy : string)
| Sell (order_ok : bool) (symbol : string) (price shares : Q)
       (strategy reason : string)
| CheckStops (feed : price_feed) (orders : order_feed)
| CheckProfits (feed : price_feed) (orders : order_feed)
| CloseAll (feed : price_feed) (orders : order_feed).

Definition step (s : bot) (o : op) : bot :=
  match o with
  | Buy ok symbol price amount strategy =>
      snd (execute_buy ok s symbol price amount strategy)
  | Sell ok symbol price shares strategy reason =>
      snd (execute_sell ok s symbol price shares strategy reason)
  | CheckStops feed orders => check_stop_losses feed orders s
  | CheckProfits feed orders => check_take_profits feed orders s
  | CloseAll feed orders => close_all_positions_at_market_close feed orders s
  end.

Definition run (ops : list op) (s : bot) : bot := fold_left step ops s.

(** A breakout buy of [sym]: the one call that writes the trailing stop of
    [sym] unconditionally. *)
Definition is_breakout_buy_of (sym : string) (o : op) : bool :=
  match o with
  | Buy _ symbol _ _ strategy => String.eqb symbol sym && String.eqb strategy "breakout"
  | _ => false
  end.

(** Every trailing stop still set in [s'] was set in [s], and not higher. *)
Definition stops_not_lowered (s s' : bot) : Prop :=
  forall sym t', trailing_stops s' !! sym = Some t' ->
    exists t, trailing_stops s !! sym = Some t /\ (t <= t')%Q.

(** Python's [max(a, b)] and [min(a, b)]: the first argument unless the
    second is strictly greater (smaller). *)
Definition py_max (a b : Q) : Q := if Qlt_bool a b then b else a.
Definition py_min (a b : Q) : Q := if Qlt_bool b a then b else a.

(** [min(max(20, self.cash * 0.2), min(50, self.cash * 0.5))]: the amount
    [run_sentiment_strategy] and [run_breakout_strategy] put at risk. *)
Definition risk_amount (cash : Q) : Q :=
  py_min (py_max 20 (cash * (2 # 10))) (py_min 50 (cash * (5 # 10))).

(** [min(max(100, self.cash * 0.2), min(500, self.cash * 0.5))]: the amount
    [run_mean_reversion_strategy] puts at risk. *)
Definition mean_reversion_risk_amount (cash : Q) : Q :=
  py_min (py_max 100 (cash * (2 # 10))) (py_min 500 (cash * (5 # 10))).

(** The body of the loop of [run_sentiment_strategy] for one symbol, given
    what the sentiment feed and the price feed answer for it. *)
Definition sentiment_trade (sentiment_score post_volume : Q)
    (current_price : option Q) (order_ok : bool) (s : bot) (symbol : string)
    : outcome bool * bot :=
  if Qlt_bool (5 # 10) sentiment_score && Qlt_bool 100 post_volume then
    match current_price with
    | Some current_price =>
        if Qeq_bool current_price 0 then (Returned false, s)
        else execute_buy order_ok s symbol current_price
               (risk_amount (cash s)) "sentiment"
    | None => (Returned false, s)
    end
  else (Returned false, s).

(** The body of the loop of [run_breakout_strategy] for one symbol, given
    the detector's verdict, the RSI and the price. *)
Definition breakout_trade (is_breakout : bool) (rsi : Q)
    (current_price : option Q) (order_ok : bool) (s : bot) (symbol : string)
    : outcome bool * bot :=
  if is_breakout && Qlt_bool 60 rsi then
    match current_price with
    | Some current_price =>
        if Qeq_bool current_price 0 then (Returned false, s)
        else execute_buy order_ok s symbol current_price
               (risk_amount (cash s)) "breakout"
    | None => (Returned false, s)
    end
  else (Returned false, s).

(** The body of the loop of [run_mean_reversion_strategy] for one symbol
    once an opportunity with a nonzero [entry_price] was detected. *)
Definition mean_reversion_trade (entry_price : Q) (current_price : option Q)
    (order_ok : bool) (s : bot) (symbol : string) : outcome bool * bot :=
  match current_price with
  | Some current_price =>
      if Qeq_bool current_price 0 then (Returned false, s)
      else if Qlt_bool (Qabs (current_price - entry_price) / entry_price)
                (1 # 100)
      then execute_buy order_ok s symbol current_price
             (mean_reversion_risk_amount (cash s)) "mean_reversion"
      else (Returned false, s)
  | None => (Returned false, s)
  end.

(** [get_account_value]: the cash plus every position at its current price;
    a missing price makes [position['shares'] * current_price] a
    [TypeError], which nothing catches. *)
Definition get_account_value (feed : price_feed) (s : bot) : outcome Q :=
  match
    fold_left
      (fun acc item =>
         match acc, feed (fst item) with
         | Some positions_value, Some current_price =>
             Some (positions_value + Bot.shares (snd item) * current_price)%Q
         | _, _ => None
         end)
      (map_to_list (positions s)) (Some 0%Q)
  with
  | Some positions_value => Returned (cash s + positions_value)%Q
  | None => Raised TypeError
  end.

(** [reset_daily_stats]: [daily_pl] is zeroed before the account value is
    computed, so it stays zeroed when that raises. *)
Definition reset_daily_stats (feed : price_feed) (s : bot)
    : outcome unit * bot :=
  let s1 := with_daily_pl s 0 in
  match get_account_value feed s1 with
  | Returned v =>
      (Returned tt,
       mkBot (cash s1) (positions s1) (daily_pl s1) v (trailing_stops s1)
             (trades s1))
  | Raised e => (Raised e, s1)
  end.

Definition is_buy (o : op) : bool :=
  match o with
  | Buy _ _ _ _ _ => true
  | _ => false
  end.

(** The daily-loss circuit breaker of [can_make_trade]. *)
Definition breaker_tripped (s : bot) : Prop :=
  (daily_pl s <= - MAX_DAILY_LOSS_PERCENT * starting_day_value s)%Q.

(** What the ledger holds in a symbol at cost: [shares * entry_price]. *)
Definition cost_basis (s : bot) (symbol : string) : Q :=
  match positions s !! symbol with
  | Some p => (Bot.shares p * entry_price p)%Q
  | None => 0
  end.

(** No trailing stop without a position. *)
Definition stops_have_positions (s : bot) : Prop :=
  forall symbol, is_Some (trailing_stops s !! symbol) ->
                 is_Some (positions s !! symbol).

(** What the ledger holds for one symbol: its position and its stop. *)
Definition view (s : bot) (symbol : string) : option position * option Q :=
  (positions s !! symbol, trailing_stops s !! symbol).

(** A concrete ledger: ten AAPL shares entered at 100, stop at 90. *)
Definition held_aapl : bot :=
  mkBot 0 {["AAPL" := mkPosition 10 100 "breakout"]} 0 STARTING_CAPITAL
        {["AAPL" := 90%Q]} [].

End Bot.

(** * The pandas layer: numbers, frames and the effect monad *)

Module Pandas.
Local Open Scope Q_scope.

(** A numpy [float64]: a finite value, an infinity, or NaN. *)
Inductive fl : Type :=
| Fin (q : Q)
| PInf
| NInf
| NaN.

(** A Python value that is either [None] or a number. *)
Inductive pyval : Type :=
| PyNone
| PyNum (x : fl).

Definition inf_of_sign (c : comparison) : fl :=
  match c with
  | Gt => PInf
  | Lt => NInf
  | Eq => NaN
  end.

Definition fl_neg (x : fl) : fl :=
  match x with
  | Fin q => Fin (- q)
  | PInf => NInf
  | NInf => PInf
  | NaN => NaN
  end.

Definition fl_add (x y : fl) : fl :=
  match x, y with
  | NaN, _ | _, NaN => NaN
  | Fin a, Fin b => Fin (a + b)
  | PInf, NInf | NInf, PInf => NaN
  | PInf, _ | _, PInf => PInf
  | NInf, _ | _, NInf => NInf
  end.

Definition fl_sub (x y : fl) : fl := fl_add x (fl_neg y).

Definition fl_mul (x y : fl) : fl :=
  match x, y with
  | NaN, _ | _, NaN => NaN
  | Fin a, Fin b => Fin (a * b)
  | Fin a, PInf | PInf, Fin a => inf_of_sign (a ?= 0)%Q
  | Fin a, NInf | NInf, Fin a => inf_of_sign (0 ?= a)%Q
  | PInf, PInf | NInf, NInf => PInf
  | PInf, NInf | NInf, PInf => NInf
  end.

(** numpy division: a zero divisor gives an infinity or NaN, no exception. *)
Definition fl_div (x y : fl) : fl :=
  match x, y with
  | NaN, _ | _, NaN => NaN
  | Fin a, Fin b =>
      if Qeq_bool b 0 then inf_of_sign (a ?= 0)%Q else Fin (a / b)
  | Fin _, _ => Fin 0
  | PInf, Fin b => if Qlt_bool b 0 then NInf else PInf
  | NInf, Fin b => if Qlt_bool b 0 then PInf else NInf
  | _, _ => NaN
  end.

(** Comparisons: every comparison with NaN is false. *)
Definition fl_le (x y : fl) : bool :=
  match x, y with
  | NaN, _ | _, NaN => false
  | Fin a, Fin b => Qle_bool a b
  | NInf, _ | _, PInf => true
  | _, _ => false
  end.

Definition fl_lt (x y : fl) : bool :=
  match x, y with
  | NaN, _ | _, NaN => false
  | Fin a, Fin b => Qlt_bool a b
  | PInf, _ | _, NInf => false
  | NInf, _ | _, PInf => true
  end.

Definition fl_ge (x y : fl) : bool := fl_le y x.
Definition fl_gt (x y : fl) : bool := fl_lt y x.

Definition fl_eq (x y : fl) : bool :=
  match x, y with
  | Fin a, Fin b => Qeq_bool a b
  | PInf, PInf | NInf, NInf => true
  | _, _ => false
  end.

Definition fl_ne (x y : fl) : bool := negb (fl_eq x y).

Definition of_nat (n : nat) : Q := inject_Z (Z.of_nat n).
Definition of_bool (b : bool) : fl := Fin (if b then 1 else 0).

(** One bar of the series: the five columns every frame carries. *)
Record bar : Type := mkBar {
  open : Q;
  high : Q;
  low : Q;
  close : Q;
  volume : Q
}.

(** A derived column: numbers, or the all-[None] column that assigning
    [None] creates. *)
Inductive column : Type :=
| NumCol (l : list fl)
| NoneCol.

(** A DataFrame: the bars in index order and the derived columns by name.
    Rows are addressed by position (the index is taken to be unique). *)
Record frame : Type := mkFrame {
  bars : list bar;
  cols : gmap string column
}.

(** Code that reads and writes the caller's frame and may raise. *)
Definition M (A : Type) : Type := frame -> outcome A * frame.

Definition ret {A : Type} (a : A) : M A := fun df => (Returned a, df).

Definition raise {A : Type} (e : exn) : M A := fun df => (Raised e, df).

Definition bind {A B : Type} (m : M A) (k : A -> M B) : M B :=
  fun df =>
    match m df with
    | (Returned a, df') => k a df'
    | (Raised e, df') => (Raised e, df')
    end.

(** [try: body  except Exception: handler]; the handler sees the frame as
    the body left it. *)
Definition try_except {A : Type} (body handler : M A) : M A :=
  fun df =>
    match body df with
    | (Returned a, df') => (Returned a, df')
    | (Raised _, df') => handler df'
    end.

Notation "x <- m ;; k" := (bind m (fun x => k))
  (at level 100, m at next level, right associativity).
Notation "m ;;; k" := (bind m (fun _ => k))
  (at level 100, right associativity).

(** [len(df)] *)
Definition len : M nat := fun df => (Returned (length (bars df)), df).

(** [df['close']] and the other bar columns. *)
Definition base (field : bar -> Q) : M (list Q) :=
  fun df => (Returned (map field (bars df)), df).

(** [name in df.columns] for a derived name. *)
Definition has_col (name : string) : M bool :=
  fun df => (Returned (bool_decide (is_Some (cols df !! name))), df).

(** [df[name]] used as numbers: [KeyError] when absent, [TypeError] when
    the column holds [None]. *)
Definition getnum (name : string) : M (list fl) :=
  fun df =>
    match cols df !! name with
    | None => (Raised KeyError, df)
    | Some NoneCol => (Raised TypeError, df)
    | Some (NumCol l) => (Returned l, df)
    end.

(** [df[name] = c] *)
Definition setcol (name : string) (c : column) : M unit :=
  fun df => (Returned tt, mkFrame (bars df) (<[name := c]> (cols df))).


(** [s.iloc[-k]] as an option, [k >= 1]: out of bounds beyond the length. *)
Definition from_end {A : Type} (k : nat) (s : list A) : option A :=
  if (k <=? length s)%nat then s !! (length s - k)%nat else None.

(** [s.iloc[-1]] *)
Definition iloc_last {A : Type} (s : list A) : M A :=
  match from_end 1 s with
  | Some x => ret x
  | None => raise IndexError
  end.

(** The bar columns at [.iloc[-k]]. *)
Definition bar_from_end (k : nat) : M bar :=
  fun df =>
    match from_end k (bars df) with
    | Some b => (Returned b, df)
    | None => (Raised IndexError, df)
    end.

(** [df[name].iloc[-k]] for a derived column. *)
Definition cell_from_end (name : string) (k : nat) : M pyval :=
  fun df =>
    match cols df !! name with
    | None => (Raised KeyError, df)
    | Some NoneCol =>
        if (k <=? length (bars df))%nat then (Returned PyNone, df)
        else (Raised IndexError, df)
    | Some (NumCol l) =>
        match from_end k l with
        | Some x => (Returned (PyNum x), df)
        | None => (Raised IndexError, df)
        end
    end.

(** A [None] in arithmetic or in an ordering comparison is a [TypeError]. *)
Definition as_num (v : pyval) : M fl :=
  match v with
  | PyNum x => ret x
  | PyNone => raise TypeError
  end.

(** *** Series operations *)

(** The window of [w] rows ending at row [i], when it is complete. *)
Definition window_at {A : Type} (w : nat) (l : list A) (i : nat)
    : option (list A) :=
  if ((w =? 0) || (i + 1 <? w))%nat then None
  else Some (firstn w (skipn (i + 1 - w) l)).

(** [s.rolling(window=w).agg()]: NaN until the window is complete. *)
Definition rolling {A : Type} (agg : list A -> fl) (w : nat) (l : list A)
    : list fl :=
  map (fun i => match window_at w l i with
                | Some win => agg win
                | None => NaN
                end)
      (seq 0 (length l)).

(** [s.shift(1)] *)
Definition shift1 (l : list fl) : list fl :=
  match l with
  | [] => []
  | _ => NaN :: removelast l
  end.

Definition Qsum (l : list Q) : Q := fold_left Qplus l 0.

Definition max_agg (win : list Q) : fl :=
  match win with
  | [] => NaN
  | x :: rest => Fin (fold_left Qmax rest x)
  end.

Definition min_agg (win : list Q) : fl :=
  match win with
  | [] => NaN
  | x :: rest => Fin (fold_left Qmin rest x)
  end.

Definition mean_agg (win : list Q) : fl :=
  match win with
  | [] => NaN
  | _ => Fin (Qsum win / of_nat (length win))
  end.

(** [s.mean()] over a whole column. *)
Definition series_mean (l : list Q) : fl := mean_agg l.

Definition map2 {A B C : Type} (f : A -> B -> C) (l1 : list A) (l2 : list B)
    : list C :=
  map (fun p => f (fst p) (snd p)) (combine l1 l2).

(** *** Frame effects *)

(** [m] leaves the bars as they are and writes no derived column outside
    [written]. *)
Definition writes_only {A : Type} (written : list string) (m : M A) : Prop :=
  forall df,
    bars (snd (m df)) = bars df
    /\ forall k, k ∉ written -> cols (snd (m df)) !! k = cols df !! k.

(** [m] hands the frame back untouched. *)
Definition reads_only {A : Type} (m : M A) : Prop :=
  forall df, snd (m df) = df.

(** Whenever [f] returns, what it returns lies in [0, b]. *)
Definition bounded_by (b : Z) (f : M Z) : Prop :=
  forall df p df', f df = (Returned p, df') -> (0 <= p <= b)%Z.

Definition Zsum (l : list Z) : Z := fold_right Z.add 0%Z l.

End Pandas.

(** * breakout.py *)

(** What a call of [pandas_ta.rsi] can do: raise, return [None] (no
    Series), or return a Series on the index of its input. *)
Inductive ta_result : Type :=
| TaRaises (e : exn)
| TaNone
| TaSeries (l : list Pandas.fl).

Module Breakout.
Import Pandas.
Local Open Scope Q_scope.

Section WithTa.

(** [ta.rsi(close, length=...)], the external RSI routine. *)
Variable ta_rsi : list Q -> nat -> ta_result.

Definition call_ta_rsi (c : list Q) (length : nat) : M column :=
  match ta_rsi c length with
  | TaRaises e => raise e
  | TaNone => ret NoneCol
  | TaSeries l => ret (NumCol l)
  end.

(** [calculate_rsi(df, period=14)] *)
Definition calculate_rsi (period : nat) : M pyval :=
  try_except
    (c <- base close ;;
     r <- call_ta_rsi c period ;;
     setcol "rsi" r ;;;
     cell_from_end "rsi" 1)
    (ret (PyNum (Fin 50))).

End WithTa.

(** [calculate_average_volume(df, period=20)] *)
Definition calculate_average_volume (period : nat) : M fl :=
  try_except
    (v <- base volume ;;
     iloc_last (rolling mean_agg period v))
    (v <- base volume ;;
     ret (series_mean v)).

(** [detect_breakouts(df, period=20)] *)
Definition detect_breakouts (period : nat) : M bool :=
  try_except
    (n <- len ;;
     if (n <? period + 5)%nat then ret false
     else
       h <- base high ;;
       setcol "n_period_high" (NumCol (shift1 (rolling max_agg period h))) ;;;
       avg_volume <- calculate_average_volume period ;;
       cur <- bar_from_end 1 ;;
       let current_price := close cur in
       let current_high := high cur in
       previous_high <- cell_from_end "n_period_high" 1 ;;
       let current_volume := volume cur in
       let volume_surge :=
         fl_gt (Fin current_volume) (fl_mul avg_volume (Fin 2)) in
       previous_high <- as_num previous_high ;;
       let price_breakout :=
         fl_gt (Fin current_high) previous_high
         && fl_gt (Fin current_price) previous_high in
       ret (price_breakout && volume_surge))
    (ret false).

(** [detect_breakdown(df, period=20)] *)
Definition detect_breakdown (period : nat) : M bool :=
  try_except
    (n <- len ;;
     if (n <? period + 5)%nat then ret false
     else
       l <- base low ;;
       setcol "n_period_low" (NumCol (shift1 (rolling min_agg period l))) ;;;
       avg_volume <- calculate_average_volume period ;;
       cur <- bar_from_end 1 ;;
       let current_price := close cur in
       let current_low := low cur in
       previous_low <- cell_from_end "n_period_low" 1 ;;
       let current_volume := volume cur in
       let volume_surge :=
         fl_gt (Fin current_volume) (fl_mul avg_volume (Fin 2)) in
       previous_low <- as_num previous_low ;;
       let price_breakdown :=
         fl_lt (Fin current_low) previous_low
         && fl_lt (Fin current_price) previous_low in
       ret (price_breakdown && volume_surge))
    (ret false).

(** [sorted(levels)]: a stable insertion sort. *)
Fixpoint insert_level (x : Q) (l : list Q) : list Q :=
  match l with
  | [] => [x]
  | y :: rest => if Qle_bool x y then x :: y :: rest else y :: insert_level x rest
  end.

Definition sorted (levels : list Q) : list Q := foldr insert_level [] levels.

(** [sum(current_group) / len(current_group)] *)
Definition group_mean (group : list Q) : Q := Qsum group / of_nat (length group).

(** The loop of [group_similar_levels] over [sorted_levels[1:]].  The
    division by [prev_level] is Python's: a zero level raises. *)
Fixpoint group_loop (threshold : Q) (rest : list Q)
    (grouped_levels current_group : list Q) : outcome (list Q) :=
  match rest with
  | [] => Returned (grouped_levels ++ [group_mean current_group])%list
  | current_level :: rest' =>
      let prev_level := List.last current_group 0 in
      if Qeq_bool prev_level 0 then Raised ZeroDivisionError
      else if Qle_bool (Qabs (current_level - prev_level) / prev_level) threshold
      then group_loop threshold rest' grouped_levels
             (current_group ++ [current_level])%list
      else group_loop threshold rest'
             (grouped_levels ++ [group_mean current_group])%list [current_level]
  end.

(** [group_similar_levels(levels, threshold=0.01)] *)
Definition group_similar_levels (levels : list Q) (threshold : Q)
    : outcome (list Q) :=
  match sorted levels with
  | [] => Returned []
  | first :: rest => group_loop threshold rest [] [first]
  end.

(** Python's [max(a, b)]: [a] unless [b] is greater. *)
Definition pymax (a b : Q) : Q := if Qlt_bool a b then b else a.

(** The five scoring blocks of [analyze_breakout_quality]; each computes
    what its final [score += ...] adds. *)

Definition rsi_points (rsi : pyval) : M Z :=
  rsi <- as_num rsi ;;
  ret (if fl_le (Fin 60) rsi && fl_le rsi (Fin 80) then 25
       else if fl_gt rsi (Fin 80) then 10
       else if fl_ge rsi (Fin 50) then 15
       else 0)%Z.

Definition volume_points : M Z :=
  avg_volume <- calculate_average_volume 20 ;;
  cur <- bar_from_end 1 ;;
  let latest_volume := volume cur in
  let volume_ratio := fl_div (Fin latest_volume) avg_volume in
  ret (if fl_ge volume_ratio (Fin 3) then 25
       else if fl_ge volume_ratio (Fin 2) then 20
       else if fl_ge volume_ratio (Fin (15 # 10)) then 15
       else if fl_ge volume_ratio (Fin 1) then 10
       else 0)%Z.

Definition candle_points : M Z :=
  cur <- bar_from_end 1 ;;
  let latest_close := close cur in
  let latest_open := open cur in
  let latest_high := high cur in
  let latest_low := low cur in
  let candle_range := latest_high - latest_low in
  let upper_wick_ratio :=
    if Qeq_bool candle_range 0 then 0
    else (latest_high - pymax latest_open latest_close) / candle_range in
  ret (if Qlt_bool latest_open latest_close && Qlt_bool upper_wick_ratio (2 # 10)
       then 25
       else if Qlt_bool latest_open latest_close then 15
       else if Qeq_bool latest_close latest_open then 5
       else 0)%Z.

Definition volatility_points (volatility : pyval) : M Z :=
  volatility <- as_num volatility ;;
  ret (if fl_le (Fin (5 # 10)) volatility && fl_le volatility (Fin 2) then 15
       else if fl_lt (Fin 2) volatility && fl_le volatility (Fin 4) then 10
       else if fl_gt volatility (Fin 4) then 5
       else 0)%Z.

Definition retest_points : M Z :=
  present <- has_col "n_period_high" ;;
  if present then
    period_high <- cell_from_end "n_period_high" 1 ;;
    period_high <- as_num period_high ;;
    h <- base high ;;
    let shifted := shift1 (map Fin h) in
    let previous_tests :=
      length (filter (fun x => fl_gt x (fl_mul period_high (Fin (98 # 100)))
                             && fl_lt x (fl_mul period_high (Fin (102 # 100))))
                shifted) in
    ret (if (3 <=? previous_tests)%nat then 10
         else if (1 <=? previous_tests)%nat then 5
         else 0)%Z
  else ret 0%Z.

Definition breakout_factors (rsi volatility : pyval) : list (M Z) :=
  [rsi_points rsi; volume_points; candle_points;
   volatility_points volatility; retest_points].

(** The [try] of [analyze_breakout_quality]: [score] is a local that the
    blocks add to in turn; the first exception ends the [try] and leaves
    [score] at what was added so far. *)
Fixpoint add_until_raise (factors : list (M Z)) (score : Z) : M Z :=
  match factors with
  | [] => ret score
  | f :: rest =>
      fun df =>
        match f df with
        | (Returned points, df') => add_until_raise rest (score + points)%Z df'
        | (Raised _, df') => (Returned score, df')
        end
  end.

(** [analyze_breakout_quality(df, rsi, volatility)] *)
Definition analyze_breakout_quality (rsi volatility : pyval) : M Z :=
  score <- add_until_raise (breakout_factors rsi volatility) 0%Z ;;
  ret (Z.min score 100).

(** [group_similar_levels] on numpy scalars, as [find_support_resistance]
    calls it: the division by [prev_level] is numpy's, a zero level gives an
    infinity or NaN and the comparison decides. *)
Fixpoint group_loop_np (threshold : Q) (rest : list Q)
    (grouped_levels current_group : list Q) : list Q :=
  match rest with
  | [] => (grouped_levels ++ [group_mean current_group])%list
  | current_level :: rest' =>
      let prev_level := List.last current_group 0 in
      if fl_le (fl_div (Fin (Qabs (current_level - prev_level)))
                  (Fin prev_level)) (Fin threshold)
      then group_loop_np threshold rest' grouped_levels
             (current_group ++ [current_level])%list
      else group_loop_np threshold rest'
             (grouped_levels ++ [group_mean current_group])%list
             [current_level]
  end.

Definition group_similar_levels_np (levels : list Q) (threshold : Q)
    : list Q :=
  match sorted levels with
  | [] => []
  | first :: rest => group_loop_np threshold rest [] [first]
  end.

(** [s.iloc[a:b]] for [a <= b]. *)
Definition iloc_slice {A : Type} (s : list A) (a b : nat) : list A :=
  firstn (b - a) (skipn a s).

(** The test of [find_support_resistance] at row [i]: the value is at or
    below (above) every value of the [window] rows before and after. *)
Definition is_local_min (s : list Q) (window i : nat) : bool :=
  forallb (fun x => Qle_bool (nth i s 0) x) (iloc_slice s (i - window) i)
  && forallb (fun x => Qle_bool (nth i s 0) x)
       (iloc_slice s (i + 1) (i + window + 1)).

Definition is_local_max (s : list Q) (window i : nat) : bool :=
  forallb (fun x => Qle_bool x (nth i s 0)) (iloc_slice s (i - window) i)
  && forallb (fun x => Qle_bool x (nth i s 0))
       (iloc_slice s (i + 1) (i + window + 1)).

(** The candidate levels: the rows of [range(window, len(df) - window)] that
    pass the test, in row order. *)
Definition local_extrema (test : list Q -> nat -> nat -> bool) (s : list Q)
    (window : nat) : list Q :=
  map (fun i => nth i s 0)
    (filter (fun i => test s window i)
       (seq window (length s - window - window))).

(** [find_support_resistance(df, window=20)]: the pair of the support and
    the resistance levels. *)
Definition find_support_resistance (window : nat) : M (list Q * list Q) :=
  try_except
    (n <- len ;;
     if (n <? window * 2)%nat then ret ([], [])
     else
       l <- base low ;;
       h <- base high ;;
       let support_levels := local_extrema is_local_min l window in
       let resistance_levels := local_extrema is_local_max h window in
       ret (group_similar_levels_np support_levels (1 # 100),
            group_similar_levels_np resistance_levels (1 # 100)))
    (ret ([], [])).

(** [is_price_near_level(price, levels, threshold=0.02)], on Python
    floats. *)
Fixpoint is_price_near_level (price : Q) (levels : list Q) (threshold : Q)
    : outcome bool :=
  match levels with
  | [] => Returned false
  | level :: rest =>
      if Qeq_bool level 0 then Raised ZeroDivisionError
      else if Qle_bool (Qabs (price - level) / level) threshold
      then Returned true
      else is_price_near_level price rest threshold
  end.

(** [calculate_risk_to_reward(entry, stop_loss, target)] *)
Definition calculate_risk_to_reward (entry stop_loss target : Q) : Q :=
  if Qeq_bool entry stop_loss then 0
  else
    let risk := Qabs (entry - stop_loss) in
    let reward := Qabs (target - entry) in
    if Qlt_bool 0 risk then reward / risk else 0.

End Breakout.

(** * mean_reversion.py *)

Module MeanReversion.
Import Pandas.
Local Open Scope Q_scope.

Section WithExternals.

(** numpy's square root on a non-negative finite number. *)
Variable np_sqrt : Q -> Q.

(** [ta.rsi(close, length=...)], the external RSI routine. *)
Variable ta_rsi : list Q -> nat -> ta_result.

(** The sample variance (ddof = 1) of a window. *)
Definition sample_var (win : list Q) : Q :=
  let m := Qsum win / of_nat (length win) in
  Qsum (map (fun x => (x - m) * (x - m)) win) / of_nat (length win - 1).

(** The aggregate of [rolling(...).std()]: NaN on a single observation. *)
Definition std_agg (win : list Q) : fl :=
  if (length win <=? 1)%nat then NaN else Fin (np_sqrt (sample_var win)).

(** [calculate_bollinger_bands(df, window=20, num_std=2)]; the frame it
    returns is the frame it was given. *)
Definition calculate_bollinger_bands (window : nat) (num_std : Q) : M unit :=
  try_except
    (c <- base close ;;
     setcol "middle_band" (NumCol (rolling mean_agg window c)) ;;;
     c <- base close ;;
     setcol "std" (NumCol (rolling std_agg window c)) ;;;
     m <- getnum "middle_band" ;;
     sd <- getnum "std" ;;
     setcol "upper_band"
       (NumCol (map2 fl_add m (map (fun x => fl_mul x (Fin num_std)) sd))) ;;;
     m <- getnum "middle_band" ;;
     sd <- getnum "std" ;;
     setcol "lower_band"
       (NumCol (map2 fl_sub m (map (fun x => fl_mul x (Fin num_std)) sd))) ;;;
     ret tt)
    (ret tt).

(** [x.groupby((x != x.shift()).cumsum()).cumcount()]: the position of each
    row inside its run of equal consecutive values. *)
Fixpoint cumcount_runs (prev : option fl) (k : nat) (l : list fl) : list nat :=
  match l with
  | [] => []
  | x :: rest =>
      let k' := match prev with
                | Some p => if fl_ne x p then O else S k
                | None => O
                end in
      k' :: cumcount_runs (Some x) k' rest
  end.

Definition consec (x : list fl) : list fl :=
  map2 (fun k v => fl_add (Fin (of_nat k)) v) (cumcount_runs None O x) x.

(** [calculate_mean_reversion_metrics(df)] *)
Definition calculate_mean_reversion_metrics : M unit :=
  try_except
    (c <- base close ;;
     m <- getnum "middle_band" ;;
     setcol "pct_deviation"
       (NumCol (map2 (fun c m => fl_mul (fl_div (fl_sub (Fin c) m) m) (Fin 100))
                  c m)) ;;;
     pd <- getnum "pct_deviation" ;;
     sd <- getnum "std" ;;
     m <- getnum "middle_band" ;;
     setcol "z_score"
       (NumCol (map2 fl_div pd
                  (map2 (fun s m => fl_mul (fl_div s m) (Fin 100)) sd m))) ;;;
     c <- base close ;;
     m <- getnum "middle_band" ;;
     setcol "above_mean"
       (NumCol (map2 (fun c m => of_bool (fl_gt (Fin c) m)) c m)) ;;;
     c <- base close ;;
     m <- getnum "middle_band" ;;
     setcol "below_mean"
       (NumCol (map2 (fun c m => of_bool (fl_lt (Fin c) m)) c m)) ;;;
     a <- getnum "above_mean" ;;
     setcol "consec_above" (NumCol (consec a)) ;;;
     b <- getnum "below_mean" ;;
     setcol "consec_below" (NumCol (consec b)) ;;;
     c <- base close ;;
     r <- Breakout.call_ta_rsi ta_rsi c 14 ;;
     setcol "rsi" r ;;;
     ret tt)
    (ret tt).

(** [latest['rsi'] if 'rsi' in latest else 50] *)
Definition latest_rsi : M pyval :=
  present <- has_col "rsi" ;;
  if present then cell_from_end "rsi" 1 else ret (PyNum (Fin 50)).

(** [detect_mean_reversion_opportunities(df, window=20, std_threshold=2.0)]:
    the triple [(opportunity, entry_price, target_price)]. *)
Definition detect_mean_reversion_opportunities (window : nat)
    (std_threshold : Q) : M (bool * pyval * pyval) :=
  try_except
    (n <- len ;;
     if (n <? window)%nat then ret (false, PyNone, PyNone)
     else
       calculate_bollinger_bands window std_threshold ;;;
       calculate_mean_reversion_metrics ;;;
       latest <- bar_from_end 1 ;;
       let current_price := close latest in
       lower_band <- cell_from_end "lower_band" 1 ;;
       middle_band <- cell_from_end "middle_band" 1 ;;
       rsi <- latest_rsi ;;
       lower_band <- as_num lower_band ;;
       if fl_le (Fin current_price) lower_band then
         rsi <- as_num rsi ;;
         if fl_le rsi (Fin 30) then
           ret (true, PyNum (Fin current_price), middle_band)
         else ret (false, PyNone, PyNone)
       else ret (false, PyNone, PyNone))
    (ret (false, PyNone, PyNone)).

(** [detect_overbought_conditions(df, window=20, std_threshold=2.0)] *)
Definition detect_overbought_conditions (window : nat)
    (std_threshold : Q) : M (bool * pyval * pyval) :=
  try_except
    (n <- len ;;
     if (n <? window)%nat then ret (false, PyNone, PyNone)
     else
       calculate_bollinger_bands window std_threshold ;;;
       calculate_mean_reversion_metrics ;;;
       latest <- bar_from_end 1 ;;
       let current_price := close latest in
       upper_band <- cell_from_end "upper_band" 1 ;;
       middle_band <- cell_from_end "middle_band" 1 ;;
       rsi <- latest_rsi ;;
       upper_band <- as_num upper_band ;;
       if fl_ge (Fin current_price) upper_band then
         rsi <- as_num rsi ;;
         if fl_ge rsi (Fin 70) then
           ret (true, PyNum (Fin current_price), middle_band)
         else ret (false, PyNone, PyNone)
       else ret (false, PyNone, PyNone))
    (ret (false, PyNone, PyNone)).

(** The five scoring blocks of [get_mean_reversion_score]. *)

Definition deviation_points : M Z :=
  pct_deviation <- cell_from_end "pct_deviation" 1 ;;
  pct_deviation <- as_num pct_deviation ;;
  ret (if fl_le pct_deviation (Fin (-5)) then 30
       else if fl_le pct_deviation (Fin (-4)) then 25
       else if fl_le pct_deviation (Fin (-3)) then 20
       else if fl_le pct_deviation (Fin (-2)) then 15
       else if fl_le pct_deviation (Fin (-1)) then 10
       else 0)%Z.

Definition rsi_points : M Z :=
  rsi <- latest_rsi ;;
  rsi <- as_num rsi ;;
  ret (if fl_le rsi (Fin 20) then 25
       else if fl_le rsi (Fin 25) then 20
       else if fl_le rsi (Fin 30) then 15
       else if fl_le rsi (Fin 35) then 10
       else if fl_le rsi (Fin 40) then 5
       else 0)%Z.

(** The first test reads [prev1['close'].shift(1)] as soon as
    [prev2['close'] <= prev2['lower_band']] holds; [prev1['close']] is a
    scalar and has no [shift], so that path raises [AttributeError]. *)
Definition bounce_points : M Z :=
  n <- len ;;
  if (3 <=? n)%nat then
    latest <- bar_from_end 1 ;;
    prev1 <- bar_from_end 2 ;;
    prev2 <- bar_from_end 3 ;;
    lower2 <- cell_from_end "lower_band" 3 ;;
    lower2 <- as_num lower2 ;;
    if fl_le (Fin (close prev2)) lower2 then raise AttributeError
    else
      lower1 <- cell_from_end "lower_band" 2 ;;
      lower1 <- as_num lower1 ;;
      ret (if fl_le (Fin (close prev1)) lower1
              && Qlt_bool (close prev1) (close latest)
           then 10 else 0)%Z
  else ret 0%Z.

Definition volume_points (window : nat) : M Z :=
  v <- base volume ;;
  avg_vol <- iloc_last (rolling mean_agg window v) ;;
  latest <- bar_from_end 1 ;;
  let current_vol := volume latest in
  let vol_ratio :=
    if fl_gt avg_vol (Fin 0) then fl_div (Fin current_vol) avg_vol else Fin 1 in
  ret (if fl_ge vol_ratio (Fin 2) then 15
       else if fl_ge vol_ratio (Fin (15 # 10)) then 10
       else if fl_ge vol_ratio (Fin 1) then 5
       else 0)%Z.

(** Whether the close is back at or above the middle band within the next
    [min(20, len(df) - i - 1)] rows after row [i]. *)
Definition returns_to_mean (c : list Q) (m : list fl) (n i : nat) : bool :=
  let forward_window := Nat.min 20 (n - i - 1) in
  (0 <? forward_window)%nat
  && existsb (fun j => fl_ge (Fin (nth j c 0)) (nth j m NaN))
       (seq (i + 1) forward_window).

Definition history_points : M Z :=
  z_score <- cell_from_end "z_score" 1 ;;
  zs <- getnum "z_score" ;;
  z_score <- as_num z_score ;;
  n <- len ;;
  c <- base close ;;
  m <- getnum "middle_band" ;;
  let historical_instances :=
    filter (fun i => fl_le (nth i zs NaN) z_score) (seq 0 (length zs)) in
  let success_count :=
    length (filter (fun i => returns_to_mean c m n i) historical_instances) in
  let success_rate :=
    if (0 <? length historical_instances)%nat
    then of_nat success_count / of_nat (length historical_instances)
    else 0 in
  ret (if Qle_bool (8 # 10) success_rate then 15
       else if Qle_bool (6 # 10) success_rate then 10
       else if Qle_bool (4 # 10) success_rate then 5
       else 0)%Z.

Definition reversion_factors (window : nat) : list (M Z) :=
  [deviation_points; rsi_points; bounce_points; volume_points window;
   history_points].

(** The blocks run in turn inside one [try]; an exception leaves it. *)
Fixpoint add_all (factors : list (M Z)) (score : Z) : M Z :=
  match factors with
  | [] => ret score
  | f :: rest => points <- f ;; add_all rest (score + points)%Z
  end.

(** [get_mean_reversion_score(df, window=20)] *)
Definition get_mean_reversion_score (window : nat) : M Z :=
  try_except
    (n <- len ;;
     if (n <? window)%nat then ret 0%Z
     else
       calculate_bollinger_bands window 2 ;;;
       calculate_mean_reversion_metrics ;;;
       bar_from_end 1 ;;;
       score <- add_all (reversion_factors window) 0%Z ;;
       ret (Z.min score 100))
    (ret 0%Z).

(** [calculate_reversal_probability(df)].  The loop over
    [similar_instances[:-1]] reads [middle_band] in its first round (every
    row but the last has a forward window), so the column is fetched once
    before it. *)
Definition calculate_reversal_probability : M Q :=
  try_except
    (n <- len ;;
     if (n <? 100)%nat then ret (5 # 10)
     else
       present <- has_col "z_score" ;;
       (if present then ret tt
        else calculate_bollinger_bands 20 2 ;;;
             calculate_mean_reversion_metrics) ;;;
       latest_z <- cell_from_end "z_score" 1 ;;
       zs <- getnum "z_score" ;;
       latest_z <- as_num latest_z ;;
       let similar_instances :=
         filter (fun i => fl_le (nth i zs NaN) (fl_mul latest_z (Fin (11 # 10)))
                          && fl_ge (nth i zs NaN)
                               (fl_mul latest_z (Fin (9 # 10))))
           (seq 0 (length zs)) in
       if (length similar_instances <? 5)%nat then ret (5 # 10)
       else
         c <- base close ;;
         m <- getnum "middle_band" ;;
         let success_count :=
           length (filter (fun i => returns_to_mean c m n i)
                     (removelast similar_instances)) in
         ret (of_nat success_count / of_nat (length similar_instances)))
    (ret (5 # 10)).

End WithExternals.

End MeanReversion.

(** * breakout.py, continued: volatility and average true range *)

Module BreakoutIndicators.
Import Pandas.
Local Open Scope Q_scope.

Section WithExternals.

(** numpy's square root on a non-negative finite number. *)
Variable np_sqrt : Q -> Q.

(** [ta.atr(high, low, close, length=...)], the external ATR routine. *)
Variable ta_atr : list Q -> list Q -> list Q -> nat -> ta_result.

(** [s.pct_change()]: [s / s.shift(1) - 1], NaN in the first row. *)
Definition pct_change (s : list Q) : list fl :=
  match s with
  | [] => []
  | _ :: later =>
      NaN :: map2 (fun x prev => fl_sub (fl_div (Fin x) (Fin prev)) (Fin 1))
               later (removelast s)
  end.

(** The numbers of a window, when all of its entries are numbers. *)
Fixpoint finite_values (win : list fl) : option (list Q) :=
  match win with
  | [] => Some []
  | Fin q :: rest =>
      match finite_values rest with
      | Some qs => Some (q :: qs)
      | None => None
      end
  | _ :: _ => None
  end.

(** The aggregate of [rolling(...).std()] on a float column: NaN unless the
    window holds at least two entries, all of them numbers. *)
Definition std_of (win : list fl) : fl :=
  match finite_values win with
  | Some qs =>
      if (length qs <=? 1)%nat then NaN
      else Fin (np_sqrt (MeanReversion.sample_var qs))
  | None => NaN
  end.

(** [calculate_volatility(df, period=20)] *)
Definition calculate_volatility (period : nat) : M fl :=
  try_except
    (c <- base close ;;
     v <- iloc_last (rolling std_of period (pct_change c)) ;;
     ret (fl_mul v (Fin 100)))
    (ret (Fin (1 # 100))).

Definition call_ta_atr (h l c : list Q) (length : nat) : M column :=
  match ta_atr h l c length with
  | TaRaises e => raise e
  | TaNone => ret NoneCol
  | TaSeries s => ret (NumCol s)
  end.

(** [s.tail(n)] *)
Definition tail {A : Type} (n : nat) (s : list A) : list A :=
  skipn (length s - n) s.

(** [calculate_atr(df, period=14)] *)
Definition calculate_atr (period : nat) : M pyval :=
  try_except
    (h <- base high ;;
     l <- base low ;;
     c <- base close ;;
     r <- call_ta_atr h l c period ;;
     setcol "atr" r ;;;
     cell_from_end "atr" 1)
    (h <- base high ;;
     l <- base low ;;
     ret (PyNum (series_mean (tail period (map2 Qminus h l))))).

End WithExternals.

End BreakoutIndicators.

(** * test_bot.py *)

(** The simulator's ledger.  Time stamps are left out: nothing reads them. *)
Module TestBot.
Local Open Scope Q_scope.

Definition DEFAULT_CAPITAL : Q := 100.

Inductive status : Type := OPEN | CLOSED.

(** An entry of [self.positions]; [exit_price] and [profit_loss] are the
    keys a closing sale adds. *)
Record position : Type := mkPosition {
  market_ticker : string;
  contract_ticker : string;
  action : string;
  entry_price : Q;
  quantity : Z;
  position_status : status;
  exit_price : option Q;
  position_profit_loss : option Q
}.

(** What [execute_trade] returns: the row of a buy, the row of a sale, or
    the dictionary with the key "error".  The two rows are also what
    [self.trading_history] collects. *)
Inductive trade : Type :=
| Bought (market contract : string) (price : Q) (qty : Z) (cost : Q)
| Sold (market contract : string) (price : Q) (qty : Z) (proceeds pl : Q)
| Error (message : string).

Record bot : Type := mkBot {
  initial_capital : Q;
  capital : Q;
  positions : list position;
  trading_history : list trade;
  profit_loss : Q
}.

(** [TradingBot(initial_capital)] *)
Definition init (initial_capital : Q) : bot :=
  mkBot initial_capital initial_capital [] [] 0.

(** The test of the closing loop: same market, same contract, still open. *)
Definition is_open_for (market contract : string) (p : position) : bool :=
  String.eqb (market_ticker p) market
  && String.eqb (contract_ticker p) contract
  && match position_status p with OPEN => true | CLOSED => false end.

(** The profit or loss of closing [p] at [price]. *)
Definition closing_pl (price : Q) (p : position) : Q :=
  if String.eqb (action p) "BUY"
  then (price - entry_price p) * inject_Z (quantity p)
  else (entry_price p - price) * inject_Z (quantity p).

(** The loop over [enumerate(self.positions)]: the first matching open
    position is closed in place, and its profit or loss handed back. *)
Fixpoint close_first (market contract : string) (price : Q)
    (ps : list position) : option (Q * list position) :=
  match ps with
  | [] => None
  | p :: rest =>
      if is_open_for market contract p then
        let pl := closing_pl price p in
        Some (pl,
              mkPosition (market_ticker p) (contract_ticker p) (action p)
                (entry_price p) (quantity p) CLOSED (Some price) (Some pl)
              :: rest)
      else
        match close_first market contract price rest with
        | Some (pl, rest') => Some (pl, p :: rest')
        | None => None
        end
  end.

(** [execute_trade(market_ticker, contract_ticker, action, price, quantity)] *)
Definition execute_trade (market contract act : string) (price : Q)
    (qty : Z) (s : bot) : trade * bot :=
  let cost := price * inject_Z qty in
  if String.eqb act "BUY" && Qle_bool cost (capital s) then
    let row := Bought market contract price qty cost in
    (row,
     mkBot (initial_capital s) (capital s - cost)
       (positions s
          ++ [mkPosition market contract act price qty OPEN None None])%list
       (trading_history s ++ [row])%list
       (profit_loss s))
  else if String.eqb act "SELL" then
    match close_first market contract price (positions s) with
    | Some (pl, positions') =>
        let row := Sold market contract price qty cost pl in
        (row,
         mkBot (initial_capital s) (capital s + (cost + pl)) positions'
           (trading_history s ++ [row])%list
           (profit_loss s + pl))
    | None => (Error "No matching position found to sell", s)
    end
  else (Error "Insufficient capital or invalid action", s).

(** [get_portfolio_summary()] *)
Record summary : Type := mkSummary {
  summary_initial_capital : Q;
  current_capital : Q;
  open_positions_count : nat;
  closed_positions_count : nat;
  total_profit_loss : Q;
  total_trades : nat;
  return_pct : Q
}.

Definition get_portfolio_summary (s : bot) : summary :=
  let open_positions :=
    List.filter (fun p => match position_status p with
                          | OPEN => true | CLOSED => false end)
      (positions s) in
  let closed_positions :=
    List.filter (fun p => match position_status p with
                          | CLOSED => true | OPEN => false end)
      (positions s) in
  mkSummary (initial_capital s) (capital s)
    (length open_positions) (length closed_positions)
    (profit_loss s) (length (trading_history s))
    (if Qlt_bool 0 (initial_capital s)
     then (capital s / initial_capital s - 1) * 100 else 0).

(** One call of [execute_trade], as data, and a sequence of calls. *)
Record order : Type := mkOrder {
  order_market : string;
  order_contract : string;
  order_action : string;
  order_price : Q;
  order_quantity : Z
}.

Definition place (s : bot) (o : order) : bot :=
  snd (execute_trade (order_market o) (order_contract o) (order_action o)
         (order_price o) (order_quantity o) s).

Definition run (orders : list order) (s : bot) : bot :=
  fold_left place orders s.

(** What the rows of a history add up to. *)
Definition row_cash (t : trade) : Q :=
  match t with
  | Bought _ _ _ _ cost => - cost
  | Sold _ _ _ _ proceeds pl => proceeds + pl
  | Error _ => 0
  end.

Definition row_pl (t : trade) : Q :=
  match t with
  | Sold _ _ _ _ _ pl => pl
  | _ => 0
  end.

Definition is_bought (t : trade) : bool :=
  match t with Bought _ _ _ _ _ => true | _ => false end.

Definition is_sold (t : trade) : bool :=
  match t with Sold _ _ _ _ _ _ => true | _ => false end.

End TestBot.

(** * The specification's wording, and concrete inputs *)

Module Spec.
Import Pandas.
Local Open Scope Q_scope.

(** ** Level clustering as the specification words it *)






(** ** The windows the detectors look at *)

(** The [period] rows before the last row. *)
Definition prior_window {A : Type} (period : nat) (l : list A) : list A :=
  firstn period (skipn (length l - 1 - period) l).

(** The last [period] rows, the current one included. *)
Definition trailing_window {A : Type} (period : nat) (l : list A) : list A :=
  firstn period (skipn (length l - period) l).

Definition is_max (m : Q) (l : list Q) : Prop :=
  In m l /\ forall x, In x l -> x <= m.

Definition is_min (m : Q) (l : list Q) : Prop :=
  In m l /\ forall x, In x l -> m <= x.

(** What the two detectors answer on a frame with enough bars. *)
Definition detector_verdicts (period : nat) (df : frame) : Prop :=
  exists cur prior_high prior_low,
    last (bars df) = Some cur
    /\ is_max prior_high (prior_window period (map high (bars df)))
    /\ is_min prior_low (prior_window period (map low (bars df)))
    /\ let average_volume :=
         Qsum (trailing_window period (map volume (bars df))) / of_nat period in
       (exists b, fst (Breakout.detect_breakouts period df) = Returned b
          /\ (b = true <->
                prior_high < high cur /\ prior_high < close cur
                /\ average_volume * 2 < volume cur))
       /\ (exists b, fst (Breakout.detect_breakdown period df) = Returned b
          /\ (b = true <->
                low cur < prior_low /\ close cur < prior_low
                /\ average_volume * 2 < volume cur)).

(** ** The derived columns the consumers write *)

Definition band_columns : list string :=
  ["middle_band"; "std"; "upper_band"; "lower_band"].

Definition metric_columns : list string :=
  ["pct_deviation"; "z_score"; "above_mean"; "below_mean"; "consec_above";
   "consec_below"; "rsi"].

(** ** Scoring with per-factor isolation, as the specification words it *)

(** Every block is attempted; a block that raises adds nothing and the
    blocks after it still run. *)
Fixpoint add_skipping_raised (factors : list (M Z)) (score : Z) : M Z :=
  match factors with
  | [] => ret score
  | f :: rest =>
      fun df =>
        match f df with
        | (Returned points, df') =>
            add_skipping_raised rest (score + points)%Z df'
        | (Raised _, df') => add_skipping_raised rest score df'
        end
  end.

Definition breakout_quality_factorwise (rsi volatility : pyval) : M Z :=
  score <- add_skipping_raised (Breakout.breakout_factors rsi volatility) 0%Z ;;
  ret (Z.min score 100).

Definition mean_reversion_score_factorwise (np_sqrt : Q -> Q)
    (ta_rsi : list Q -> nat -> ta_result) (window : nat) : M Z :=
  try_except
    (n <- len ;;
     if (n <? window)%nat then ret 0%Z
     else
       MeanReversion.calculate_bollinger_bands np_sqrt window 2 ;;;
       MeanReversion.calculate_mean_reversion_metrics ta_rsi ;;;
       bar_from_end 1 ;;;
       score <- add_skipping_raised (MeanReversion.reversion_factors window) 0%Z ;;
       ret (Z.min score 100))
    (ret 0%Z).

(** The points the blocks before the first raising one return on [df]
    (none of the breakout blocks writes the frame). *)
Fixpoint points_before_raise (factors : list (M Z)) (df : frame) : Z :=
  match factors with
  | [] => 0
  | f :: rest =>
      match fst (f df) with
      | Returned points => points + points_before_raise rest df
      | Raised _ => 0
      end
  end%Z.

(** Whether one of the blocks raises on [df] after the blocks before it
    returned. *)
Fixpoint some_block_raises (factors : list (M Z)) (df : frame) : bool :=
  match factors with
  | [] => false
  | f :: rest =>
      match fst (f df) with
      | Returned _ => some_block_raises rest df
      | Raised _ => true
      end
  end.

(** The frame the scoring blocks of the mean-reversion scorer see: the
    caller's frame with the band and metric columns written. *)
Definition scored_frame (np_sqrt : Q -> Q)
    (ta_rsi : list Q -> nat -> ta_result) (window : nat) (df : frame) : frame :=
  snd (MeanReversion.calculate_mean_reversion_metrics ta_rsi
         (snd (MeanReversion.calculate_bollinger_bands np_sqrt window 2 df))).

(** The most each block can add. *)
Definition breakout_maxima : list Z := [25; 25; 25; 15; 10]%Z.
Definition reversion_maxima : list Z := [30; 25; 15; 15; 15]%Z.

(** ** Stand-ins for the external numeric routines *)

(** The square root truncated to fifteen decimals; exact on 9. *)
Definition sqrt_trunc (q : Q) : Q :=
  Z.sqrt (Qnum q * 10 ^ 30 / Zpos (Qden q)) # (10 ^ 15).

(** An RSI routine reduced to the length guard of [pandas_ta.rsi]: no
    Series for fewer than [length] closes.  On longer inputs it answers a
    Series of NaN, which the examples below do not depend on. *)
Definition rsi_requiring_length (c : list Q) (length : nat) : ta_result :=
  if (List.length c <? length)%nat then TaNone
  else TaSeries (map (fun _ => NaN) c).

(** ** Concrete frames *)

Definition flat_bar (c v : Q) : bar := mkBar c c c c v.

Definition no_bars : frame := mkFrame [] ∅.

(** Three bars, fewer than the RSI period. *)
Definition three_bars : frame :=
  mkFrame [flat_bar 100 1000; flat_bar 101 1000; flat_bar 102 1000] ∅.

(** 25 bars with a flat high of 100, then a last bar with high 105, close
    104.5 and three times the usual volume. *)
Definition breakout_bars : frame :=
  mkFrame (repeat (mkBar 99 100 98 99 1000) 24
             ++ [mkBar 100 105 100 (1045 # 10) 3000])%list ∅.

(** Sixteen bars closing at 100 thirteen times and at 91 three times. *)
Definition dip_bars : frame :=
  mkFrame (repeat (flat_bar 100 1000) 13 ++ repeat (flat_bar 91 1000) 3)%list ∅.

End Spec.

(** * Facts about the boolean comparisons *)

Lemma Qlt_bool_iff (x y : Q) : Qlt_bool x y = true <-> (x < y)%Q.
Proof.
  unfold Qlt_bool. rewrite negb_true_iff. split.
  - intros H. apply Qnot_le_lt. intros Hle.
    apply Qle_bool_iff in Hle. congruence.
  - intros H. destruct (Qle_bool y x) eqn:E; [|reflexivity].
    apply Qle_bool_iff in E. exfalso. apply (Qlt_not_le _ _ H E).
Qed.

Lemma Qlt_bool_false_iff (x y : Q) : Qlt_bool x y = false <-> (y <= x)%Q.
Proof.
  unfold Qlt_bool. rewrite negb_false_iff. apply Qle_bool_iff.
Qed.

Lemma Qle_bool_false_iff (x y : Q) : Qle_bool x y = false <-> (y < x)%Q.
Proof.
  rewrite <- Qlt_bool_iff. unfold Qlt_bool.
  destruct (Qle_bool x y); simpl; split; congruence.
Qed.

(** * Properties of the position and risk manager *)

Section BotFacts.
Import Bot.
Local Open Scope Q_scope.

Lemma stops_not_lowered_refl (s : bot) : stops_not_lowered s s.
Proof. intros sym t' H. exists t'. split; [exact H | apply Qle_refl]. Qed.

Lemma stops_not_lowered_trans (s1 s2 s3 : bot) :
  stops_not_lowered s1 s2 -> stops_not_lowered s2 s3 -> stops_not_lowered s1 s3.
Proof.
  intros H12 H23 sym t3 H3.
  destruct (H23 _ _ H3) as (t2 & H2 & Hle23).
  destruct (H12 _ _ H2) as (t1 & H1 & Hle12).
  exists t1. split; [exact H1 | eapply Qle_trans; eassumption].
Qed.

Lemma stops_not_lowered_fold {A : Type} (f : bot -> A -> bot) (l : list A) :
  (forall s x, stops_not_lowered s (f s x)) ->
  forall s, stops_not_lowered s (fold_left f l s).
Proof.
  intros Hf. induction l as [|x l IH]; intros s; simpl.
  - apply stops_not_lowered_refl.
  - eapply stops_not_lowered_trans; [apply Hf | apply IH].
Qed.

(** A sell either keeps the table of stops or deletes one entry of it. *)
Lemma execute_sell_stops (ok : bool) (s : bot) (symbol : string)
    (price sh : Q) (strat reason : string) :
  trailing_stops (snd (execute_sell ok s symbol price sh strat reason))
    = trailing_stops s
  \/ trailing_stops (snd (execute_sell ok s symbol price sh strat reason))
    = delete symbol (trailing_stops s).
Proof.
  unfold execute_sell. destruct ok; simpl; [|by left].
  destruct (positions s !! symbol) as [p|]; simpl; [|by left].
  destruct (Qle_bool (shares p) sh); simpl; [by right | by left].
Qed.

Lemma execute_sell_not_lowered (ok : bool) (s : bot) (symbol : string)
    (price sh : Q) (strat reason : string) :
  stops_not_lowered s (snd (execute_sell ok s symbol price sh strat reason)).
Proof.
  intros sym t' H.
  destruct (execute_sell_stops ok s symbol price sh strat reason) as [E|E];
    rewrite E in H.
  - exists t'. split; [exact H | apply Qle_refl].
  - apply lookup_delete_Some in H as [_ H].
    exists t'. split; [exact H | apply Qle_refl].
Qed.

(** The ratchet: a price above [stop / 0.9] gives a new stop above the old. *)
Lemma ratchet_raises (stop price : Q) :
  stop / (1 - TRAILING_STOP_PERCENT) < price ->
  stop <= price * (1 - TRAILING_STOP_PERCENT).
Proof.
  unfold TRAILING_STOP_PERCENT. intros H.
  assert (E : stop == (stop / (1 - (10 # 100))) * (1 - (10 # 100))) by (field; lra).
  rewrite E at 1. apply Qlt_le_weak. apply Qmult_lt_compat_r; [reflexivity | exact H].
Qed.

Lemma stop_loss_step_not_lowered (feed : price_feed) (orders : order_feed)
    (s : bot) (item : string * position) :
  stops_not_lowered s (stop_loss_step feed orders s item).
Proof.
  unfold stop_loss_step. destruct item as [symbol pos]; simpl.
  destruct (feed symbol) as [price|]; [|apply stops_not_lowered_refl].
  destruct (Qeq_bool price 0); [apply stops_not_lowered_refl|].
  destruct (Qle_bool price _); [apply execute_sell_not_lowered|].
  destruct (String.eqb _ _); [|apply stops_not_lowered_refl].
  destruct (trailing_stops s !! symbol) as [stop|] eqn:Hstop;
    [|apply stops_not_lowered_refl].
  destruct (Qle_bool price stop); [apply execute_sell_not_lowered|].
  destruct (Qlt_bool _ price) eqn:Hup; [|apply stops_not_lowered_refl].
  apply Qlt_bool_iff in Hup.
  intros sym t' H. simpl in H.
  destruct (decide (symbol = sym)) as [->|Hne].
  - rewrite lookup_insert_eq in H. inversion H; subst t'.
    exists stop. split; [exact Hstop | by apply ratchet_raises].
  - rewrite lookup_insert_ne in H by done.
    exists t'. split; [exact H | apply Qle_refl].
Qed.

Lemma take_profit_step_not_lowered (feed : price_feed) (orders : order_feed)
    (s : bot) (item : string * position) :
  stops_not_lowered s (take_profit_step feed orders s item).
Proof.
  unfold take_profit_step. destruct item as [symbol pos]; simpl.
  destruct (feed symbol) as [price|]; [|apply stops_not_lowered_refl].
  destruct (Qeq_bool price 0); [apply stops_not_lowered_refl|].
  repeat match goal with
  | |- context [if ?b then _ else _] => destruct b
  end; try apply stops_not_lowered_refl; apply execute_sell_not_lowered.
Qed.

Lemma market_close_step_not_lowered (feed : price_feed) (orders : order_feed)
    (s : bot) (item : string * position) :
  stops_not_lowered s (market_close_step feed orders s item).
Proof.
  unfold market_close_step. destruct item as [symbol pos]; simpl.
  destruct (feed symbol) as [price|]; [|apply stops_not_lowered_refl].
  destruct (Qeq_bool price 0); [apply stops_not_lowered_refl|].
  apply execute_sell_not_lowered.
Qed.

(** A buy touches the stop table only at its own symbol, and only under the
    breakout tag. *)
Lemma execute_buy_stop_elsewhere (ok : bool) (s : bot) (symbol : string)
    (price amount : Q) (strat : string) (sym : string) :
  is_breakout_buy_of sym (Buy ok symbol price amount strat) = false ->
  trailing_stops (snd (execute_buy ok s symbol price amount strat)) !! sym
    = trailing_stops s !! sym.
Proof.
  unfold is_breakout_buy_of, execute_buy. intros Hnb.
  destruct (negb (can_make_trade s amount)); [reflexivity|].
  destruct (Qeq_bool price 0); [reflexivity|].
  destruct (Qlt_bool (cash s) amount); [reflexivity|].
  destruct (negb ok); [reflexivity|].
  simpl. destruct (positions s !! symbol) as [p|]; simpl.
  - destruct (Qeq_bool _ 0); simpl; [reflexivity|].
    destruct (String.eqb strat "breakout") eqn:Hs; simpl; [|reflexivity].
    rewrite andb_true_r in Hnb. apply String.eqb_neq in Hnb.
    by rewrite lookup_insert_ne.
  - destruct (String.eqb strat "breakout") eqn:Hs; simpl; [|reflexivity].
    rewrite andb_true_r in Hnb. apply String.eqb_neq in Hnb.
    by rewrite lookup_insert_ne.
Qed.

Lemma step_not_lowered_at (sym : string) (s : bot) (o : op) :
  is_breakout_buy_of sym o = false ->
  forall t', trailing_stops (step s o) !! sym = Some t' ->
    exists t, trailing_stops s !! sym = Some t /\ t <= t'.
Proof.
  intros Hnb t' H. destruct o as [ok symbol price amount strat| | | |]; simpl in H.
  - rewrite (execute_buy_stop_elsewhere _ _ _ _ _ _ _ Hnb) in H.
    exists t'. split; [exact H | apply Qle_refl].
  - by apply execute_sell_not_lowered in H.
  - revert H. apply (stops_not_lowered_fold (stop_loss_step feed orders)).
    apply stop_loss_step_not_lowered.
  - revert H. apply (stops_not_lowered_fold (take_profit_step feed orders)).
    apply take_profit_step_not_lowered.
  - revert H. apply (stops_not_lowered_fold (market_close_step feed orders)).
    apply market_close_step_not_lowered.
Qed.

(** ** Buy admission *)

(** C1 as stated fails: the share count [amount / price] is computed before
    the cash check and outside the [try], so a buy that passes the risk
    check at a price of zero raises [ZeroDivisionError] to its caller
    instead of returning [False], although its amount exceeds the cash.
    The ledger is as it was. *)
Lemma zero_price_buy_raises :
  let s := with_cash init 5 in
  cash s < 10
  /\ can_make_trade s 10 = true
  /\ execute_buy true s "AAPL" 0 10 "breakout" = (Raised ZeroDivisionError, s)
  /\ fst (execute_buy true s "AAPL" 0 10 "breakout") <> Returned false.
Proof.
  intros s. split; [reflexivity|]. split; [reflexivity|].
  split; [reflexivity | discriminate].
Qed.

(** C1, amended.  A buy whose amount exceeds [MAX_RISK_PER_TRADE], or that
    arrives while the daily-loss circuit breaker is tripped, or whose amount
    exceeds the cash, leaves the whole ledger (cash, positions, trailing
    stops, daily P&L, trade log) exactly as it was.  It returns [False] in
    the first two cases, and in the third when the price is not zero; a buy
    that passes the risk check at a price of zero raises
    [ZeroDivisionError] instead, whatever the cash. *)
Theorem rejected_buy_changes_nothing (order_ok : bool) (s : bot)
    (symbol : string) (price amount : Q) (strat : string) :
  MAX_RISK_PER_TRADE < amount
  \/ daily_pl s <= - MAX_DAILY_LOSS_PERCENT * starting_day_value s
  \/ cash s < amount ->
  snd (execute_buy order_ok s symbol price amount strat) = s
  /\ (MAX_RISK_PER_TRADE < amount
      \/ daily_pl s <= - MAX_DAILY_LOSS_PERCENT * starting_day_value s
      \/ ~ price == 0 ->
      fst (execute_buy order_ok s symbol price amount strat) = Returned false)
  /\ (can_make_trade s amount = true -> price == 0 ->
      fst (execute_buy order_ok s symbol price amount strat)
      = Raised ZeroDivisionError).
Proof.
  intros Hrej. unfold execute_buy.
  destruct (can_make_trade s amount) eqn:Hcan; simpl;
    [|by repeat split].
  assert (Hcash : Qlt_bool (cash s) amount = true).
  { apply Qlt_bool_iff. unfold can_make_trade in Hcan.
    destruct (Qlt_bool MAX_RISK_PER_TRADE amount) eqn:H1; [discriminate|].
    destruct (Qle_bool (daily_pl s) _) eqn:H2; [discriminate|].
    apply Qlt_bool_false_iff in H1. apply Qle_bool_false_iff in H2.
    destruct Hrej as [Hr|[Hr|Hr]]; [lra | lra | exact Hr]. }
  destruct (Qeq_bool price 0) eqn:Hp; simpl.
  - split; [reflexivity|]. split; [|done]. unfold can_make_trade in Hcan.
    destruct (Qlt_bool MAX_RISK_PER_TRADE amount) eqn:H1; [discriminate|].
    destruct (Qle_bool (daily_pl s) _) eqn:H2; [discriminate|].
    apply Qlt_bool_false_iff in H1. apply Qle_bool_false_iff in H2.
    apply Qeq_bool_iff in Hp.
    intros [Hr|[Hr|Hr]]; [lra | lra | contradiction].
  - rewrite Hcash. split; [reflexivity|]. split; [done|].
    intros _ Hz. apply Qeq_bool_neq in Hp. contradiction.
Qed.

Lemma rejected_buy_changes_nothing_witness :
  snd (execute_buy true init "AAPL" 100 60 "breakout") = init
  /\ fst (execute_buy true init "AAPL" 100 60 "breakout") = Returned false.
Proof.
  destruct (rejected_buy_changes_nothing true init "AAPL" 100 60 "breakout")
    as (Hs & Hr & _).
  - left. reflexivity.
  - split; [exact Hs | apply Hr; left; reflexivity].
Defined.

(** ** Trailing stops *)

(** An accepted breakout buy writes the stop of its symbol, whatever stop
    was in force. *)
Lemma accepted_breakout_buy_sets_stop (ok : bool) (s : bot) (symbol : string)
    (price amount : Q) :
  fst (execute_buy ok s symbol price amount "breakout") = Returned true ->
  trailing_stops (snd (execute_buy ok s symbol price amount "breakout"))
    !! symbol
  = Some (price * (1 - TRAILING_STOP_PERCENT)).
Proof.
  unfold execute_buy.
  destruct (negb (can_make_trade s amount)); [discriminate|].
  destruct (Qeq_bool price 0); [discriminate|].
  destruct (Qlt_bool (cash s) amount); [discriminate|].
  destruct (negb ok); [discriminate|].
  simpl. destruct (positions s !! symbol) as [p|]; simpl.
  - destruct (Qeq_bool _ 0); simpl; [discriminate|].
    intros _. apply lookup_insert_eq.
  - intros _. apply lookup_insert_eq.
Qed.

(** C2 as stated fails: a second breakout buy of a held symbol at a lower
    price overwrites the stop with a lower value while the position lives. *)
Lemma rebuy_lowers_trailing_stop :
  let s1 := snd (execute_buy true init "AAPL" 100 10 "breakout") in
  let s2 := step s1 (Buy true "AAPL" 50 10 "breakout") in
  exists t t',
    trailing_stops s1 !! "AAPL" = Some t
    /\ is_Some (positions s1 !! "AAPL")
    /\ is_Some (positions s2 !! "AAPL")
    /\ trailing_stops s2 !! "AAPL" = Some t'
    /\ t == 90 /\ t' == 45 /\ ~ t <= t'.
Proof.
  eexists _, _.
  split; [vm_compute; reflexivity|].
  split; [vm_compute; eexists; reflexivity|].
  split; [vm_compute; eexists; reflexivity|].
  split; [vm_compute; reflexivity|].
  split; [reflexivity|].
  split; [reflexivity|].
  apply Qlt_not_le. reflexivity.
Qed.

(** C2, amended.  Over any sequence of ledger operations -- stop checks,
    take-profit checks, market-close liquidation, sells, and buys other than
    a breakout buy of the symbol itself -- a trailing stop that is still set
    at the end was set at the start and has not decreased. *)
Theorem trailing_stop_never_lowered (sym : string) (ops : list op) (s : bot) :
  forallb (fun o => negb (is_breakout_buy_of sym o)) ops = true ->
  forall t', trailing_stops (run ops s) !! sym = Some t' ->
    exists t, trailing_stops s !! sym = Some t /\ t <= t'.
Proof.
  revert s. induction ops as [|o ops IH]; intros s Hops t' H; simpl in *.
  - exists t'. split; [exact H | apply Qle_refl].
  - apply andb_true_iff in Hops as [Ho Hops]. apply negb_true_iff in Ho.
    destruct (IH _ Hops _ H) as (t1 & H1 & Hle1).
    destruct (step_not_lowered_at sym s o Ho _ H1) as (t0 & H0 & Hle0).
    exists t0. split; [exact H0 | eapply Qle_trans; eassumption].
Qed.

Lemma trailing_stop_never_lowered_witness :
  exists t, trailing_stops held_aapl !! "AAPL" = Some t /\ t <= 10800 # 100.
Proof.
  apply (trailing_stop_never_lowered "AAPL"
           [CheckStops (fun _ => Some 120) (fun _ => true);
            Sell true "AAPL" 125 4 "breakout" "manual"] held_aapl).
  - reflexivity.
  - vm_compute. reflexivity.
Defined.

(** ** Sell processing *)

(** What an executed sell does to the ledger, in one place. *)
Lemma execute_sell_held (s : bot) (symbol : string) (p : position)
    (price sold : Q) (strat reason : string) :
  positions s !! symbol = Some p ->
  execute_sell true s symbol price sold strat reason =
    (true,
     mkBot (cash s + sold * price)
           (if Qle_bool (shares p) sold then delete symbol (positions s)
            else <[symbol := mkPosition (shares p - sold) (entry_price p)
                               (strategy p)]> (positions s))
           (daily_pl s + (price - entry_price p) * sold)
           (starting_day_value s)
           (if Qle_bool (shares p) sold then delete symbol (trailing_stops s)
            else trailing_stops s)
           (trades s ++
              [mkRow symbol ("SELL (" ++ reason ++ ")") price sold
                     ((price - entry_price p) * sold) strat
                     (cash s + sold * price)])).
Proof.
  intros Hp. unfold execute_sell. simpl. rewrite Hp.
  destruct (Qle_bool (shares p) sold); reflexivity.
Qed.

(** C3.  An executed sell of [sold] shares of a held position at [price]
    logs the realized P&L [(price - entry_price) * sold], adds it to
    [daily_pl], credits [sold * price] to the cash, and either removes the
    position together with its trailing stop (when the held shares do not
    exceed [sold]) or lowers the share count by [sold] and keeps the stop
    table as it is.  Ten shares entered at 100 and all sold at 120 realize
    200 and leave no position. *)
Theorem sell_accounting (s : bot) (symbol : string) (p : position)
    (price sold : Q) (strat reason : string) :
  positions s !! symbol = Some p ->
  let r := execute_sell true s symbol price sold strat reason in
  fst r = true
  /\ (exists row, last (trades (snd r)) = Some row
        /\ row_pnl row = (price - entry_price p) * sold)
  /\ daily_pl (snd r) = daily_pl s + (price - entry_price p) * sold
  /\ cash (snd r) = cash s + sold * price
  /\ (shares p <= sold ->
        positions (snd r) = delete symbol (positions s)
        /\ trailing_stops (snd r) = delete symbol (trailing_stops s))
  /\ (sold < shares p ->
        positions (snd r)
          = <[symbol := mkPosition (shares p - sold) (entry_price p)
                          (strategy p)]> (positions s)
        /\ trailing_stops (snd r) = trailing_stops s)
  /\ (let r0 := execute_sell true held_aapl "AAPL" 120 10 "breakout"
                  "take_profit" in
      (exists row, last (trades (snd r0)) = Some row /\ row_pnl row == 200)
      /\ positions (snd r0) = ∅
      /\ trailing_stops (snd r0) = ∅).
Proof.
  intros Hp r. subst r. rewrite (execute_sell_held _ _ _ _ _ _ _ Hp). simpl.
  split; [reflexivity|].
  split; [eexists; split; [apply last_snoc | reflexivity]|].
  split; [reflexivity|]. split; [reflexivity|].
  split; [|split].
  - intros Hle. apply Qle_bool_iff in Hle. rewrite Hle. by split.
  - intros Hlt. apply Qle_bool_false_iff in Hlt. rewrite Hlt. by split.
  - split; [|split].
    + eexists. split; [vm_compute; reflexivity | reflexivity].
    + vm_compute. reflexivity.
    + vm_compute. reflexivity.
Qed.

Lemma sell_accounting_witness :
  cash (snd (execute_sell true held_aapl "AAPL" 120 4 "breakout" "manual"))
    = 0 + 4 * 120.
Proof.
  pose proof (sell_accounting held_aapl "AAPL" (mkPosition 10 100 "breakout")
                120 4 "breakout" "manual") as H.
  simpl in H. apply H. reflexivity.
Defined.

(** C10.  When an executed sell asks for at least the held share count, the
    position and its trailing stop are gone afterwards, while the cash is
    credited with, and the P&L computed over, the requested share count:
    nothing clamps the request to what is held. *)
Theorem oversell_is_not_clamped (s : bot) (symbol : string) (p : position)
    (price requested : Q) (strat reason : string) :
  positions s !! symbol = Some p ->
  shares p <= requested ->
  let r := execute_sell true s symbol price requested strat reason in
  fst r = true
  /\ positions (snd r) !! symbol = None
  /\ positions (snd r) = delete symbol (positions s)
  /\ trailing_stops (snd r) !! symbol = None
  /\ trailing_stops (snd r) = delete symbol (trailing_stops s)
  /\ cash (snd r) = cash s + requested * price
  /\ daily_pl (snd r) = daily_pl s + (price - entry_price p) * requested
  /\ last (trades (snd r))
       = Some (mkRow symbol ("SELL (" ++ reason ++ ")") price requested
                 ((price - entry_price p) * requested) strat
                 (cash s + requested * price)).
Proof.
  intros Hp Hle r. subst r. rewrite (execute_sell_held _ _ _ _ _ _ _ Hp).
  apply Qle_bool_iff in Hle. simpl. rewrite Hle.
  repeat split; try apply lookup_delete_eq. apply last_snoc.
Qed.

Lemma oversell_is_not_clamped_witness :
  let r := execute_sell true held_aapl "AAPL" 120 15 "breakout" "manual" in
  positions (snd r) !! "AAPL" = None /\ cash (snd r) = 0 + 15 * 120.
Proof.
  destruct (oversell_is_not_clamped held_aapl "AAPL"
              (mkPosition 10 100 "breakout") 120 15 "breakout" "manual")
    as (_ & Hgone & _ & _ & _ & Hcash & _).
  - reflexivity.
  - discriminate.
  - split; [exact Hgone | exact Hcash].
Defined.

End BotFacts.


(** * Level clustering *)

Section LevelFacts.
Import Pandas Breakout Spec.
Local Open Scope Q_scope.

Lemma insert_level_perm (x : Q) (l : list Q) :
  Permutation (x :: l) (insert_level x l).
Proof.
  induction l as [|y l IH]; simpl; [reflexivity|].
  destruct (Qle_bool x y); [reflexivity|].
  rewrite perm_swap. by apply perm_skip.
Qed.

Lemma sorted_perm (levels : list Q) : Permutation levels (sorted levels).
Proof.
  induction levels as [|x l IH]; simpl; [reflexivity|].
  etransitivity; [apply perm_skip, IH | apply insert_level_perm].
Qed.

Lemma insert_level_sorted (x : Q) (l : list Q) :
  StronglySorted Qle l -> StronglySorted Qle (insert_level x l).
Proof.
  induction 1 as [|y l Hl IH Hy]; simpl.
  - repeat constructor.
  - destruct (Qle_bool x y) eqn:E.
    + apply Qle_bool_iff in E. constructor; [by constructor|].
      constructor; [exact E|].
      eapply Forall_impl; [exact Hy|]. intros z Hz. simpl in Hz.
      eapply Qle_trans; eassumption.
    + apply Qle_bool_false_iff in E. constructor; [exact IH|].
      rewrite <- (insert_level_perm x l). constructor; [|exact Hy].
      by apply Qlt_le_weak.
Qed.

Lemma sorted_sorted (levels : list Q) : StronglySorted Qle (sorted levels).
Proof.
  induction levels as [|x l IH]; simpl; [constructor|].
  by apply insert_level_sorted.
Qed.












End LevelFacts.

(** * Rolling windows and the breakout detectors *)

Section DetectorFacts.
Import Pandas Breakout Spec.
Local Open Scope Q_scope.

Lemma from_end_1 {A : Type} (l : list A) : from_end 1 l = last l.
Proof.
  unfold from_end. rewrite last_lookup.
  destruct l as [|x l]; [reflexivity|].
  simpl length. replace (S (length l) - 1)%nat with (length l) by lia.
  reflexivity.
Qed.

Lemma rolling_length {A : Type} (agg : list A -> fl) (w : nat) (l : list A) :
  length (rolling agg w l) = length l.
Proof. unfold rolling. by rewrite length_map, length_seq. Qed.

Lemma rolling_lookup {A : Type} (agg : list A -> fl) (w : nat) (l : list A)
    (i : nat) :
  (0 < w)%nat -> (w <= i + 1)%nat -> (i < length l)%nat ->
  rolling agg w l !! i = Some (agg (firstn w (skipn (i + 1 - w) l))).
Proof.
  intros Hw Hi Hlen. unfold rolling.
  change (map ?f ?x) with (f <$> x).
  rewrite list_lookup_fmap, lookup_seq_lt by done. simpl.
  unfold window_at.
  destruct (Nat.eqb_spec w 0); [lia|].
  destruct (Nat.ltb_spec (i + 1) w); [lia|]. reflexivity.
Qed.

(** [rolling(w).agg().iloc[-1]]: the aggregate of the last [w] rows. *)
Lemma rolling_last {A : Type} (agg : list A -> fl) (w : nat) (l : list A) :
  (0 < w)%nat -> (w <= length l)%nat ->
  from_end 1 (rolling agg w l) = Some (agg (trailing_window w l)).
Proof.
  intros Hw Hlen. unfold from_end, trailing_window.
  rewrite rolling_length.
  destruct (Nat.leb_spec 1 (length l)); [|lia].
  rewrite rolling_lookup by lia.
  by replace (length l - 1 + 1 - w)%nat with (length l - w)%nat by lia.
Qed.

(** [rolling(w).agg().shift(1).iloc[-1]]: the aggregate of the [w] rows
    before the last one. *)
Lemma rolling_shift_last {A : Type} (agg : list A -> fl) (w : nat)
    (l : list A) :
  (0 < w)%nat -> (w + 1 <= length l)%nat ->
  from_end 1 (shift1 (rolling agg w l)) = Some (agg (prior_window w l)).
Proof.
  intros Hw Hlen. rewrite from_end_1. unfold shift1, prior_window.
  destruct (rolling agg w l) as [|r rs] eqn:E.
  { apply (f_equal length) in E. rewrite rolling_length in E. simpl in E. lia. }
  rewrite <- E. clear E r rs.
  assert (Hr : length (rolling agg w l) = length l) by apply rolling_length.
  destruct (rolling agg w l) as [|a r] eqn:E using rev_ind.
  { simpl in Hr. lia. }
  clear IHr. rewrite removelast_last.
  rewrite last_cons.
  assert (Hlook : (r ++ [a])%list !! (length l - 2)%nat
                  = Some (agg (firstn w (skipn (length l - 2 + 1 - w) l)))).
  { rewrite <- E. apply rolling_lookup; lia. }
  rewrite length_app in Hr. simpl in Hr.
  rewrite lookup_app_l in Hlook by lia.
  rewrite last_lookup.
  replace (Init.Nat.pred (length r)) with (length l - 2)%nat by lia.
  rewrite Hlook.
  by replace (length l - 2 + 1 - w)%nat with (length l - 1 - w)%nat by lia.
Qed.

Lemma window_length {A : Type} (w k : nat) (l : list A) :
  (k + w <= length l)%nat -> length (firstn w (skipn k l)) = w.
Proof. intros H. rewrite length_firstn, length_skipn. lia. Qed.

Lemma Qmax_choice (x y : Q) : Qmax x y = x \/ Qmax x y = y.
Proof.
  unfold Qmax, GenericMinMax.gmax. destruct (x ?= y); auto.
Qed.

Lemma Qmin_choice (x y : Q) : Qmin x y = x \/ Qmin x y = y.
Proof.
  unfold Qmin, GenericMinMax.gmin. destruct (x ?= y); auto.
Qed.

Lemma fold_Qmax_is_max (rest : list Q) :
  forall x, is_max (fold_left Qmax rest x) (x :: rest).
Proof.
  induction rest as [|y rest IH]; intros x; simpl.
  - split; [by left|]. intros z [<-|[]]. apply Qle_refl.
  - destruct (IH (Qmax x y)) as [Hin Hub]. split.
    + destruct Hin as [Hin|Hin]; [|by right; right].
      rewrite <- Hin. destruct (Qmax_choice x y) as [->| ->]; [by left|right; by left].
    + intros z [<-|[<-|Hz]].
      * eapply Qle_trans; [apply Q.le_max_l | apply Hub; by left].
      * eapply Qle_trans; [apply Q.le_max_r | apply Hub; by left].
      * apply Hub. by right.
Qed.

Lemma fold_Qmin_is_min (rest : list Q) :
  forall x, is_min (fold_left Qmin rest x) (x :: rest).
Proof.
  induction rest as [|y rest IH]; intros x; simpl.
  - split; [by left|]. intros z [<-|[]]. apply Qle_refl.
  - destruct (IH (Qmin x y)) as [Hin Hlb]. split.
    + destruct Hin as [Hin|Hin]; [|by right; right].
      rewrite <- Hin. destruct (Qmin_choice x y) as [->| ->]; [by left|right; by left].
    + intros z [<-|[<-|Hz]].
      * eapply Qle_trans; [apply Hlb; by left | apply Q.le_min_l].
      * eapply Qle_trans; [apply Hlb; by left | apply Q.le_min_r].
      * apply Hlb. by right.
Qed.

Lemma max_agg_is_max (win : list Q) :
  win <> [] -> exists m, max_agg win = Fin m /\ is_max m win.
Proof.
  destruct win as [|x rest]; [done|]. intros _.
  eexists. split; [reflexivity | apply fold_Qmax_is_max].
Qed.

Lemma min_agg_is_min (win : list Q) :
  win <> [] -> exists m, min_agg win = Fin m /\ is_min m win.
Proof.
  destruct win as [|x rest]; [done|]. intros _.
  eexists. split; [reflexivity | apply fold_Qmin_is_min].
Qed.

Lemma mean_agg_window (win : list Q) :
  win <> [] -> mean_agg win = Fin (Qsum win / of_nat (length win)).
Proof. by destruct win. Qed.

Lemma nonempty_of_length {A : Type} (l : list A) (w : nat) :
  length l = w -> (0 < w)%nat -> l <> [].
Proof. intros H Hw ->. simpl in H. lia. Qed.

(** [calculate_average_volume] on a frame with at least [period] bars. *)
Lemma calculate_average_volume_full (period : nat) (df : frame) :
  (0 < period)%nat -> (period <= length (bars df))%nat ->
  calculate_average_volume period df
    = (Returned (Fin (Qsum (trailing_window period (map volume (bars df)))
                        / of_nat period)), df).
Proof.
  intros Hp Hlen.
  unfold calculate_average_volume, try_except, bind, base, iloc_last.
  rewrite rolling_last by (rewrite ?length_map; lia).
  assert (Hw : length (trailing_window period (map volume (bars df))) = period).
  { unfold trailing_window. apply window_length. rewrite length_map. lia. }
  rewrite mean_agg_window by (eapply nonempty_of_length; eassumption).
  by rewrite Hw.
Qed.

Lemma bar_from_end_1 (df : frame) (cur : bar) :
  last (bars df) = Some cur -> bar_from_end 1 df = (Returned cur, df).
Proof. intros H. unfold bar_from_end. by rewrite from_end_1, H. Qed.

Lemma cell_from_end_num (name : string) (l : list fl) (x : fl) (df : frame) :
  cols df !! name = Some (NumCol l) -> from_end 1 l = Some x ->
  cell_from_end name 1 df = (Returned (PyNum x), df).
Proof. intros Hc Hl. unfold cell_from_end. by rewrite Hc, Hl. Qed.

Lemma detect_breakouts_full (period : nat) (df : frame) (cur : bar) :
  (0 < period)%nat -> (period + 5 <= length (bars df))%nat ->
  last (bars df) = Some cur ->
  exists prior_high,
    is_max prior_high (prior_window period (map high (bars df)))
    /\ fst (detect_breakouts period df)
       = Returned (Qlt_bool prior_high (high cur)
                   && Qlt_bool prior_high (close cur)
                   && Qlt_bool (Qsum (trailing_window period
                                        (map volume (bars df)))
                                  / of_nat period * 2) (volume cur)).
Proof.
  intros Hp Hlen Hcur.
  destruct (max_agg_is_max (prior_window period (map high (bars df))))
    as (m & Hm & Hmax).
  { eapply nonempty_of_length; [|exact Hp]. unfold prior_window.
    apply window_length. rewrite length_map. lia. }
  exists m. split; [exact Hmax|].
  unfold detect_breakouts, try_except, bind at 1, len.
  destruct (Nat.ltb_spec (length (bars df)) (period + 5)); [lia|].
  unfold bind at 1, base. unfold bind at 1, setcol.
  unfold bind at 1.
  rewrite calculate_average_volume_full by (simpl; lia).
  unfold bind at 1. rewrite (bar_from_end_1 _ cur) by exact Hcur.
  unfold bind at 1.
  erewrite cell_from_end_num; cycle 1.
  { simpl. apply lookup_insert_eq. }
  { rewrite rolling_shift_last by (rewrite ?length_map; lia). reflexivity. }
  unfold bind, as_num, ret. simpl. rewrite Hm. simpl. reflexivity.
Qed.

Lemma detect_breakdown_full (period : nat) (df : frame) (cur : bar) :
  (0 < period)%nat -> (period + 5 <= length (bars df))%nat ->
  last (bars df) = Some cur ->
  exists prior_low,
    is_min prior_low (prior_window period (map low (bars df)))
    /\ fst (detect_breakdown period df)
       = Returned (Qlt_bool (low cur) prior_low
                   && Qlt_bool (close cur) prior_low
                   && Qlt_bool (Qsum (trailing_window period
                                        (map volume (bars df)))
                                  / of_nat period * 2) (volume cur)).
Proof.
  intros Hp Hlen Hcur.
  destruct (min_agg_is_min (prior_window period (map low (bars df))))
    as (m & Hm & Hmin).
  { eapply nonempty_of_length; [|exact Hp]. unfold prior_window.
    apply window_length. rewrite length_map. lia. }
  exists m. split; [exact Hmin|].
  unfold detect_breakdown, try_except, bind at 1, len.
  destruct (Nat.ltb_spec (length (bars df)) (period + 5)); [lia|].
  unfold bind at 1, base. unfold bind at 1, setcol.
  unfold bind at 1.
  rewrite calculate_average_volume_full by (simpl; lia).
  unfold bind at 1. rewrite (bar_from_end_1 _ cur) by exact Hcur.
  unfold bind at 1.
  erewrite cell_from_end_num; cycle 1.
  { simpl. apply lookup_insert_eq. }
  { rewrite rolling_shift_last by (rewrite ?length_map; lia). reflexivity. }
  unfold bind, as_num, ret. simpl. rewrite Hm. simpl. reflexivity.
Qed.

Lemma detectors_short (period : nat) (df : frame) :
  (length (bars df) < period + 5)%nat ->
  fst (detect_breakouts period df) = Returned false
  /\ fst (detect_breakdown period df) = Returned false.
Proof.
  intros Hshort.
  unfold detect_breakouts, detect_breakdown, try_except, bind, len.
  destruct (Nat.ltb_spec (length (bars df)) (period + 5)); [|lia].
  by split.
Qed.

(** The scenario of the specification: 25 bars with a flat high of 100,
    the last one with high 105, close 104.5 and a volume surge. *)
Example breakout_scenario :
  fst (detect_breakouts 20 breakout_bars) = Returned true
  /\ fst (detect_breakdown 20 breakout_bars) = Returned false.
Proof. split; vm_compute; reflexivity. Qed.

Lemma and3_true_iff (a b c : bool) (A B C : Prop) :
  (a = true <-> A) -> (b = true <-> B) -> (c = true <-> C) ->
  (a && b && c = true <-> A /\ B /\ C).
Proof. rewrite !andb_true_iff. tauto. Qed.

(** C4.  With fewer than [period + 5] bars both detectors return [False].
    With at least [period + 5] bars (and a positive period) the breakout
    detector returns [True] exactly when the last bar's high and its close
    both exceed the maximum of the highs of the [period] bars before it and
    its volume exceeds twice the mean volume of the last [period] bars; the
    breakdown detector is the mirror image on the minimum of the lows. *)
Theorem detectors_spec (period : nat) (df : frame) :
  ((length (bars df) < period + 5)%nat ->
     fst (detect_breakouts period df) = Returned false
     /\ fst (detect_breakdown period df) = Returned false)
  /\ ((0 < period)%nat -> (period + 5 <= length (bars df))%nat ->
      detector_verdicts period df).
Proof.
  split; [apply detectors_short|].
  intros Hp Hlen. unfold detector_verdicts.
  destruct (last (bars df)) as [cur|] eqn:Hcur.
  2:{ apply last_None in Hcur. rewrite Hcur in Hlen. simpl in Hlen. lia. }
  destruct (detect_breakouts_full period df cur Hp Hlen Hcur)
    as (ph & Hph & Hup).
  destruct (detect_breakdown_full period df cur Hp Hlen Hcur)
    as (pl & Hpl & Hdown).
  exists cur, ph, pl. repeat split; try apply Hph; try apply Hpl.
  - eexists. split; [exact Hup|].
    apply and3_true_iff; apply Qlt_bool_iff.
  - eexists. split; [exact Hdown|].
    apply and3_true_iff; apply Qlt_bool_iff.
Qed.

Lemma detectors_spec_witness :
  detector_verdicts 20 breakout_bars
  /\ fst (detect_breakouts 5 three_bars) = Returned false.
Proof.
  split.
  - apply (detectors_spec 20 breakout_bars); simpl; lia.
  - apply (detectors_spec 5 three_bars). simpl. lia.
Defined.

End DetectorFacts.

(** * What the consumers do to the caller's frame *)

Section FrameEffects.
Import Pandas Breakout MeanReversion BreakoutIndicators Spec.
Local Open Scope Q_scope.

Lemma reads_writes {A : Type} (written : list string) (m : M A) :
  reads_only m -> writes_only written m.
Proof. intros H df. rewrite (H df). split; [reflexivity | intros; reflexivity]. Qed.

Lemma reads_only_ret {A : Type} (a : A) : reads_only (ret a).
Proof. done. Qed.

Lemma reads_only_raise {A : Type} (e : exn) : reads_only (@raise A e).
Proof. done. Qed.

Lemma reads_only_len : reads_only len.
Proof. done. Qed.

Lemma reads_only_base (field : bar -> Q) : reads_only (base field).
Proof. done. Qed.

Lemma reads_only_has_col (name : string) : reads_only (has_col name).
Proof. done. Qed.

Lemma reads_only_getnum (name : string) : reads_only (getnum name).
Proof.
  intros df. unfold getnum. by destruct (cols df !! name) as [[]|].
Qed.

Lemma reads_only_iloc_last {A : Type} (s : list A) : reads_only (iloc_last s).
Proof. intros df. unfold iloc_last. by destruct (from_end 1 s). Qed.

Lemma reads_only_bar_from_end (k : nat) : reads_only (bar_from_end k).
Proof. intros df. unfold bar_from_end. by destruct (from_end k (bars df)). Qed.

Lemma reads_only_cell_from_end (name : string) (k : nat) :
  reads_only (cell_from_end name k).
Proof.
  intros df. unfold cell_from_end.
  destruct (cols df !! name) as [[l|]|]; [|by destruct (_ <=? _)%nat|done].
  by destruct (from_end k l).
Qed.

Lemma reads_only_as_num (v : pyval) : reads_only (as_num v).
Proof. by destruct v. Qed.

Lemma reads_only_bind {A B : Type} (m : M A) (k : A -> M B) :
  reads_only m -> (forall a, reads_only (k a)) -> reads_only (bind m k).
Proof.
  intros Hm Hk df. unfold bind. specialize (Hm df).
  destruct (m df) as [[a|e] df']; simpl in Hm; subst df'; [apply Hk|done].
Qed.

Lemma reads_only_try {A : Type} (body handler : M A) :
  reads_only body -> reads_only handler -> reads_only (try_except body handler).
Proof.
  intros Hb Hh df. unfold try_except. specialize (Hb df).
  destruct (body df) as [[a|e] df']; simpl in Hb; subst df'; [done|apply Hh].
Qed.

Lemma writes_only_setcol (written : list string) (name : string) (c : column) :
  name ∈ written -> writes_only written (setcol name c).
Proof.
  intros Hin df. split; [done|]. intros k Hk. simpl.
  apply lookup_insert_ne. intros ->. contradiction.
Qed.

Lemma writes_only_bind {A B : Type} (written : list string) (m : M A)
    (k : A -> M B) :
  writes_only written m -> (forall a, writes_only written (k a)) ->
  writes_only written (bind m k).
Proof.
  intros Hm Hk df. unfold bind. destruct (Hm df) as [Hb Hc].
  destruct (m df) as [[a|e] df']; simpl in *; [|by split].
  destruct (Hk a df') as [Hb' Hc']. split; [congruence|].
  intros key Hkey. rewrite Hc' by done. by apply Hc.
Qed.

Lemma writes_only_try {A : Type} (written : list string) (body handler : M A) :
  writes_only written body -> writes_only written handler ->
  writes_only written (try_except body handler).
Proof.
  intros Hm Hh df. unfold try_except. destruct (Hm df) as [Hb Hc].
  destruct (body df) as [[a|e] df']; simpl in *; [by split|].
  destruct (Hh df') as [Hb' Hc']. split; [congruence|].
  intros key Hkey. rewrite Hc' by done. by apply Hc.
Qed.

Lemma reads_only_call_ta_rsi (ta_rsi : list Q -> nat -> ta_result)
    (c : list Q) (n : nat) :
  reads_only (call_ta_rsi ta_rsi c n).
Proof. unfold call_ta_rsi. by destruct (ta_rsi c n). Qed.

(** Take a program apart along its binds, handlers and branches. *)
Ltac reads :=
  repeat first
    [ apply reads_only_ret | apply reads_only_raise | apply reads_only_len
    | apply reads_only_base | apply reads_only_has_col
    | apply reads_only_getnum | apply reads_only_iloc_last
    | apply reads_only_bar_from_end | apply reads_only_cell_from_end
    | apply reads_only_as_num | apply reads_only_call_ta_rsi
    | apply reads_only_try
    | apply reads_only_bind; [|intros ?]
    | match goal with
      | |- reads_only (if ?b then _ else _) => destruct b
      end ].

Ltac writes :=
  repeat first
    [ apply writes_only_setcol; set_solver
    | apply writes_only_try
    | apply writes_only_bind; [|intros ?]
    | match goal with
      | |- writes_only _ (if ?b then _ else _) => destruct b
      end
    | apply reads_writes; solve [reads] ].

Lemma reads_only_calculate_average_volume (period : nat) :
  reads_only (calculate_average_volume period).
Proof. unfold calculate_average_volume. reads. Qed.

Lemma writes_only_calculate_rsi (ta_rsi : list Q -> nat -> ta_result)
    (period : nat) :
  writes_only ["rsi"] (calculate_rsi ta_rsi period).
Proof. unfold calculate_rsi. writes. Qed.

Lemma writes_only_detect_breakouts (period : nat) :
  writes_only ["n_period_high"] (detect_breakouts period).
Proof.
  unfold detect_breakouts. writes.
Qed.

Lemma writes_only_detect_breakdown (period : nat) :
  writes_only ["n_period_low"] (detect_breakdown period).
Proof.
  unfold detect_breakdown. writes.
Qed.

Lemma writes_only_weaken {A : Type} (w w' : list string) (m : M A) :
  w ⊆ w' -> writes_only w m -> writes_only w' m.
Proof.
  intros Hsub Hm df. destruct (Hm df) as [Hb Hc]. split; [exact Hb|].
  intros k Hk. apply Hc. intros Hin. apply Hk, Hsub, Hin.
Qed.

Lemma writes_only_calculate_bollinger_bands (np_sqrt : Q -> Q) (window : nat)
    (num_std : Q) :
  writes_only band_columns (calculate_bollinger_bands np_sqrt window num_std).
Proof. unfold calculate_bollinger_bands, band_columns. writes. Qed.

Lemma writes_only_calculate_mean_reversion_metrics
    (ta_rsi : list Q -> nat -> ta_result) :
  writes_only metric_columns (calculate_mean_reversion_metrics ta_rsi).
Proof. unfold calculate_mean_reversion_metrics, metric_columns. writes. Qed.

Lemma writes_only_prelude (np_sqrt : Q -> Q)
    (ta_rsi : list Q -> nat -> ta_result) (window : nat) (num_std : Q)
    {A : Type} (k : M A) :
  writes_only (band_columns ++ metric_columns) k ->
  writes_only (band_columns ++ metric_columns)
    (calculate_bollinger_bands np_sqrt window num_std ;;;
     calculate_mean_reversion_metrics ta_rsi ;;; k).
Proof.
  intros Hk. apply writes_only_bind; [|intros _; apply writes_only_bind].
  - eapply writes_only_weaken; [|apply writes_only_calculate_bollinger_bands].
    intros x Hx. apply elem_of_app. by left.
  - eapply writes_only_weaken;
      [|apply writes_only_calculate_mean_reversion_metrics].
    intros x Hx. apply elem_of_app. by right.
  - intros _. exact Hk.
Qed.

Lemma reads_only_latest_rsi : reads_only latest_rsi.
Proof. unfold latest_rsi. reads. Qed.

Lemma writes_only_detect_mean_reversion_opportunities (np_sqrt : Q -> Q)
    (ta_rsi : list Q -> nat -> ta_result) (window : nat) (std_threshold : Q) :
  writes_only (band_columns ++ metric_columns)
    (detect_mean_reversion_opportunities np_sqrt ta_rsi window std_threshold).
Proof.
  unfold detect_mean_reversion_opportunities.
  apply writes_only_try; [|apply reads_writes; reads].
  apply writes_only_bind; [apply reads_writes; reads|]. intros n.
  destruct (n <? window)%nat; [apply reads_writes; reads|].
  apply writes_only_prelude. apply reads_writes.
  unfold latest_rsi. reads.
Qed.

Lemma writes_only_detect_overbought_conditions (np_sqrt : Q -> Q)
    (ta_rsi : list Q -> nat -> ta_result) (window : nat) (std_threshold : Q) :
  writes_only (band_columns ++ metric_columns)
    (detect_overbought_conditions np_sqrt ta_rsi window std_threshold).
Proof.
  unfold detect_overbought_conditions.
  apply writes_only_try; [|apply reads_writes; reads].
  apply writes_only_bind; [apply reads_writes; reads|]. intros n.
  destruct (n <? window)%nat; [apply reads_writes; reads|].
  apply writes_only_prelude. apply reads_writes.
  unfold latest_rsi. reads.
Qed.

(** None of the scoring blocks writes the frame. *)
Lemma reads_only_breakout_factors (rsi volatility : pyval) :
  Forall reads_only (breakout_factors rsi volatility).
Proof.
  unfold breakout_factors, Breakout.rsi_points, Breakout.volume_points,
    candle_points, volatility_points, retest_points, calculate_average_volume.
  repeat constructor; reads.
Qed.

Lemma reads_only_reversion_factors (window : nat) :
  Forall reads_only (reversion_factors window).
Proof.
  unfold reversion_factors, deviation_points, MeanReversion.rsi_points,
    bounce_points, MeanReversion.volume_points, history_points, latest_rsi.
  repeat constructor; reads.
Qed.

Lemma reads_only_add_until_raise (factors : list (M Z)) :
  Forall reads_only factors ->
  forall score, reads_only (add_until_raise factors score).
Proof.
  induction 1 as [|f rest Hf _ IH]; intros score df; simpl; [done|].
  specialize (Hf df).
  destruct (f df) as [[p|e] df']; simpl in Hf; subst df'; [apply IH|done].
Qed.

Lemma reads_only_add_all (factors : list (M Z)) :
  Forall reads_only factors ->
  forall score, reads_only (add_all factors score).
Proof.
  induction 1 as [|f rest Hf _ IH]; intros score; simpl; [done|].
  apply reads_only_bind; [exact Hf | intros p; apply IH].
Qed.

Lemma reads_only_analyze_breakout_quality (rsi volatility : pyval) :
  reads_only (analyze_breakout_quality rsi volatility).
Proof.
  unfold analyze_breakout_quality. apply reads_only_bind; [|done].
  apply reads_only_add_until_raise, reads_only_breakout_factors.
Qed.

Lemma writes_only_get_mean_reversion_score (np_sqrt : Q -> Q)
    (ta_rsi : list Q -> nat -> ta_result) (window : nat) :
  writes_only (band_columns ++ metric_columns)
    (get_mean_reversion_score np_sqrt ta_rsi window).
Proof.
  unfold get_mean_reversion_score.
  apply writes_only_try; [|apply reads_writes; reads].
  apply writes_only_bind; [apply reads_writes; reads|]. intros n.
  destruct (n <? window)%nat; [apply reads_writes; reads|].
  apply writes_only_prelude. apply reads_writes.
  apply reads_only_bind; [reads|]. intros _.
  apply reads_only_bind; [|done].
  apply reads_only_add_all, reads_only_reversion_factors.
Qed.

(** ** The RSI indicator *)

(** C6 as stated fails: with an RSI routine that, like [pandas_ta.rsi],
    answers no Series on fewer than [length] closes, [calculate_rsi] on a
    three-bar frame returns [None], not 50. *)
Lemma short_series_rsi_is_none :
  (length (bars three_bars) < 14)%nat
  /\ fst (calculate_rsi rsi_requiring_length 14 three_bars) = Returned PyNone
  /\ ~ (forall ta_rsi period df,
          (length (bars df) < period)%nat ->
          fst (calculate_rsi ta_rsi period df) = Returned (PyNum (Fin 50))).
Proof.
  split; [simpl; lia|]. split; [reflexivity|].
  intros H. specialize (H rsi_requiring_length 14%nat three_bars).
  discriminate H. simpl. lia.
Qed.

(** C6, amended.  [calculate_rsi] never raises.  It returns 50 when the RSI
    routine raises and when the column it stored has no last row; when the
    routine yields no Series it returns [None] on a frame that has rows;
    otherwise it returns the last entry of the Series the routine computed,
    whatever that entry is. *)
Theorem calculate_rsi_never_raises (ta_rsi : list Q -> nat -> ta_result)
    (period : nat) (df : frame) :
  fst (calculate_rsi ta_rsi period df)
  = Returned
      match ta_rsi (map close (bars df)) period with
      | TaRaises _ => PyNum (Fin 50)
      | TaNone => match bars df with
                  | [] => PyNum (Fin 50)
                  | _ :: _ => PyNone
                  end
      | TaSeries l => match last l with
                      | Some x => PyNum x
                      | None => PyNum (Fin 50)
                      end
      end.
Proof.
  unfold calculate_rsi, try_except, bind, base, call_ta_rsi.
  destruct (ta_rsi (map close (bars df)) period) as [e| |l]; simpl.
  - reflexivity.
  - unfold cell_from_end. simpl. rewrite lookup_insert_eq.
    by destruct (bars df).
  - unfold cell_from_end. simpl. rewrite lookup_insert_eq.
    rewrite from_end_1. by destruct (last l).
Qed.

(** ** The frame after a call *)

(** C7 as stated fails: the breakout detector and the band calculation
    leave a column in the caller's frame that was not there before. *)
Lemma detectors_add_columns :
  cols breakout_bars !! "n_period_high" = None
  /\ is_Some (cols (snd (detect_breakouts 20 breakout_bars)) !! "n_period_high")
  /\ snd (detect_breakouts 20 breakout_bars) <> breakout_bars
  /\ cols three_bars !! "middle_band" = None
  /\ is_Some (cols (snd (calculate_bollinger_bands sqrt_trunc 2 2 three_bars))
                !! "middle_band")
  /\ snd (calculate_bollinger_bands sqrt_trunc 2 2 three_bars) <> three_bars.
Proof.
  assert (H1 : is_Some (cols (snd (detect_breakouts 20 breakout_bars))
                          !! "n_period_high")).
  { vm_compute. eexists. reflexivity. }
  assert (H2 : is_Some (cols (snd (calculate_bollinger_bands sqrt_trunc 2 2
                                     three_bars)) !! "middle_band")).
  { vm_compute. eexists. reflexivity. }
  split; [reflexivity|]. split; [exact H1|]. split.
  { intros E. rewrite E in H1. by destruct H1. }
  split; [reflexivity|]. split; [exact H2|].
  intros E. rewrite E in H2. by destruct H2.
Qed.

Lemma reads_only_call_ta_atr
    (ta_atr : list Q -> list Q -> list Q -> nat -> ta_result)
    (h l c : list Q) (n : nat) :
  reads_only (call_ta_atr ta_atr h l c n).
Proof. unfold call_ta_atr. by destruct (ta_atr h l c n). Qed.

Lemma writes_only_calculate_atr
    (ta_atr : list Q -> list Q -> list Q -> nat -> ta_result) (period : nat) :
  writes_only ["atr"] (calculate_atr ta_atr period).
Proof.
  unfold calculate_atr.
  apply writes_only_try; [|apply reads_writes; reads].
  apply writes_only_bind; [apply reads_writes; reads|]. intros h.
  apply writes_only_bind; [apply reads_writes; reads|]. intros l.
  apply writes_only_bind; [apply reads_writes; reads|]. intros c.
  apply writes_only_bind;
    [apply reads_writes, reads_only_call_ta_atr|]. intros r.
  writes.
Qed.

Lemma reads_only_calculate_volatility (np_sqrt : Q -> Q) (period : nat) :
  reads_only (calculate_volatility np_sqrt period).
Proof. unfold calculate_volatility. reads. Qed.

Lemma reads_only_find_support_resistance (window : nat) :
  reads_only (find_support_resistance window).
Proof. unfold find_support_resistance. reads. Qed.

Lemma writes_only_calculate_reversal_probability (np_sqrt : Q -> Q)
    (ta_rsi : list Q -> nat -> ta_result) :
  writes_only (band_columns ++ metric_columns)
    (calculate_reversal_probability np_sqrt ta_rsi).
Proof.
  unfold calculate_reversal_probability.
  apply writes_only_try; [|apply reads_writes; reads].
  apply writes_only_bind; [apply reads_writes; reads|]. intros n.
  destruct (n <? 100)%nat; [apply reads_writes; reads|].
  apply writes_only_bind; [apply reads_writes; reads|]. intros present.
  apply writes_only_bind.
  - destruct present; [apply reads_writes; reads|].
    apply writes_only_bind; [|intros _].
    + eapply writes_only_weaken;
        [|apply writes_only_calculate_bollinger_bands].
      intros x Hx. apply elem_of_app. by left.
    + eapply writes_only_weaken;
        [|apply writes_only_calculate_mean_reversion_metrics].
      intros x Hx. apply elem_of_app. by right.
  - intros _. apply reads_writes. reads.
Qed.

(** C7, amended.  Every detector, band calculation, indicator and scorer
    of [breakout.py] and [mean_reversion.py] leaves the bars of the caller's
    frame -- their order and their open, high, low, close and volume --
    exactly as they were, and leaves every derived column it does not name
    as it was; what it does write, in place, are its own derived columns:
    [rsi] for the RSI indicator, [atr] for the average true range,
    [n_period_high] and [n_period_low] for the breakout and breakdown
    detectors, the four band columns for the band calculation, the metric
    columns for the metrics, the band and metric columns for the
    mean-reversion detectors, the mean-reversion scorer and the reversal
    probability.  The volume average, the volatility, the
    support/resistance finder and the breakout scorer write nothing. *)
Theorem consumers_keep_the_bars (np_sqrt : Q -> Q)
    (ta_rsi : list Q -> nat -> ta_result)
    (ta_atr : list Q -> list Q -> list Q -> nat -> ta_result)
    (period window : nat) (num_std : Q) (rsi volatility : pyval) :
  writes_only ["rsi"] (calculate_rsi ta_rsi period)
  /\ reads_only (calculate_average_volume period)
  /\ reads_only (calculate_volatility np_sqrt period)
  /\ writes_only ["atr"] (calculate_atr ta_atr period)
  /\ writes_only ["n_period_high"] (detect_breakouts period)
  /\ writes_only ["n_period_low"] (detect_breakdown period)
  /\ reads_only (find_support_resistance window)
  /\ reads_only (analyze_breakout_quality rsi volatility)
  /\ writes_only band_columns (calculate_bollinger_bands np_sqrt window num_std)
  /\ writes_only metric_columns (calculate_mean_reversion_metrics ta_rsi)
  /\ writes_only (band_columns ++ metric_columns)
       (detect_mean_reversion_opportunities np_sqrt ta_rsi window num_std)
  /\ writes_only (band_columns ++ metric_columns)
       (detect_overbought_conditions np_sqrt ta_rsi window num_std)
  /\ writes_only (band_columns ++ metric_columns)
       (get_mean_reversion_score np_sqrt ta_rsi window)
  /\ writes_only (band_columns ++ metric_columns)
       (calculate_reversal_probability np_sqrt ta_rsi).
Proof.
  split; [apply writes_only_calculate_rsi|].
  split; [apply reads_only_calculate_average_volume|].
  split; [apply reads_only_calculate_volatility|].
  split; [apply writes_only_calculate_atr|].
  split; [apply writes_only_detect_breakouts|].
  split; [apply writes_only_detect_breakdown|].
  split; [apply reads_only_find_support_resistance|].
  split; [apply reads_only_analyze_breakout_quality|].
  split; [apply writes_only_calculate_bollinger_bands|].
  split; [apply writes_only_calculate_mean_reversion_metrics|].
  split; [apply writes_only_detect_mean_reversion_opportunities|].
  split; [apply writes_only_detect_overbought_conditions|].
  split; [apply writes_only_get_mean_reversion_score|].
  apply writes_only_calculate_reversal_probability.
Qed.

End FrameEffects.

(** * The quality scorers *)

Section ScorerFacts.
Import Pandas Breakout MeanReversion Spec.
Local Open Scope Z_scope.

Lemma bounded_by_ret (b z : Z) : 0 <= z <= b -> bounded_by b (ret z).
Proof. intros H df p df' E. inversion E; subst. exact H. Qed.

Lemma bounded_by_raise (b : Z) (e : exn) : bounded_by b (raise e).
Proof. intros df p df' E. discriminate. Qed.

Lemma bounded_by_bind {A : Type} (b : Z) (m : M A) (k : A -> M Z) :
  (forall a, bounded_by b (k a)) -> bounded_by b (bind m k).
Proof.
  intros Hk df p df' E. unfold bind in E.
  destruct (m df) as [[a|e] df1]; [|discriminate].
  eapply Hk, E.
Qed.

Ltac bounds :=
  repeat first
    [ apply bounded_by_raise
    | apply bounded_by_bind; intros ?
    | match goal with
      | |- bounded_by _ (if ?c then _ else _) => destruct c
      end
    | apply bounded_by_ret; repeat case_match; lia ].

Lemma breakout_factors_bounded (rsi volatility : pyval) :
  Forall2 bounded_by breakout_maxima (breakout_factors rsi volatility).
Proof.
  unfold breakout_maxima, breakout_factors, Breakout.rsi_points,
    Breakout.volume_points, candle_points, volatility_points, retest_points.
  repeat (constructor; [bounds|]). constructor.
Qed.

Lemma reversion_factors_bounded (window : nat) :
  Forall2 bounded_by reversion_maxima (reversion_factors window).
Proof.
  unfold reversion_maxima, reversion_factors, deviation_points,
    MeanReversion.rsi_points, bounce_points, MeanReversion.volume_points,
    history_points.
  repeat (constructor; [bounds|]). constructor.
Qed.

(** The breakout [try] always hands back a score, between what it started
    from and that plus the maxima of its blocks. *)
Lemma add_until_raise_range (maxima : list Z) (factors : list (M Z)) :
  Forall2 bounded_by maxima factors ->
  Forall (fun b => 0 <= b) maxima ->
  forall score df, exists z df',
    add_until_raise factors score df = (Returned z, df')
    /\ score <= z <= score + Zsum maxima.
Proof.
  induction 1 as [|b f maxima factors Hf _ IH]; intros Hpos score df; simpl.
  - exists score, df. split; [reflexivity | lia].
  - apply Forall_cons in Hpos as [Hb Hpos].
    assert (Hs : 0 <= Zsum maxima).
    { clear -Hpos. induction Hpos; simpl; lia. }
    destruct (f df) as [[p|e] df1] eqn:E.
    + destruct (IH Hpos (score + p) df1) as (z & df' & Hz & Hr).
      apply Hf in E. exists z, df'. split; [exact Hz | lia].
    + exists score, df1. split; [reflexivity | lia].
Qed.

Lemma add_all_range (maxima : list Z) (factors : list (M Z)) :
  Forall2 bounded_by maxima factors ->
  forall score df z df',
    add_all factors score df = (Returned z, df') ->
    score <= z <= score + Zsum maxima.
Proof.
  induction 1 as [|b f maxima factors Hf _ IH]; intros score df z df' E;
    simpl in *.
  - inversion E; subst. lia.
  - unfold bind in E. destruct (f df) as [[p|e] df1] eqn:Ef; [|discriminate].
    apply Hf in Ef. apply IH in E. lia.
Qed.

Lemma bind_returned {A B : Type} (m : M A) (k : A -> M B) (df df' : frame)
    (b : B) :
  bind m k df = (Returned b, df') ->
  exists a df1, m df = (Returned a, df1) /\ k a df1 = (Returned b, df').
Proof.
  unfold bind. destruct (m df) as [[a|e] df1]; [|discriminate].
  intros E. by exists a, df1.
Qed.

(** C9.  Each quality scorer always returns, and what it returns is an
    integer between 0 and 100 -- for every frame, every [rsi] and
    [volatility] argument and every window, whatever the external RSI and
    square-root routines answer. *)
Theorem quality_scores_in_range (np_sqrt : Q -> Q)
    (ta_rsi : list Q -> nat -> ta_result) (rsi volatility : pyval)
    (window : nat) (df : frame) :
  (exists z, fst (analyze_breakout_quality rsi volatility df) = Returned z
             /\ 0 <= z <= 100)
  /\ (exists z, fst (get_mean_reversion_score np_sqrt ta_rsi window df)
                = Returned z
                /\ 0 <= z <= 100).
Proof.
  split.
  - unfold analyze_breakout_quality, bind.
    destruct (add_until_raise_range _ _ (breakout_factors_bounded rsi volatility)
                ltac:(repeat constructor; lia) 0 df) as (z & df' & E & Hz).
    rewrite E. simpl. exists (Z.min z 100). split; [reflexivity | lia].
  - unfold get_mean_reversion_score, try_except.
    match goal with
    | |- context [match ?body df with _ => _ end] =>
        destruct (body df) as [[z|e] df'] eqn:E
    end; simpl; [|exists 0; split; [reflexivity | lia]].
    exists z. split; [reflexivity|].
    apply bind_returned in E as (n & df1 & _ & E).
    destruct (n <? window)%nat.
    { inversion E; subst. lia. }
    apply bind_returned in E as (? & df2 & _ & E).
    apply bind_returned in E as (? & df3 & _ & E).
    apply bind_returned in E as (? & df4 & _ & E).
    apply bind_returned in E as (score & df5 & Hscore & E).
    inversion E; subst.
    apply (add_all_range _ _ (reversion_factors_bounded window)) in Hscore.
    simpl in Hscore. lia.
Qed.

(** ** What an exception does to the score *)

Lemma add_until_raise_prefix (factors : list (M Z)) :
  Forall reads_only factors ->
  forall score df,
    add_until_raise factors score df
      = (Returned (score + points_before_raise factors df), df).
Proof.
  induction 1 as [|f rest Hf _ IH]; intros score df; simpl.
  - by rewrite Z.add_0_r.
  - specialize (Hf df). destruct (f df) as [[p|e] df1]; simpl in *; subst df1.
    + rewrite IH. by rewrite Z.add_assoc.
    + by rewrite Z.add_0_r.
Qed.

Lemma add_all_cases (factors : list (M Z)) :
  Forall reads_only factors ->
  forall score df,
    (some_block_raises factors df = true ->
       exists e, add_all factors score df = (Raised e, df))
    /\ (some_block_raises factors df = false ->
       add_all factors score df
         = (Returned (score + points_before_raise factors df), df)).
Proof.
  induction 1 as [|f rest Hf _ IH]; intros score df; simpl.
  - split; [discriminate|]. intros _. unfold ret. by rewrite Z.add_0_r.
  - unfold bind. specialize (Hf df).
    destruct (f df) as [[p|e] df1]; simpl in *; subst df1.
    + destruct (IH (score + p) df) as [Hr Hn]. split; [exact Hr|].
      intros E. rewrite (Hn E). by rewrite Z.add_assoc.
    + split; [by exists e | discriminate].
Qed.

Lemma try_unit_returns (body : M unit) (df : frame) :
  fst (try_except body (ret tt) df) = Returned tt.
Proof.
  unfold try_except. by destruct (body df) as [[[]|e] df'].
Qed.

(** The mean-reversion scorer once its guard is passed: the bands and the
    metrics are written, then the blocks run on the resulting frame. *)
Lemma mean_reversion_score_after_guard (np_sqrt : Q -> Q)
    (ta_rsi : list Q -> nat -> ta_result) (window : nat) (df : frame)
    (cur : bar) :
  (window <= length (bars df))%nat ->
  last (bars df) = Some cur ->
  fst (get_mean_reversion_score np_sqrt ta_rsi window df)
  = match add_all (reversion_factors window) 0
            (scored_frame np_sqrt ta_rsi window df) with
    | (Returned score, _) => Returned (Z.min score 100)
    | (Raised _, _) => Returned 0
    end.
Proof.
  intros Hlen Hcur.
  assert (Hbars : bars (scored_frame np_sqrt ta_rsi window df) = bars df).
  { unfold scored_frame.
    rewrite (proj1 (writes_only_calculate_mean_reversion_metrics ta_rsi _)).
    apply (writes_only_calculate_bollinger_bands np_sqrt window 2 df). }
  unfold get_mean_reversion_score, try_except, bind at 1, len.
  destruct (Nat.ltb_spec (length (bars df)) window) as [Hlt|Hge]; [lia|].
  unfold scored_frame in *. unfold bind at 1.
  pose proof (try_unit_returns
    (c <- base close ;;
     setcol "middle_band" (NumCol (rolling mean_agg window c)) ;;;
     c <- base close ;;
     setcol "std" (NumCol (rolling (std_agg np_sqrt) window c)) ;;;
     m <- getnum "middle_band" ;;
     sd <- getnum "std" ;;
     setcol "upper_band"
       (NumCol (map2 fl_add m (map (fun x => fl_mul x (Fin 2)) sd))) ;;;
     m <- getnum "middle_band" ;;
     sd <- getnum "std" ;;
     setcol "lower_band"
       (NumCol (map2 fl_sub m (map (fun x => fl_mul x (Fin 2)) sd))) ;;;
     ret tt) df) as Hb.
  change (fst (calculate_bollinger_bands np_sqrt window 2 df) = Returned tt)
    in Hb.
  destruct (calculate_bollinger_bands np_sqrt window 2 df) as [o df0].
  simpl in Hb. subst o. cbn [snd] in *. unfold bind at 1.
  assert (Hm : fst (calculate_mean_reversion_metrics ta_rsi df0) = Returned tt).
  { unfold calculate_mean_reversion_metrics. apply try_unit_returns. }
  destruct (calculate_mean_reversion_metrics ta_rsi df0) as [o df1].
  simpl in Hm. subst o. cbn [snd] in *.
  unfold bind at 1, bar_from_end. rewrite Hbars, from_end_1, Hcur.
  unfold bind at 1.
  by destruct (add_all (reversion_factors window) 0 df1) as [[score|e] df2].
Qed.

(** On the sixteen dipping bars the deviation block returns 30 and the
    bounce block raises, whatever the RSI routine answers. *)
Lemma dip_blocks (ta_rsi : list Q -> nat -> ta_result) :
  let df1 := scored_frame sqrt_trunc ta_rsi 9 dip_bars in
  fst (deviation_points df1) = Returned 30
  /\ fst (bounce_points df1) = Raised AttributeError.
Proof.
  unfold scored_frame.
  destruct (calculate_bollinger_bands sqrt_trunc 9 2 dip_bars) as [o df0] eqn:Eb.
  vm_compute in Eb. injection Eb as _ E0. subst df0. cbv zeta. cbn [snd].
  match goal with
  | |- context [calculate_mean_reversion_metrics ta_rsi ?f] =>
      destruct (calculate_mean_reversion_metrics ta_rsi f) as [o' F] eqn:Em
  end.
  cbn [snd]. vm_compute in Em.
  destruct (ta_rsi _ _) as [e| |l]; injection Em as _ EF; rewrite <- EF;
    split; vm_compute; reflexivity.
Qed.

(** So a block raises there after 30 points were added, and the score is 0. *)
Lemma dip_loses_thirty_points (ta_rsi : list Q -> nat -> ta_result) :
  let df1 := scored_frame sqrt_trunc ta_rsi 9 dip_bars in
  fst (deviation_points df1) = Returned 30
  /\ some_block_raises (reversion_factors 9) df1 = true
  /\ fst (get_mean_reversion_score sqrt_trunc ta_rsi 9 dip_bars) = Returned 0.
Proof.
  intros df1. destruct (dip_blocks ta_rsi) as [Hd Hb]. fold df1 in Hd, Hb.
  assert (Hraises : some_block_raises (reversion_factors 9) df1 = true).
  { unfold reversion_factors. cbn [some_block_raises]. rewrite Hd.
    destruct (fst (MeanReversion.rsi_points df1)); [|reflexivity].
    by rewrite Hb. }
  split; [exact Hd|]. split; [exact Hraises|].
  rewrite (mean_reversion_score_after_guard _ _ _ _ (flat_bar 91 1000));
    [|simpl; lia|reflexivity].
  destruct (add_all_cases _ (reads_only_reversion_factors 9) 0 df1) as [Hr _].
  destruct (Hr Hraises) as [e He]. fold df1. by rewrite He.
Qed.

(** C5 as stated fails.  On a frame without rows the breakout scorer's
    volume block raises; the volatility block after it would add 15 but is
    never run, so the score is 25 where per-block isolation gives 40; and a
    [None] for [rsi] drops all 60 points of the later blocks.  In the
    mean-reversion scorer the deviation block has added 30 when the bounce
    block raises, and the score returned is 0, whatever the RSI routine
    answers (the 35 of per-block isolation is what the stand-in RSI routine
    leads to). *)
Lemma exception_ends_the_scoring :
  fst (Breakout.rsi_points (PyNum (Fin 70)) no_bars) = Returned 25
  /\ fst (Breakout.volume_points no_bars) = Raised IndexError
  /\ fst (volatility_points (PyNum (Fin 1)) no_bars) = Returned 15
  /\ fst (analyze_breakout_quality (PyNum (Fin 70)) (PyNum (Fin 1)) no_bars)
     = Returned 25
  /\ fst (breakout_quality_factorwise (PyNum (Fin 70)) (PyNum (Fin 1)) no_bars)
     = Returned 40
  /\ fst (analyze_breakout_quality PyNone (PyNum (Fin 1)) breakout_bars)
     = Returned 0
  /\ fst (breakout_quality_factorwise PyNone (PyNum (Fin 1)) breakout_bars)
     = Returned 60
  /\ fst (mean_reversion_score_factorwise sqrt_trunc rsi_requiring_length 9
            dip_bars)
     = Returned 35
  /\ (forall ta_rsi,
        let df1 := scored_frame sqrt_trunc ta_rsi 9 dip_bars in
        fst (deviation_points df1) = Returned 30
        /\ fst (bounce_points df1) = Raised AttributeError
        /\ some_block_raises (reversion_factors 9) df1 = true
        /\ fst (get_mean_reversion_score sqrt_trunc ta_rsi 9 dip_bars)
           = Returned 0).
Proof.
  do 8 (split; [vm_compute; reflexivity|]).
  intros ta_rsi df1.
  destruct (dip_blocks ta_rsi) as [Hd Hb].
  destruct (dip_loses_thirty_points ta_rsi) as (_ & Hr & Hz).
  by repeat split.
Qed.

(** C5, amended.  In the breakout scorer an exception ends the scoring: the
    score is the sum of the points of the blocks before the first one that
    raises (capped at 100); that block and every later one add nothing.  In
    the mean-reversion scorer any exception -- in a block or before the
    blocks -- makes the score 0, as does a frame with fewer than [window]
    rows; when no block raises the score is the capped sum of all blocks. *)
Theorem exception_policy_of_the_scorers (np_sqrt : Q -> Q)
    (ta_rsi : list Q -> nat -> ta_result) (rsi volatility : pyval)
    (window : nat) (df : frame) :
  fst (analyze_breakout_quality rsi volatility df)
    = Returned (Z.min (points_before_raise (breakout_factors rsi volatility) df)
                  100)
  /\ ((length (bars df) < window)%nat ->
      fst (get_mean_reversion_score np_sqrt ta_rsi window df) = Returned 0)
  /\ ((window <= length (bars df))%nat -> bars df <> [] ->
      let df1 := scored_frame np_sqrt ta_rsi window df in
      (some_block_raises (reversion_factors window) df1 = true ->
         fst (get_mean_reversion_score np_sqrt ta_rsi window df) = Returned 0)
      /\ (some_block_raises (reversion_factors window) df1 = false ->
         fst (get_mean_reversion_score np_sqrt ta_rsi window df)
           = Returned (Z.min (points_before_raise (reversion_factors window) df1)
                         100))).
Proof.
  split; [|split].
  - unfold analyze_breakout_quality, bind.
    rewrite add_until_raise_prefix by apply reads_only_breakout_factors.
    reflexivity.
  - intros Hshort. unfold get_mean_reversion_score, try_except, bind at 1, len.
    by destruct (Nat.ltb_spec (length (bars df)) window) as [Hlt|Hge]; [|lia].
  - intros Hlen Hne df1. subst df1.
    destruct (last (bars df)) as [cur|] eqn:Hcur.
    2:{ apply last_None in Hcur. contradiction. }
    rewrite (mean_reversion_score_after_guard _ _ _ _ cur Hlen Hcur).
    destruct (add_all_cases _ (reads_only_reversion_factors window) 0
                (scored_frame np_sqrt ta_rsi window df)) as [Hr Hn].
    split; intros E.
    + destruct (Hr E) as [e He]. by rewrite He.
    + by rewrite (Hn E).
Qed.

Lemma exception_policy_of_the_scorers_witness :
  fst (get_mean_reversion_score sqrt_trunc rsi_requiring_length 9 dip_bars)
    = Returned 0
  /\ fst (get_mean_reversion_score sqrt_trunc rsi_requiring_length 5 three_bars)
    = Returned 0.
Proof.
  split.
  - destruct (exception_policy_of_the_scorers sqrt_trunc rsi_requiring_length
                PyNone PyNone 9 dip_bars) as (_ & _ & H).
    apply H.
    + simpl. lia.
    + discriminate.
    + vm_compute. reflexivity.
  - destruct (exception_policy_of_the_scorers sqrt_trunc rsi_requiring_length
                PyNone PyNone 5 three_bars) as (_ & H & _).
    apply H. simpl. lia.
Defined.

End ScorerFacts.

(** * More about the ledger *)

Section LedgerFacts.
Import Bot.
Local Open Scope Q_scope.

(** ** Buys *)

(** What an accepted buy has checked and what it leaves behind. *)
Lemma execute_buy_accepted (ok : bool) (s : bot) (symbol : string)
    (price amount : Q) (strat : string) :
  fst (execute_buy ok s symbol price amount strat) = Returned true ->
  can_make_trade s amount = true /\ ~ price == 0 /\ amount <= cash s
  /\ ok = true
  /\ exists p',
       positions (snd (execute_buy ok s symbol price amount strat))
         = <[symbol := p']> (positions s)
       /\ match positions s !! symbol with
          | None => p' = mkPosition (amount / price) price strat
          | Some p =>
              ~ shares p + amount / price == 0
              /\ p' = mkPosition (shares p + amount / price)
                        ((shares p * entry_price p + amount / price * price)
                           / (shares p + amount / price)) strat
          end
       /\ cash (snd (execute_buy ok s symbol price amount strat))
          = cash s - amount
       /\ daily_pl (snd (execute_buy ok s symbol price amount strat))
          = daily_pl s.
Proof.
  unfold execute_buy.
  destruct (can_make_trade s amount); simpl; [|discriminate].
  destruct (Qeq_bool price 0) eqn:Hp; [discriminate|].
  destruct (Qlt_bool (cash s) amount) eqn:Hc; [discriminate|].
  destruct ok; simpl; [|discriminate].
  apply Qlt_bool_false_iff in Hc.
  assert (Hp' : ~ price == 0).
  { intros E. apply Qeq_bool_iff in E. congruence. }
  destruct (positions s !! symbol) as [p|] eqn:Hpos; simpl.
  - destruct (Qeq_bool (shares p + amount / price) 0) eqn:Ht; simpl;
      [discriminate|].
    intros _. repeat split; try assumption.
    eexists. split; [|split; [split; [|reflexivity]|]].
    + destruct (String.eqb strat "breakout"); reflexivity.
    + intros E. apply Qeq_bool_iff in E. congruence.
    + destruct (String.eqb strat "breakout"); by split.
  - intros _. repeat split; try assumption.
    eexists. split; [|split; [reflexivity|]].
    + destruct (String.eqb strat "breakout"); reflexivity.
    + destruct (String.eqb strat "breakout"); by split.
Qed.

(** X1.  An accepted buy moves exactly [amount] from the cash into the cost
    basis ([shares * entry_price]) of its symbol: the cash drops by [amount]
    and stays non-negative, the cost basis of the symbol grows by [amount]
    (for a fresh position and for an averaged one alike), and the daily P&L
    and every other position are as before. *)
Theorem buy_moves_cash_into_cost_basis (ok : bool) (s : bot) (symbol : string)
    (price amount : Q) (strat : string) :
  fst (execute_buy ok s symbol price amount strat) = Returned true ->
  let s' := snd (execute_buy ok s symbol price amount strat) in
  cash s' = cash s - amount
  /\ 0 <= cash s'
  /\ cost_basis s' symbol == cost_basis s symbol + amount
  /\ daily_pl s' = daily_pl s
  /\ forall other, other <> symbol ->
       positions s' !! other = positions s !! other.
Proof.
  intros Hacc s'. subst s'.
  destruct (execute_buy_accepted _ _ _ _ _ _ Hacc)
    as (_ & Hp & Hc & _ & p' & Hpos & Hnew & Hcash & Hpl).
  rewrite Hcash. split; [reflexivity|]. split; [lra|].
  split; [|split; [exact Hpl|]].
  - unfold cost_basis. rewrite Hpos, lookup_insert_eq.
    destruct (positions s !! symbol) as [p|].
    + destruct Hnew as [Ht ->]. simpl. field. split; [exact Hp|].
      intros E. apply Ht.
      assert (E' : shares p + amount / price
                   == (shares p * price + amount) / price)
        by (field; exact Hp).
      rewrite E', E. field. exact Hp.
    + subst p'. simpl. field. exact Hp.
  - intros other Hne. rewrite Hpos. by apply lookup_insert_ne.
Qed.

Lemma buy_moves_cash_into_cost_basis_witness :
  cost_basis (snd (execute_buy true init "AAPL" 100 10 "breakout")) "AAPL"
    == cost_basis init "AAPL" + 10.
Proof.
  apply (buy_moves_cash_into_cost_basis true init "AAPL" 100 10 "breakout").
  reflexivity.
Defined.



(** X3.  Round trip at one price: buying into a symbol that is not held and
    selling the bought shares at the same price gives the cash back, books
    no profit or loss, and leaves the symbol without position or stop. *)
Theorem buy_then_sell_at_same_price (s : bot) (symbol : string)
    (price amount : Q) (strat reason : string) :
  positions s !! symbol = None ->
  fst (execute_buy true s symbol price amount strat) = Returned true ->
  let s1 := snd (execute_buy true s symbol price amount strat) in
  let r := execute_sell true s1 symbol price (amount / price) strat reason in
  fst r = true
  /\ cash (snd r) == cash s
  /\ daily_pl (snd r) == daily_pl s
  /\ positions (snd r) !! symbol = None
  /\ trailing_stops (snd r) !! symbol = None.
Proof.
  intros Hnew Hacc s1 r.
  destruct (execute_buy_accepted _ _ _ _ _ _ Hacc)
    as (_ & Hp & _ & _ & p' & Hpos & Hp' & Hcash & Hpl).
  rewrite Hnew in Hp'. subst p'.
  assert (Hheld : positions s1 !! symbol
                  = Some (mkPosition (amount / price) price strat)).
  { unfold s1. rewrite Hpos. apply lookup_insert_eq. }
  subst r. rewrite (execute_sell_held _ _ _ _ _ _ _ Hheld). simpl.
  assert (Hfull : Qle_bool (amount / price) (amount / price) = true).
  { apply Qle_bool_iff, Qle_refl. }
  rewrite Hfull. fold s1 in Hcash, Hpl. rewrite Hcash, Hpl.
  split; [reflexivity|]. split; [field; exact Hp|].
  split; [ring|]. split; apply lookup_delete_eq.
Qed.

Lemma buy_then_sell_at_same_price_witness :
  cash (snd (execute_sell true
               (snd (execute_buy true init "AAPL" 100 10 "breakout"))
               "AAPL" 100 (10 / 100) "breakout" "manual"))
    == cash init.
Proof.
  apply (buy_then_sell_at_same_price init "AAPL" 100 10 "breakout" "manual");
    reflexivity.
Defined.

(** ** The circuit breaker *)

Lemma tripped_breaker_rejects (ok : bool) (s : bot) (symbol : string)
    (price amount : Q) (strat : string) :
  breaker_tripped s ->
  execute_buy ok s symbol price amount strat = (Returned false, s).
Proof.
  unfold breaker_tripped, execute_buy, can_make_trade. intros H.
  apply Qle_bool_iff in H. rewrite H.
  by destruct (Qlt_bool MAX_RISK_PER_TRADE amount).
Qed.

(** X4.  Once the daily loss limit is reached, buying cannot get out of it:
    whatever buys are attempted, in whatever number, each returns [False]
    and the ledger after all of them is the ledger before. *)
Theorem tripped_breaker_blocks_every_buy (s : bot) (ops : list op) :
  breaker_tripped s ->
  forallb is_buy ops = true ->
  run ops s = s
  /\ forall ok symbol price amount strat,
       In (Buy ok symbol price amount strat) ops ->
       fst (execute_buy ok s symbol price amount strat) = Returned false.
Proof.
  intros Htrip Hbuys. split.
  - induction ops as [|o ops IH]; [reflexivity|].
    simpl in Hbuys. apply andb_true_iff in Hbuys as [Ho Hbuys].
    destruct o; try discriminate. unfold run in *. simpl.
    rewrite tripped_breaker_rejects by exact Htrip. simpl. by apply IH.
  - intros ok symbol price amount strat _.
    by rewrite tripped_breaker_rejects.
Qed.

Lemma tripped_breaker_blocks_every_buy_witness :
  let s := mkBot 80 ∅ (-20) 100 ∅ [] in
  run [Buy true "AAPL" 100 10 "breakout"; Buy true "NVDA" 50 20 "sentiment"] s
    = s.
Proof.
  apply (tripped_breaker_blocks_every_buy (mkBot 80 ∅ (-20) 100 ∅ [])).
  - unfold breaker_tripped. simpl. unfold MAX_DAILY_LOSS_PERCENT. lra.
  - reflexivity.
Defined.

Lemma get_account_value_cash (feed : price_feed) (s : bot) (d : Q) :
  get_account_value feed (with_daily_pl s d) = get_account_value feed s.
Proof. reflexivity. Qed.

(** X5.  Resetting the daily statistics re-arms or trips the breaker by the
    sign of the account value alone: when the account value [v] is computed,
    daily P&L is 0 and the starting value is [v] afterwards, so a buy passes
    the risk check exactly when its amount is at most [MAX_RISK_PER_TRADE]
    and [v] is positive; with [v <= 0] every buy is refused. *)
Theorem reset_rearms_the_breaker (feed : price_feed) (s : bot) (v : Q) :
  get_account_value feed s = Returned v ->
  let s' := snd (reset_daily_stats feed s) in
  fst (reset_daily_stats feed s) = Returned tt
  /\ daily_pl s' = 0 /\ starting_day_value s' = v
  /\ cash s' = cash s /\ positions s' = positions s
  /\ (breaker_tripped s' <-> v <= 0)
  /\ forall amount,
       can_make_trade s' amount = true
       <-> amount <= MAX_RISK_PER_TRADE /\ 0 < v.
Proof.
  intros Hv s'.
  assert (Hs : reset_daily_stats feed s
               = (Returned tt,
                  mkBot (cash s) (positions s) 0 v (trailing_stops s)
                        (trades s))).
  { unfold reset_daily_stats. by rewrite get_account_value_cash, Hv. }
  subst s'. rewrite Hs. cbn [fst snd daily_pl starting_day_value cash positions].
  split; [reflexivity|]. split; [reflexivity|]. split; [reflexivity|].
  split; [reflexivity|]. split; [reflexivity|].
  unfold breaker_tripped, can_make_trade.
  cbn [daily_pl starting_day_value]. unfold MAX_DAILY_LOSS_PERCENT.
  split; [split; intros H; lra|].
  intros amount.
  destruct (Qlt_bool MAX_RISK_PER_TRADE amount) eqn:E1;
    [apply Qlt_bool_iff in E1 | apply Qlt_bool_false_iff in E1];
    (destruct (Qle_bool 0 (- (15 # 100) * v)) eqn:E2;
      [apply Qle_bool_iff in E2 | apply Qle_bool_false_iff in E2]);
    split; try discriminate; try (intros [H1 H2]; lra).
  intros _. split; [exact E1 | lra].
Qed.

Lemma reset_rearms_the_breaker_witness :
  can_make_trade (snd (reset_daily_stats (fun _ => Some 120) held_aapl)) 50
    = true.
Proof.
  apply (reset_rearms_the_breaker (fun _ => Some 120) held_aapl
           (0 + (0 + 10 * 120))).
  - reflexivity.
  - split; [discriminate | reflexivity].
Defined.

(** ** Position sizing *)

Lemma py_min_spec (a b : Q) :
  py_min a b <= a /\ py_min a b <= b /\ (py_min a b = a \/ py_min a b = b).
Proof.
  unfold py_min. destruct (Qlt_bool b a) eqn:E;
    [apply Qlt_bool_iff in E | apply Qlt_bool_false_iff in E];
    repeat split; auto; lra.
Qed.

Lemma py_max_spec (a b : Q) :
  a <= py_max a b /\ b <= py_max a b /\ (py_max a b = a \/ py_max a b = b).
Proof.
  unfold py_max. destruct (Qlt_bool a b) eqn:E;
    [apply Qlt_bool_iff in E | apply Qlt_bool_false_iff in E];
    repeat split; auto; lra.
Qed.

Lemma risk_amount_bounds (cash : Q) :
  risk_amount cash <= 50 /\ risk_amount cash <= cash * (5 # 10).
Proof.
  unfold risk_amount.
  destruct (py_min_spec (py_max 20 (cash * (2 # 10)))
              (py_min 50 (cash * (5 # 10)))) as (_ & H & _).
  destruct (py_min_spec 50 (cash * (5 # 10))) as (H1 & H2 & _).
  split; lra.
Qed.

Lemma mean_reversion_risk_amount_large (cash : Q) :
  100 < cash -> 50 < mean_reversion_risk_amount cash.
Proof.
  intros Hc. unfold mean_reversion_risk_amount.
  destruct (py_max_spec 100 (cash * (2 # 10))) as (H1 & _ & _).
  destruct (py_min_spec 500 (cash * (5 # 10))) as (_ & _ & H2).
  destruct (py_min_spec (py_max 100 (cash * (2 # 10)))
              (py_min 500 (cash * (5 # 10)))) as (_ & _ & [-> | ->]).
  - lra.
  - destruct H2 as [-> | ->]; lra.
Qed.

(** X6.  The amount the sentiment and breakout strategies put at risk,
    [min(max(20, cash * 0.2), min(50, cash * 0.5))], never exceeds
    [MAX_RISK_PER_TRADE] nor half the cash.  So with non-negative cash and
    the breaker not tripped, a signalled buy of a symbol that is not held,
    at a nonzero price, succeeds exactly when the order goes through: it is
    never refused for risk or for lack of funds. *)
Theorem challenge_sizing_is_always_admitted (s : bot) (symbol : string)
    (sentiment_score post_volume rsi price : Q) (ok : bool) :
  0 <= cash s -> ~ breaker_tripped s ->
  5 # 10 < sentiment_score -> 100 < post_volume -> 60 < rsi ->
  ~ price == 0 -> positions s !! symbol = None ->
  risk_amount (cash s) <= MAX_RISK_PER_TRADE
  /\ risk_amount (cash s) <= cash s * (5 # 10)
  /\ risk_amount (cash s) <= cash s
  /\ fst (sentiment_trade sentiment_score post_volume (Some price) ok s symbol)
     = Returned ok
  /\ fst (breakout_trade true rsi (Some price) ok s symbol) = Returned ok.
Proof.
  intros Hcash Hbr Hsent Hvol Hrsi Hp Hnew.
  destruct (risk_amount_bounds (cash s)) as [H50 Hhalf].
  assert (Hle : risk_amount (cash s) <= cash s) by lra.
  split; [exact H50|]. split; [exact Hhalf|]. split; [exact Hle|].
  assert (Hcan : can_make_trade s (risk_amount (cash s)) = true).
  { unfold can_make_trade.
    apply Qlt_bool_false_iff in H50.
    unfold MAX_RISK_PER_TRADE. rewrite H50.
    destruct (Qle_bool (daily_pl s) _) eqn:E; [|reflexivity].
    apply Qle_bool_iff in E. contradiction. }
  assert (Hp0 : Qeq_bool price 0 = false).
  { destruct (Qeq_bool price 0) eqn:E; [|reflexivity].
    apply Qeq_bool_iff in E. contradiction. }
  assert (Hbuy : forall strat,
            fst (execute_buy ok s symbol price (risk_amount (cash s)) strat)
            = Returned ok).
  { intros strat. unfold execute_buy. rewrite Hcan, Hp0. simpl.
    apply Qlt_bool_false_iff in Hle. rewrite Hle.
    destruct ok; simpl; [|reflexivity]. by rewrite Hnew. }
  split.
  - unfold sentiment_trade.
    apply Qlt_bool_iff in Hsent, Hvol. rewrite Hsent, Hvol, Hp0. simpl.
    apply Hbuy.
  - unfold breakout_trade.
    apply Qlt_bool_iff in Hrsi. rewrite Hrsi, Hp0. simpl.
    apply Hbuy.
Qed.

Lemma challenge_sizing_is_always_admitted_witness :
  fst (sentiment_trade (8 # 10) 150 (Some 100) true init "AAPL")
    = Returned true.
Proof.
  apply (challenge_sizing_is_always_admitted init "AAPL" (8 # 10) 150 65 100
           true).
  - discriminate.
  - unfold breaker_tripped. apply Qlt_not_le. reflexivity.
  - reflexivity.
  - reflexivity.
  - reflexivity.
  - discriminate.
  - reflexivity.
Defined.

(** X7.  The mean-reversion strategy sizes its buys above the per-trade
    ceiling as soon as the cash exceeds 100: every such buy is refused by
    the risk check and leaves the ledger as it was, whatever the price. *)
Theorem mean_reversion_sizing_is_refused (s : bot) (symbol : string)
    (entry_price : Q) (current_price : option Q) (ok : bool) :
  100 < cash s ->
  MAX_RISK_PER_TRADE < mean_reversion_risk_amount (cash s)
  /\ mean_reversion_trade entry_price current_price ok s symbol
     = (Returned false, s).
Proof.
  intros Hcash.
  pose proof (mean_reversion_risk_amount_large _ Hcash) as Hbig.
  split; [exact Hbig|].
  unfold mean_reversion_trade. destruct current_price as [price|]; [|done].
  destruct (Qeq_bool price 0); [done|].
  destruct (Qlt_bool _ (1 # 100)); [|done].
  unfold execute_buy, can_make_trade.
  apply Qlt_bool_iff in Hbig. unfold MAX_RISK_PER_TRADE in *. by rewrite Hbig.
Qed.

Lemma mean_reversion_sizing_is_refused_witness :
  mean_reversion_trade 100 (Some 100) true (mkBot 1000 ∅ 0 1000 ∅ []) "AAPL"
    = (Returned false, mkBot 1000 ∅ 0 1000 ∅ []).
Proof.
  apply (mean_reversion_sizing_is_refused (mkBot 1000 ∅ 0 1000 ∅ [])).
  reflexivity.
Defined.

(** ** The two dictionaries *)

Lemma execute_sell_keeps_stops_with_positions (ok : bool) (s : bot)
    (symbol : string) (price sh : Q) (strat reason : string) :
  stops_have_positions s ->
  stops_have_positions (snd (execute_sell ok s symbol price sh strat reason)).
Proof.
  intros Hinv sym. unfold execute_sell.
  destruct ok; simpl; [|apply Hinv].
  destruct (positions s !! symbol) as [p|] eqn:Hp; simpl; [|apply Hinv].
  destruct (Qle_bool (shares p) sh); simpl.
  - intros [t Ht]. apply lookup_delete_Some in Ht as [Hne Ht].
    rewrite lookup_delete_ne by done. apply Hinv. by exists t.
  - intros Ht. destruct (decide (symbol = sym)) as [->|Hne].
    + rewrite lookup_insert_eq. by eexists.
    + rewrite lookup_insert_ne by done. by apply Hinv.
Qed.

Lemma execute_buy_keeps_stops_with_positions (ok : bool) (s : bot)
    (symbol : string) (price amount : Q) (strat : string) :
  stops_have_positions s ->
  stops_have_positions (snd (execute_buy ok s symbol price amount strat)).
Proof.
  intros Hinv. unfold execute_buy.
  destruct (negb (can_make_trade s amount)); [exact Hinv|].
  destruct (Qeq_bool price 0); [exact Hinv|].
  destruct (Qlt_bool (cash s) amount); [exact Hinv|].
  destruct (negb ok); [exact Hinv|].
  assert (Hset : forall p' (b : bool) sym,
    is_Some ((if b then <[symbol := price * (1 - TRAILING_STOP_PERCENT)]>
                          (trailing_stops s)
              else trailing_stops s) !! sym) ->
    is_Some (<[symbol := p']> (positions s) !! sym)).
  { intros p' b sym Ht. destruct (decide (symbol = sym)) as [->|Hne].
    - rewrite lookup_insert_eq. by eexists.
    - rewrite lookup_insert_ne by done. apply Hinv.
      destruct b; [by rewrite lookup_insert_ne in Ht|exact Ht]. }
  simpl. destruct (positions s !! symbol) as [p|]; simpl.
  - destruct (Qeq_bool _ 0); simpl; [exact Hinv|].
    destruct (String.eqb strat "breakout"); intros sym Ht; simpl in *;
      [apply (Hset _ true) | apply (Hset _ false)]; exact Ht.
  - destruct (String.eqb strat "breakout"); intros sym Ht; simpl in *;
      [apply (Hset _ true) | apply (Hset _ false)]; exact Ht.
Qed.

Lemma fold_keeps_stops_with_positions {A : Type} (f : bot -> A -> bot)
    (l : list A) :
  (forall s x, stops_have_positions s -> stops_have_positions (f s x)) ->
  forall s, stops_have_positions s -> stops_have_positions (fold_left f l s).
Proof.
  intros Hf. induction l as [|x l IH]; intros s Hs; simpl; [exact Hs|].
  apply IH, Hf, Hs.
Qed.

Lemma step_keeps_stops_with_positions (s : bot) (o : op) :
  stops_have_positions s -> stops_have_positions (step s o).
Proof.
  intros Hinv. destruct o; simpl.
  - by apply execute_buy_keeps_stops_with_positions.
  - by apply execute_sell_keeps_stops_with_positions.
  - apply fold_keeps_stops_with_positions; [|exact Hinv].
    intros s0 [symbol pos] H0. unfold stop_loss_step. simpl.
    destruct (feed symbol) as [price|]; [|exact H0].
    destruct (Qeq_bool price 0); [exact H0|].
    destruct (Qle_bool price _);
      [by apply execute_sell_keeps_stops_with_positions|].
    destruct (String.eqb _ _); [|exact H0].
    destruct (trailing_stops s0 !! symbol) as [stop|] eqn:Hstop; [|exact H0].
    destruct (Qle_bool price stop);
      [by apply execute_sell_keeps_stops_with_positions|].
    destruct (Qlt_bool _ price); [|exact H0].
    intros sym Ht. simpl in *. apply H0.
    destruct (decide (symbol = sym)) as [->|Hne]; [by eexists|].
    by rewrite lookup_insert_ne in Ht.
  - apply fold_keeps_stops_with_positions; [|exact Hinv].
    intros s0 [symbol pos] H0. unfold take_profit_step. simpl.
    destruct (feed symbol) as [price|]; [|exact H0].
    destruct (Qeq_bool price 0); [exact H0|].
    repeat match goal with
    | |- context [if ?b then _ else _] => destruct b
    end; try exact H0; by apply execute_sell_keeps_stops_with_positions.
  - apply fold_keeps_stops_with_positions; [|exact Hinv].
    intros s0 [symbol pos] H0. unfold market_close_step. simpl.
    destruct (feed symbol) as [price|]; [|exact H0].
    destruct (Qeq_bool price 0); [exact H0|].
    by apply execute_sell_keeps_stops_with_positions.
Qed.

(** X8.  The two dictionaries stay in step: in every ledger reached from a
    fresh bot by buys, sells, stop checks, take-profit checks and
    market-close liquidations -- whichever of them succeed or fail -- every
    symbol with a trailing stop has a position. *)
Theorem no_stop_without_position (ops : list op) :
  stops_have_positions (run ops init).
Proof.
  assert (H : forall s, stops_have_positions s ->
                        stops_have_positions (run ops s)).
  { induction ops as [|o ops IH]; intros s Hs; [exact Hs|].
    apply IH, step_keeps_stops_with_positions, Hs. }
  apply H. intros sym [t Ht]. simpl in Ht. by rewrite lookup_empty in Ht.
Qed.

(** ** The maintenance cycles, symbol by symbol *)

Lemma execute_sell_view_other (ok : bool) (s : bot) (symbol : string)
    (price sh : Q) (strat reason : string) (j : string) :
  j <> symbol ->
  view (snd (execute_sell ok s symbol price sh strat reason)) j = view s j.
Proof.
  intros Hne. unfold execute_sell, view.
  destruct ok; simpl; [|reflexivity].
  destruct (positions s !! symbol) as [p|]; simpl; [|reflexivity].
  destruct (Qle_bool (shares p) sh); simpl.
  - by rewrite !lookup_delete_ne.
  - by rewrite lookup_insert_ne.
Qed.

(** Selling all the shares of a held position. *)
Lemma sell_all_view (ok : bool) (s : bot) (k : string) (p : position)
    (price : Q) (strat reason : string) :
  positions s !! k = Some p ->
  view (snd (execute_sell ok s k price (shares p) strat reason)) k
    = if ok then (None, None) else view s k.
Proof.
  intros Hp. destruct ok; [|reflexivity].
  rewrite (execute_sell_held _ _ _ _ _ _ _ Hp). unfold view. simpl.
  assert (E : Qle_bool (shares p) (shares p) = true)
    by apply Qle_bool_iff, Qle_refl.
  rewrite E. by rewrite !lookup_delete_eq.
Qed.

Lemma stop_loss_step_local (feed : price_feed) (orders : order_feed)
    (s : bot) (item : string * position) (j : string) :
  j <> fst item -> view (stop_loss_step feed orders s item) j = view s j.
Proof.
  intros Hne. unfold stop_loss_step. destruct item as [symbol pos].
  simpl in *. destruct (feed symbol) as [price|]; [|reflexivity].
  destruct (Qeq_bool price 0); [reflexivity|].
  destruct (Qle_bool price _); [by apply execute_sell_view_other|].
  destruct (String.eqb _ _); [|reflexivity].
  destruct (trailing_stops s !! symbol) as [stop|]; [|reflexivity].
  destruct (Qle_bool price stop); [by apply execute_sell_view_other|].
  destruct (Qlt_bool _ price); [|reflexivity].
  unfold view. simpl. by rewrite lookup_insert_ne.
Qed.

Lemma take_profit_step_local (feed : price_feed) (orders : order_feed)
    (s : bot) (item : string * position) (j : string) :
  j <> fst item -> view (take_profit_step feed orders s item) j = view s j.
Proof.
  intros Hne. unfold take_profit_step. destruct item as [symbol pos].
  simpl in *. destruct (feed symbol) as [price|]; [|reflexivity].
  destruct (Qeq_bool price 0); [reflexivity|].
  repeat match goal with
  | |- context [if ?b then _ else _] => destruct b
  end; try reflexivity; by apply execute_sell_view_other.
Qed.

Lemma market_close_step_local (feed : price_feed) (orders : order_feed)
    (s : bot) (item : string * position) (j : string) :
  j <> fst item -> view (market_close_step feed orders s item) j = view s j.
Proof.
  intros Hne. unfold market_close_step. destruct item as [symbol pos].
  simpl in *. destruct (feed symbol) as [price|]; [|reflexivity].
  destruct (Qeq_bool price 0); [reflexivity|].
  by apply execute_sell_view_other.
Qed.

Section Cycle.

(** A loop body that only touches the symbol of the item it is given. *)
Variable f : bot -> string * position -> bot.
Hypothesis f_local :
  forall s item j, j <> fst item -> view (f s item) j = view s j.

Lemma fold_view_other (l : list (string * position)) :
  forall s j, ~ In j (map fst l) -> view (fold_left f l s) j = view s j.
Proof.
  induction l as [|x l IH]; intros s j Hj; simpl; [reflexivity|].
  simpl in Hj. rewrite IH by tauto. apply f_local. intros ->. tauto.
Qed.

Lemma fold_view_at (l : list (string * position)) :
  forall s k p,
    List.NoDup (map fst l) -> In (k, p) l ->
    exists s_k, view s_k k = view s k
                /\ view (fold_left f l s) k = view (f s_k (k, p)) k.
Proof.
  induction l as [|x l IH]; intros s k p Hnd Hin; [destruct Hin|].
  simpl in Hnd. apply List.NoDup_cons_iff in Hnd as [Hx Hnd].
  destruct Hin as [->|Hin]; simpl.
  - exists s. split; [reflexivity|]. by apply fold_view_other.
  - destruct (IH (f s x) k p Hnd Hin) as (s_k & Hv & Hf).
    exists s_k. split; [|exact Hf]. rewrite Hv. apply f_local.
    intros ->. apply Hx. by apply (in_map fst) in Hin.
Qed.

(** What a whole cycle does to one symbol is what its loop body does to
    it, started from a ledger that agrees on that symbol. *)
Lemma cycle_view (s : bot) (k : string) :
  match positions s !! k with
  | Some p =>
      exists s_k, view s_k k = view s k
        /\ view (fold_left f (map_to_list (positions s)) s) k
           = view (f s_k (k, p)) k
  | None => view (fold_left f (map_to_list (positions s)) s) k = view s k
  end.
Proof.
  destruct (positions s !! k) as [p|] eqn:Hp.
  - apply fold_view_at.
    + apply NoDup_ListNoDup, NoDup_fst_map_to_list.
    + apply list_elem_of_In, elem_of_map_to_list, Hp.
  - apply fold_view_other. intros Hin.
    apply in_map_iff in Hin as ([k' p'] & Hk & Hin). simpl in Hk. subst k'.
    apply list_elem_of_In, elem_of_map_to_list in Hin. congruence.
Qed.

End Cycle.

Lemma view_held (s s_k : bot) (k : string) (p : position) :
  positions s !! k = Some p -> view s_k k = view s k ->
  positions s_k !! k = Some p /\ trailing_stops s_k !! k = trailing_stops s !! k.
Proof.
  unfold view. intros Hp Hv. inversion Hv as [[H1 H2]]. by rewrite H1.
Qed.

(** X9.  Market-close liquidation: when every held symbol has a nonzero
    price and every order goes through, no position is left afterwards, and
    no trailing stop of a symbol that was held. *)
Theorem market_close_leaves_nothing (feed : price_feed) (orders : order_feed)
    (s : bot) :
  (forall k p, positions s !! k = Some p ->
     exists price, feed k = Some price /\ ~ price == 0 /\ orders k = true) ->
  positions (close_all_positions_at_market_close feed orders s) = ∅
  /\ forall k, is_Some (positions s !! k) ->
       trailing_stops (close_all_positions_at_market_close feed orders s) !! k
       = None.
Proof.
  intros Hall.
  assert (Hview : forall k, is_Some (positions s !! k) ->
            view (close_all_positions_at_market_close feed orders s) k
            = (None, None)).
  { intros k [p Hp].
    pose proof (cycle_view _ (market_close_step_local feed orders) s k) as H.
    rewrite Hp in H. destruct H as (s_k & Hv & Hc).
    unfold close_all_positions_at_market_close. rewrite Hc.
    destruct (view_held _ _ _ _ Hp Hv) as [Hp' _].
    destruct (Hall k p Hp) as (price & Hf & Hnz & Hok).
    unfold market_close_step. simpl. rewrite Hf.
    destruct (Qeq_bool price 0) eqn:E;
      [apply Qeq_bool_iff in E; contradiction|].
    rewrite (sell_all_view _ _ _ _ _ _ _ Hp'). by rewrite Hok. }
  split.
  - apply map_empty. intros k.
    destruct (positions s !! k) as [p|] eqn:Hp.
    + assert (H : is_Some (positions s !! k)) by (by rewrite Hp).
      apply Hview in H. by inversion H.
    + pose proof (cycle_view _ (market_close_step_local feed orders) s k) as H.
      rewrite Hp in H. unfold view in H. inversion H as [[H1 H2]].
      unfold close_all_positions_at_market_close. by rewrite H1.
  - intros k Hk. apply Hview in Hk. by inversion Hk.
Qed.

Lemma market_close_leaves_nothing_witness :
  positions (close_all_positions_at_market_close
               (fun _ => Some 120) (fun _ => true) held_aapl) = ∅.
Proof.
  apply (market_close_leaves_nothing (fun _ => Some 120) (fun _ => true)
           held_aapl).
  intros k p _. exists 120. by repeat split.
Defined.



(** X11.  The take-profit check, symbol by symbol.  A held symbol with a
    nonzero price is closed (position and stop gone) when the price has
    reached the take-profit target that belongs to its strategy tag -- the
    float product of the entry price and 1.5 for sentiment, 1.3 for
    breakout, 1.1 for mean_reversion -- and the order goes through;
    otherwise its position and stop are exactly as before the cycle.  A
    position with any other tag is never closed by this check.  The target
    is the product as the program rounds it: for an entry of 100 the
    mean_reversion target is above 110, for an entry of 10 it is 11. *)
Theorem take_profit_closes_at_the_multiple (feed : price_feed)
    (orders : order_feed) (s : bot) (k : string) (p : position) (price : Q) :
  positions s !! k = Some p -> feed k = Some price -> ~ price == 0 ->
  let reached :=
    (strategy p = "sentiment"
     /\ take_profit_target (entry_price p) (15 # 10) <= price)
    \/ (strategy p = "breakout"
        /\ take_profit_target (entry_price p) (13 # 10) <= price)
    \/ (strategy p = "mean_reversion"
        /\ take_profit_target (entry_price p) (11 # 10) <= price) in
  (reached -> orders k = true ->
     view (check_take_profits feed orders s) k = (None, None))
  /\ (~ reached \/ orders k = false ->
     view (check_take_profits feed orders s) k = view s k)
  /\ 110 < take_profit_target 100 (11 # 10)
  /\ take_profit_target 10 (11 # 10) == 11
  /\ take_profit_target 100 (13 # 10) == 130
  /\ take_profit_target 100 (15 # 10) == 150.
Proof.
  intros Hp Hf Hnz reached.
  pose proof (cycle_view _ (take_profit_step_local feed orders) s k) as H.
  rewrite Hp in H. destruct H as (s_k & Hv & Hcycle).
  destruct (view_held _ _ _ _ Hp Hv) as [Hp' Ht'].
  unfold check_take_profits. rewrite Hcycle. clear Hcycle.
  set (c1 := String.eqb (strategy p) "sentiment"
             && Qle_bool (take_profit_target (entry_price p) (15 # 10)) price).
  set (c2 := String.eqb (strategy p) "breakout"
             && Qle_bool (take_profit_target (entry_price p) (13 # 10)) price).
  set (c3 := String.eqb (strategy p) "mean_reversion"
             && Qle_bool (take_profit_target (entry_price p) (11 # 10)) price).
  assert (Hstep : view (take_profit_step feed orders s_k (k, p)) k
                  = if c1 || c2 || c3
                    then if orders k then (None, None) else view s k
                    else view s k).
  { unfold take_profit_step. cbn [fst snd]. rewrite Hf.
    destruct (Qeq_bool price 0) eqn:E;
      [apply Qeq_bool_iff in E; contradiction|].
    fold c1 c2 c3.
    destruct c1, c2, c3; cbn [andb orb];
      rewrite ?(sell_all_view _ _ _ _ _ _ _ Hp'), ?Hv; reflexivity. }
  rewrite Hstep. clear Hstep.
  assert (H1 : c1 = true <->
               strategy p = "sentiment"
               /\ take_profit_target (entry_price p) (15 # 10) <= price).
  { unfold c1. by rewrite andb_true_iff, String.eqb_eq, Qle_bool_iff. }
  assert (H2 : c2 = true <->
               strategy p = "breakout"
               /\ take_profit_target (entry_price p) (13 # 10) <= price).
  { unfold c2. by rewrite andb_true_iff, String.eqb_eq, Qle_bool_iff. }
  assert (H3 : c3 = true <->
               strategy p = "mean_reversion"
               /\ take_profit_target (entry_price p) (11 # 10) <= price).
  { unfold c3. by rewrite andb_true_iff, String.eqb_eq, Qle_bool_iff. }
  split; [|split].
  - intros Hr Hok. rewrite Hok.
    assert (E : c1 || c2 || c3 = true).
    { unfold reached in Hr. rewrite !orb_true_iff. tauto. }
    by rewrite E.
  - intros Hno. destruct (orders k); [|by destruct (c1 || c2 || c3)].
    destruct Hno as [Hno|Hno]; [|discriminate].
    assert (E : c1 || c2 || c3 = false).
    { destruct (c1 || c2 || c3) eqn:E; [|reflexivity].
      exfalso. apply Hno. rewrite !orb_true_iff in E. unfold reached. tauto. }
    by rewrite E.
  - repeat split; vm_compute; reflexivity.
Qed.

Lemma take_profit_closes_at_the_multiple_witness :
  let held entry :=
    mkBot 0 {[ "AAPL" := mkPosition 10 entry "mean_reversion" ]} 0 1000 ∅ [] in
  view (check_take_profits (fun _ => Some 110) (fun _ => true) (held 100))
       "AAPL"
    = view (held 100) "AAPL"
  /\ view (check_take_profits (fun _ => Some 11) (fun _ => true) (held 10))
          "AAPL"
     = (None, None).
Proof.
  intros held. split.
  - apply (take_profit_closes_at_the_multiple (fun _ => Some 110)
             (fun _ => true) (held 100) "AAPL"
             (mkPosition 10 100 "mean_reversion") 110).
    + reflexivity.
    + reflexivity.
    + discriminate.
    + left. intros [[H _] | [[H _] | [_ H]]]; [discriminate..|].
      vm_compute in H. by apply H.
  - apply (take_profit_closes_at_the_multiple (fun _ => Some 11)
             (fun _ => true) (held 10) "AAPL"
             (mkPosition 10 10 "mean_reversion") 11).
    + reflexivity.
    + reflexivity.
    + discriminate.
    + right; right. split; [reflexivity|]. vm_compute. discriminate.
    + reflexivity.
Defined.

(** X12.  A symbol whose price is absent (or zero) is skipped: none of the
    three maintenance cycles changes its position or its trailing stop,
    whatever happens to the other symbols in the same cycle. *)
Theorem absent_price_skips_the_symbol (feed : price_feed)
    (orders : order_feed) (s : bot) (k : string) :
  feed k = None \/ (exists price, feed k = Some price /\ price == 0) ->
  view (check_stop_losses feed orders s) k = view s k
  /\ view (check_take_profits feed orders s) k = view s k
  /\ view (close_all_positions_at_market_close feed orders s) k = view s k.
Proof.
  intros Habs.
  assert (Hskip : forall price, feed k = Some price -> Qeq_bool price 0 = true).
  { intros price Hf. destruct Habs as [Hn|(price' & Hf' & Hz)]; [congruence|].
    rewrite Hf in Hf'. inversion Hf'; subst. by apply Qeq_bool_iff. }
  pose proof (cycle_view _ (stop_loss_step_local feed orders) s k) as H1.
  pose proof (cycle_view _ (take_profit_step_local feed orders) s k) as H2.
  pose proof (cycle_view _ (market_close_step_local feed orders) s k) as H3.
  unfold check_stop_losses, check_take_profits,
    close_all_positions_at_market_close.
  destruct (positions s !! k) as [p|]; [|by repeat split].
  destruct H1 as (s1 & Hv1 & ->). destruct H2 as (s2 & Hv2 & ->).
  destruct H3 as (s3 & Hv3 & ->).
  unfold stop_loss_step, take_profit_step, market_close_step. simpl.
  destruct (feed k) as [price|]; [|by repeat split].
  by rewrite (Hskip price eq_refl).
Qed.

Lemma absent_price_skips_the_symbol_witness :
  view (close_all_positions_at_market_close (fun _ => None) (fun _ => true)
          held_aapl) "AAPL"
    = view held_aapl "AAPL".
Proof.
  apply (absent_price_skips_the_symbol (fun _ => None) (fun _ => true)
           held_aapl "AAPL").
  by left.
Defined.

End LedgerFacts.

(** * Running a frame program one statement at a time *)

Section RunSteps.
Import Pandas Breakout MeanReversion Spec.
Local Open Scope Q_scope.

(** Running one statement of a body, then the rest. *)
Lemma run_len {A : Type} (k : nat -> M A) (df : frame) :
  (n <- len ;; k n) df = k (length (bars df)) df.
Proof. reflexivity. Qed.

Lemma run_base {A : Type} (field : bar -> Q) (k : list Q -> M A) (df : frame) :
  (c <- base field ;; k c) df = k (map field (bars df)) df.
Proof. reflexivity. Qed.

Lemma run_setcol {A : Type} (name : string) (c : column) (k : M A)
    (df : frame) :
  (setcol name c ;;; k) df = k (mkFrame (bars df) (<[name := c]> (cols df))).
Proof. reflexivity. Qed.

Lemma run_getnum {A : Type} (name : string) (l : list fl) (k : list fl -> M A)
    (df : frame) :
  cols df !! name = Some (NumCol l) ->
  (x <- getnum name ;; k x) df = k l df.
Proof. intros H. unfold bind, getnum. by rewrite H. Qed.

Lemma run_has_col {A : Type} (name : string) (k : bool -> M A) (df : frame) :
  (p <- has_col name ;; k p) df
  = k (bool_decide (is_Some (cols df !! name))) df.
Proof. reflexivity. Qed.

Lemma run_units {A : Type} (m1 m2 : M unit) (k : M A) (df F : frame) :
  (m1 ;;; m2 ;;; ret tt) df = (Returned tt, F) ->
  (m1 ;;; m2 ;;; k) df = k F.
Proof.
  unfold bind, ret. destruct (m1 df) as [[[]|e] df1]; [|discriminate].
  destruct (m2 df1) as [[[]|e] df2]; [|discriminate]. congruence.
Qed.

Lemma run_bar_from_end {A : Type} (cur : bar) (k : bar -> M A) (df : frame) :
  last (bars df) = Some cur ->
  (latest <- bar_from_end 1 ;; k latest) df = k cur df.
Proof. intros H. unfold bind. by rewrite (bar_from_end_1 df cur H). Qed.

Lemma run_cell_from_end {A : Type} (name : string) (l : list fl) (x : fl)
    (k : pyval -> M A) (df : frame) :
  cols df !! name = Some (NumCol l) -> from_end 1 l = Some x ->
  (v <- cell_from_end name 1 ;; k v) df = k (PyNum x) df.
Proof.
  intros Hc Hl. unfold bind. by rewrite (cell_from_end_num name l x df Hc Hl).
Qed.

Lemma run_latest_rsi {A : Type} (l : list fl) (x : fl) (k : pyval -> M A)
    (df : frame) :
  cols df !! "rsi" = Some (NumCol l) -> from_end 1 l = Some x ->
  (v <- latest_rsi ;; k v) df = k (PyNum x) df.
Proof.
  intros Hc Hl. unfold latest_rsi, bind at 1. rewrite run_has_col, Hc.
  rewrite bool_decide_eq_true_2 by by eexists.
  by rewrite (cell_from_end_num "rsi" l x df Hc Hl).
Qed.

Lemma map2_lookup {A B C : Type} (f : A -> B -> C) (l1 : list A)
    (l2 : list B) (i : nat) (x : A) (y : B) :
  l1 !! i = Some x -> l2 !! i = Some y ->
  map2 f l1 l2 !! i = Some (f x y).
Proof.
  unfold map2. revert l2 i.
  induction l1 as [|a l1 IH]; intros [|b l2] [|i] H1 H2; try done.
  - simpl in *. congruence.
  - simpl in *. by apply IH.
Qed.

Lemma map2_length {A B C : Type} (f : A -> B -> C) (l1 : list A)
    (l2 : list B) :
  length l1 = length l2 -> length (map2 f l1 l2) = length l1.
Proof.
  intros H. unfold map2. rewrite length_map, length_combine. lia.
Qed.

Lemma from_end_map2 {A B C : Type} (f : A -> B -> C) (l1 : list A)
    (l2 : list B) (x : A) (y : B) :
  length l1 = length l2 ->
  from_end 1 l1 = Some x -> from_end 1 l2 = Some y ->
  from_end 1 (map2 f l1 l2) = Some (f x y).
Proof.
  unfold from_end. intros Hlen. rewrite map2_length by done. rewrite <- Hlen.
  destruct (1 <=? length l1)%nat; [|done]. apply map2_lookup.
Qed.

Lemma from_end_map {A B : Type} (g : A -> B) (l : list A) (x : A) :
  from_end 1 l = Some x -> from_end 1 (map g l) = Some (g x).
Proof.
  unfold from_end. rewrite length_map.
  destruct (1 <=? length l)%nat; [|done]. intros H.
  change (map g l) with (g <$> l). by rewrite list_lookup_fmap, H.
Qed.

End RunSteps.

Ltac lookup_col :=
  cbn [Pandas.cols Pandas.bars];
  repeat (rewrite lookup_insert_ne by done);
  first [apply lookup_insert_eq | eassumption].

Ltac run_step :=
  first
    [ rewrite run_len
    | rewrite run_base
    | rewrite run_setcol
    | erewrite run_getnum by lookup_col
    | rewrite run_has_col ].

(** * More about the levels *)

Section MoreLevelFacts.
Import Pandas Breakout Spec.
Local Open Scope Q_scope.


Lemma of_nat_pos (n : nat) : (0 < n)%nat -> 0 < of_nat n.
Proof.
  intros H. unfold of_nat. change 0 with (inject_Z 0).
  rewrite <- Zlt_Qlt. lia.
Qed.








Lemma ascending_app (l1 l2 : list Q) :
  StronglySorted Qle (l1 ++ l2)%list ->
  StronglySorted Qle l2
  /\ Forall (fun x => Forall (fun y => x <= y) l2) l1.
Proof.
  induction l1 as [|x l1 IH]; simpl; intros H; [by split|].
  apply StronglySorted_inv in H as [H1 H2].
  destruct (IH H1) as [H3 H4]. split; [exact H3|].
  constructor; [|exact H4]. by apply Forall_app in H2 as [_ ?].
Qed.





(** Once a zero is the member added last and a level is still to come, or
    a zero waits among the levels to come with another level after it, the
    loop ends in the division by zero. *)
Lemma group_loop_zero (threshold : Q) (rest : list Q) :
  forall grouped current,
    (List.last current 0 == 0 /\ rest <> [])
    \/ (exists r1 z r2, rest = (r1 ++ z :: r2)%list /\ z == 0 /\ r2 <> []) ->
    group_loop threshold rest grouped current = Raised ZeroDivisionError.
Proof.
  induction rest as [|x rest IH]; intros grouped current H; simpl.
  - destruct H as [[_ H] | (r1 & z & r2 & H & _)]; [done|].
    by destruct r1.
  - destruct (Qeq_bool (List.last current 0) 0) eqn:E; [reflexivity|].
    destruct H as [[H _] | (r1 & z & r2 & H & Hz & Hr2)].
    { apply Qeq_bool_iff in H. congruence. }
    assert (Hnext : forall current',
              List.last current' 0 = x ->
              (List.last current' 0 == 0 /\ rest <> [])
              \/ (exists r1 z r2,
                    rest = (r1 ++ z :: r2)%list /\ z == 0 /\ r2 <> [])).
    { intros current' Hl. destruct r1 as [|x' r1]; simpl in H.
      - left. injection H as -> ->. by rewrite Hl.
      - right. injection H as -> ->. by exists r1, z, r2. }
    destruct (Qle_bool _ threshold); apply IH, Hnext.
    + apply last_last.
    + reflexivity.
Qed.

(** X14.  On Python floats a zero level with a positive level beside it
    makes [group_similar_levels] raise [ZeroDivisionError]: after sorting,
    the zero becomes the member added last while a larger level is still to
    come, and the relative distance divides by it. *)
Theorem zero_level_raises (levels : list Q) (threshold z y : Q) :
  In z levels -> z == 0 -> In y levels -> 0 < y ->
  group_similar_levels levels threshold = Raised ZeroDivisionError.
Proof.
  intros Hz Hz0 Hy Hy0. unfold group_similar_levels.
  pose proof (sorted_perm levels) as Hp.
  pose proof (sorted_sorted levels) as Hs.
  assert (Hz' : In z (sorted levels)).
  { eapply Permutation_in; eassumption. }
  assert (Hy' : In y (sorted levels)).
  { eapply Permutation_in; eassumption. }
  apply in_split in Hz' as (l1 & l2 & E). rewrite E in Hs, Hy' |- *.
  apply ascending_app in Hs as [_ Hl1].
  assert (Hl2 : l2 <> []).
  { apply in_app_or in Hy' as [Hy' | [Hy' | Hy']].
    - rewrite Forall_forall in Hl1.
      apply list_elem_of_In, Hl1, Forall_inv in Hy'. lra.
    - subst y. lra.
    - by destruct l2. }
  destruct l1 as [|first l1]; simpl; apply group_loop_zero.
  - left. by split.
  - right. by exists l1, z, l2.
Qed.

Lemma zero_level_raises_witness :
  group_similar_levels [100; 0] (1 # 100) = Raised ZeroDivisionError.
Proof.
  apply (zero_level_raises [100; 0] (1 # 100) 0 100).
  - simpl. right. by left.
  - reflexivity.
  - simpl. by left.
  - reflexivity.
Defined.





(** X16.  With positive levels [is_price_near_level] returns, and returns
    [True] exactly when the
    price lies in the band from [level * (1 - threshold)] to
    [level * (1 + threshold)] around one of the levels. *)
Theorem near_level_is_a_band (price threshold : Q) (levels : list Q) :
  Forall (fun level => 0 < level) levels ->
  exists near,
    is_price_near_level price levels threshold = Returned near
    /\ (near = true <->
        exists level, In level levels
          /\ level * (1 - threshold) <= price
          /\ price <= level * (1 + threshold)).
Proof.
  induction 1 as [|level levels Hl _ (near & IH & Hn)];
    cbn [is_price_near_level].
  - exists false. split; [reflexivity|]. split; [done|].
    by intros (? & [] & _).
  - destruct (Qeq_bool level 0) eqn:E0.
    { apply Qeq_bool_iff in E0. lra. }
    assert (Hband : Qabs (price - level) / level <= threshold
              <-> level * (1 - threshold) <= price
                  /\ price <= level * (1 + threshold)).
    { split.
      - intros H.
        assert (Ha : Qabs (price - level) <= threshold * level).
        { assert (Hd : Qabs (price - level)
                       == Qabs (price - level) / level * level)
            by (field; lra).
          rewrite Hd. apply Qmult_le_compat_r; [exact H | lra]. }
        apply Qabs_Qle_condition in Ha. lra.
      - intros [H1 H2]. apply Qle_shift_div_r; [exact Hl|].
        apply Qabs_Qle_condition. lra. }
    destruct (Qle_bool _ threshold) eqn:E.
    + exists true. split; [reflexivity|]. split; [|done]. intros _.
      exists level. split; [by left|]. by apply Hband, Qle_bool_iff.
    + exists near. split; [exact IH|]. rewrite Hn. split.
      * intros (l & Hin & Hb). exists l. split; [by right | exact Hb].
      * intros (l & [<- | Hin] & Hb).
        -- apply (proj2 Hband), (proj2 (Qle_bool_iff _ _)) in Hb.
           congruence.
        -- by exists l.
Qed.

Lemma near_level_is_a_band_witness :
  exists near,
    is_price_near_level 101 [50; 100] (2 # 100) = Returned near
    /\ (near = true <->
        exists level, In level [50; 100]
          /\ level * (1 - (2 # 100)) <= 101
          /\ 101 <= level * (1 + (2 # 100))).
Proof.
  apply (near_level_is_a_band 101 (2 # 100) [50; 100]).
  repeat constructor.
Defined.

Lemma Qabs_zero (x : Q) : Qabs x == 0 -> x == 0.
Proof.
  intros H. assert (H' : Qabs x <= 0) by lra.
  apply Qabs_Qle_condition in H'. lra.
Qed.

(** X17.  [calculate_risk_to_reward] is never negative, and it is zero
    exactly when the entry equals the stop or the target equals the entry;
    otherwise it is the distance to the target over the distance to the
    stop, whichever side of the entry they lie on. *)
Theorem risk_to_reward_sign (entry stop_loss target : Q) :
  0 <= calculate_risk_to_reward entry stop_loss target
  /\ (calculate_risk_to_reward entry stop_loss target == 0
      <-> entry == stop_loss \/ target == entry)
  /\ (~ entry == stop_loss ->
      calculate_risk_to_reward entry stop_loss target
        * Qabs (entry - stop_loss) == Qabs (target - entry)).
Proof.
  unfold calculate_risk_to_reward.
  destruct (Qeq_bool entry stop_loss) eqn:E.
  { apply Qeq_bool_iff in E. split; [lra|]. split; [|done].
    split; [by left | reflexivity]. }
  apply Qeq_bool_neq in E.
  assert (Hrisk : 0 < Qabs (entry - stop_loss)).
  { pose proof (Qabs_nonneg (entry - stop_loss)) as H.
    apply Qle_lteq in H as [H | H]; [exact H|].
    exfalso. apply E. symmetry in H. apply Qabs_zero in H. lra. }
  pose proof (Qabs_nonneg (target - entry)) as Hreward.
  apply Qlt_bool_iff in Hrisk as Hb. rewrite Hb.
  assert (Hmul : Qabs (target - entry) / Qabs (entry - stop_loss)
                 * Qabs (entry - stop_loss) == Qabs (target - entry)).
  { field. lra. }
  split; [|split].
  - apply Qle_shift_div_l; [exact Hrisk | lra].
  - split.
    + intros H. right. rewrite H in Hmul.
      assert (H0 : Qabs (target - entry) == 0) by lra.
      apply Qabs_zero in H0. lra.
    + intros [H | H]; [contradiction|].
      assert (H0 : Qabs (target - entry) == 0).
      { rewrite H. unfold Qminus. rewrite Qplus_opp_r. reflexivity. }
      rewrite H0. field. lra.
  - intros _. exact Hmul.
Qed.

End MoreLevelFacts.

(** * More about the detectors *)

Section MoreDetectorFacts.
Import Pandas Breakout Spec.
Local Open Scope Q_scope.

Lemma prior_window_map {A B : Type} (f : A -> B) (period : nat) (l : list A) :
  prior_window period (map f l) = map f (prior_window period l).
Proof.
  unfold prior_window. by rewrite length_map, skipn_map, firstn_map.
Qed.

Lemma prior_window_in {A : Type} (period : nat) (l : list A) (x : A) :
  In x (prior_window period l) -> In x l.
Proof.
  unfold prior_window. intros H.
  rewrite <- (firstn_skipn (length l - 1 - period) l).
  apply in_or_app. right.
  rewrite <- (firstn_skipn period (skipn (length l - 1 - period) l)).
  apply in_or_app. by left.
Qed.

(** The lowest low of a window of well-formed bars is not above its highest
    high. *)
Lemma prior_low_below_prior_high (period : nat) (rows : list bar)
    (prior_high prior_low : Q) :
  Forall (fun r => low r <= high r) rows ->
  is_max prior_high (prior_window period (map high rows)) ->
  is_min prior_low (prior_window period (map low rows)) ->
  prior_low <= prior_high.
Proof.
  intros Hwf [Hin Hmax] [_ Hmin].
  rewrite prior_window_map in Hin, Hmax. rewrite prior_window_map in Hmin.
  apply in_map_iff in Hin as (r & _ & Hr).
  assert (H1 : high r <= prior_high) by (apply Hmax; by apply in_map).
  assert (H2 : prior_low <= low r) by (apply Hmin; by apply in_map).
  assert (H3 : low r <= high r).
  { rewrite Forall_forall in Hwf. apply Hwf, list_elem_of_In.
    eapply prior_window_in, Hr. }
  lra.
Qed.

(** X18.  On bars whose low is never above their high, the two detectors
    never both fire: the close cannot be above the highest high and below
    the lowest low of the same earlier bars.  This holds whether the
    breakdown detector looks at the frame as it was or at the frame the
    breakout detector has written its column into. *)
Theorem breakout_excludes_breakdown (period : nat) (df df' : frame) :
  (0 < period)%nat ->
  Forall (fun r => low r <= high r) (bars df) ->
  bars df' = bars df ->
  ~ (fst (detect_breakouts period df) = Returned true
     /\ fst (detect_breakdown period df') = Returned true).
Proof.
  intros Hp Hwf Hb [Hup Hdown].
  destruct (Nat.lt_ge_cases (length (bars df)) (period + 5)) as [Hs | Hl].
  { destruct (detectors_short period df Hs) as [H _]. congruence. }
  destruct (last (bars df)) as [cur|] eqn:Hcur.
  2:{ apply last_None in Hcur. rewrite Hcur in Hl. simpl in Hl. lia. }
  destruct (detect_breakouts_full period df cur Hp Hl Hcur)
    as (ph & Hph & Eup).
  destruct (detect_breakdown_full period df' cur Hp)
    as (pl & Hpl & Edown); [by rewrite Hb | by rewrite Hb|].
  rewrite Hb in Hpl.
  pose proof (prior_low_below_prior_high _ _ _ _ Hwf Hph Hpl) as Hle.
  rewrite Eup in Hup. rewrite Edown in Hdown.
  injection Hup as Hup. injection Hdown as Hdown.
  apply andb_true_iff in Hup as [Hup _]. apply andb_true_iff in Hup as [_ Hup].
  apply andb_true_iff in Hdown as [Hdown _].
  apply andb_true_iff in Hdown as [_ Hdown].
  apply Qlt_bool_iff in Hup. apply Qlt_bool_iff in Hdown. lra.
Qed.

Lemma breakout_excludes_breakdown_witness :
  ~ (fst (detect_breakouts 20 breakout_bars) = Returned true
     /\ fst (detect_breakdown 20 (snd (detect_breakouts 20 breakout_bars)))
        = Returned true).
Proof.
  apply (breakout_excludes_breakdown 20 breakout_bars
           (snd (detect_breakouts 20 breakout_bars))).
  - lia.
  - simpl. repeat (constructor; [discriminate|]). constructor.
  - apply writes_only_detect_breakouts.
Defined.


Lemma from_end_1_some {A : Type} (l : list A) :
  (0 < length l)%nat -> exists x, from_end 1 l = Some x.
Proof.
  intros H. rewrite from_end_1. destruct (last l) eqn:E; [by eexists|].
  apply last_None in E. subst l. simpl in H. lia.
Qed.

Lemma shift1_length (l : list fl) : length (shift1 l) = length l.
Proof.
  destruct l as [|x l]; [reflexivity|]. unfold shift1.
  cbn [length]. rewrite removelast_firstn_len, length_firstn. simpl. lia.
Qed.

(** The average volume is a function of the bars. *)
Lemma calculate_average_volume_run (period : nat) (rows : list bar) :
  exists avg, forall df,
    bars df = rows -> calculate_average_volume period df = (Returned avg, df).
Proof.
  destruct (from_end 1 (rolling mean_agg period (map volume rows)))
    as [x|] eqn:E.
  - exists x. intros df <-.
    unfold calculate_average_volume, try_except, bind, base, iloc_last.
    by rewrite E.
  - exists (series_mean (map volume rows)). intros df <-.
    unfold calculate_average_volume, try_except, bind, base, iloc_last.
    by rewrite E.
Qed.

(** On a frame long enough a detector returns a verdict that the bars
    alone decide, and writes its one column. *)
Lemma detect_breakouts_run (period : nat) (rows : list bar) :
  (period + 5 <= length rows)%nat ->
  exists verdict, forall df,
    bars df = rows ->
    detect_breakouts period df
      = (Returned verdict,
         mkFrame rows
           (<["n_period_high" :=
                NumCol (shift1 (rolling max_agg period (map high rows)))]>
              (cols df))).
Proof.
  intros Hlen.
  destruct (calculate_average_volume_run period rows) as (avg & Havg).
  destruct (from_end_1_some rows) as (cur & Hcur); [lia|].
  destruct (from_end_1_some
              (shift1 (rolling max_agg period (map high rows))))
    as (prev & Hprev).
  { rewrite shift1_length, rolling_length, length_map. lia. }
  eexists. intros df <-.
  unfold detect_breakouts, try_except, bind at 1, len.
  destruct (Nat.ltb_spec (length (bars df)) (period + 5)); [lia|].
  unfold bind at 1, base. unfold bind at 1, setcol.
  unfold bind at 1. rewrite Havg by reflexivity.
  unfold bind at 1, bar_from_end. cbn [bars]. rewrite Hcur.
  unfold bind at 1.
  erewrite cell_from_end_num;
    [|simpl; apply lookup_insert_eq|exact Hprev].
  unfold bind, as_num, ret. reflexivity.
Qed.

Lemma detect_breakdown_run (period : nat) (rows : list bar) :
  (period + 5 <= length rows)%nat ->
  exists verdict, forall df,
    bars df = rows ->
    detect_breakdown period df
      = (Returned verdict,
         mkFrame rows
           (<["n_period_low" :=
                NumCol (shift1 (rolling min_agg period (map low rows)))]>
              (cols df))).
Proof.
  intros Hlen.
  destruct (calculate_average_volume_run period rows) as (avg & Havg).
  destruct (from_end_1_some rows) as (cur & Hcur); [lia|].
  destruct (from_end_1_some
              (shift1 (rolling min_agg period (map low rows))))
    as (prev & Hprev).
  { rewrite shift1_length, rolling_length, length_map. lia. }
  eexists. intros df <-.
  unfold detect_breakdown, try_except, bind at 1, len.
  destruct (Nat.ltb_spec (length (bars df)) (period + 5)); [lia|].
  unfold bind at 1, base. unfold bind at 1, setcol.
  unfold bind at 1. rewrite Havg by reflexivity.
  unfold bind at 1, bar_from_end. cbn [bars]. rewrite Hcur.
  unfold bind at 1.
  erewrite cell_from_end_num;
    [|simpl; apply lookup_insert_eq|exact Hprev].
  unfold bind, as_num, ret. reflexivity.
Qed.

Lemma detectors_short_run (period : nat) (df : frame) :
  (length (bars df) < period + 5)%nat ->
  detect_breakouts period df = (Returned false, df)
  /\ detect_breakdown period df = (Returned false, df).
Proof.
  intros Hshort.
  unfold detect_breakouts, detect_breakdown, try_except, bind, len.
  destruct (Nat.ltb_spec (length (bars df)) (period + 5)); [|lia].
  by split.
Qed.

(** X19.  Each detector always returns a verdict, the bars alone decide
    it -- whatever derived columns the frame carries, a stale column of the
    detector's own included -- and running the detector again on the frame
    it has left gives the same verdict and the same frame. *)
Theorem detectors_depend_on_bars_only (period : nat) (df : frame) :
  (exists up, fst (detect_breakouts period df) = Returned up
     /\ (forall df', bars df' = bars df ->
           fst (detect_breakouts period df') = Returned up)
     /\ detect_breakouts period (snd (detect_breakouts period df))
        = (Returned up, snd (detect_breakouts period df)))
  /\ (exists down, fst (detect_breakdown period df) = Returned down
     /\ (forall df', bars df' = bars df ->
           fst (detect_breakdown period df') = Returned down)
     /\ detect_breakdown period (snd (detect_breakdown period df))
        = (Returned down, snd (detect_breakdown period df))).
Proof.
  destruct (Nat.lt_ge_cases (length (bars df)) (period + 5)) as [Hs | Hl].
  - destruct (detectors_short_run period df Hs) as [Hup Hdown].
    split; exists false.
    + rewrite Hup. split; [reflexivity|]. split; [|exact Hup].
      intros df' Hb. rewrite <- Hb in Hs.
      by destruct (detectors_short_run period df' Hs) as [-> _].
    + rewrite Hdown. split; [reflexivity|]. split; [|exact Hdown].
      intros df' Hb. rewrite <- Hb in Hs.
      by destruct (detectors_short_run period df' Hs) as [_ ->].
  - split.
    + destruct (detect_breakouts_run period (bars df) Hl) as (up & Hup).
      exists up. rewrite (Hup df eq_refl). cbn [fst snd].
      split; [reflexivity|]. split.
      * intros df' Hb. by rewrite (Hup df' Hb).
      * rewrite (Hup (mkFrame _ _) eq_refl). cbn [cols].
        by rewrite insert_insert_eq.
    + destruct (detect_breakdown_run period (bars df) Hl) as (down & Hdown).
      exists down. rewrite (Hdown df eq_refl). cbn [fst snd].
      split; [reflexivity|]. split.
      * intros df' Hb. by rewrite (Hdown df' Hb).
      * rewrite (Hdown (mkFrame _ _) eq_refl). cbn [cols].
        by rewrite insert_insert_eq.
Qed.

End MoreDetectorFacts.

(** * More about the breakout quality *)

Section MoreScorerFacts.
Import Pandas Breakout MeanReversion Spec.
Local Open Scope Z_scope.

(** The points added before the first raise, bounded block by block on the
    frame at hand. *)
Lemma points_before_raise_range (df : frame) (maxima : list Z)
    (factors : list (M Z)) :
  Forall2 (fun b f => 0 <= b
                      /\ forall p, fst (f df) = Returned p -> 0 <= p <= b)
    maxima factors ->
  0 <= points_before_raise factors df <= Zsum maxima.
Proof.
  induction 1 as [|b f maxima factors [Hb Hf] _ IH]; simpl; [lia|].
  destruct (fst (f df)) as [p|e]; [|lia].
  specialize (Hf p eq_refl). lia.
Qed.

Lemma bounded_at (b : Z) (f : M Z) (df : frame) :
  0 <= b -> bounded_by b f ->
  0 <= b /\ forall p, fst (f df) = Returned p -> 0 <= p <= b.
Proof.
  intros Hb Hf. split; [exact Hb|]. intros p Hp.
  destruct (f df) as [o df'] eqn:E. simpl in Hp. subst o.
  eapply Hf, E.
Qed.

(** X20.  On a frame without the column "n_period_high" -- one that
    [detect_breakouts] has not been run on -- [analyze_breakout_quality]
    returns at most 90, whatever [rsi] and [volatility] are: the last ten
    points come from the retest block, which reads that column. *)
Theorem quality_needs_the_detector_column (rsi volatility : pyval)
    (df : frame) :
  cols df !! "n_period_high" = None ->
  exists z,
    analyze_breakout_quality rsi volatility df = (Returned z, df)
    /\ 0 <= z <= 90.
Proof.
  intros Hc. unfold analyze_breakout_quality, bind.
  rewrite (add_until_raise_prefix _
             (reads_only_breakout_factors rsi volatility)).
  eexists. split; [reflexivity|].
  pose proof (breakout_factors_bounded rsi volatility) as Hb.
  unfold breakout_factors, breakout_maxima in *.
  apply Forall2_cons in Hb as [H1 Hb]. apply Forall2_cons in Hb as [H2 Hb].
  apply Forall2_cons in Hb as [H3 Hb]. apply Forall2_cons in Hb as [H4 _].
  assert (Hlast : 0 <= 0
            /\ forall p, fst (retest_points df) = Returned p -> 0 <= p <= 0).
  { split; [lia|]. intros p. unfold retest_points.
    rewrite run_has_col, Hc.
    rewrite bool_decide_eq_false_2 by (intros [? ?]; discriminate).
    intros E. injection E as <-. lia. }
  apply (bounded_at 25 _ df ltac:(lia)) in H1.
  apply (bounded_at 25 _ df ltac:(lia)) in H2.
  apply (bounded_at 25 _ df ltac:(lia)) in H3.
  apply (bounded_at 15 _ df ltac:(lia)) in H4.
  assert (Hr : 0 <= points_before_raise
                     [Breakout.rsi_points rsi; Breakout.volume_points;
                      candle_points; volatility_points volatility;
                      retest_points] df
               <= Zsum [25; 25; 25; 15; 0]).
  { apply points_before_raise_range.
    repeat (constructor; [assumption|]). constructor. }
  simpl Zsum in Hr. lia.
Qed.

Lemma quality_needs_the_detector_column_witness :
  exists z,
    analyze_breakout_quality (PyNum (Fin 70)) (PyNum (Fin 1)) breakout_bars
      = (Returned z, breakout_bars)
    /\ 0 <= z <= 90.
Proof.
  apply (quality_needs_the_detector_column (PyNum (Fin 70)) (PyNum (Fin 1))
           breakout_bars).
  reflexivity.
Defined.

End MoreScorerFacts.

(** * More about the mean-reversion signals *)

Section MoreReversionFacts.
Import Pandas Breakout MeanReversion Spec.
Local Open Scope Q_scope.

Section Runs.
Variable np_sqrt : Q -> Q.
Variable ta_rsi : list Q -> nat -> ta_result.

(** The four columns [calculate_bollinger_bands] writes; it never raises. *)
Lemma bollinger_run (window : nat) (num_std : Q) (df : frame) :
  calculate_bollinger_bands np_sqrt window num_std df
  = (Returned tt,
     let c := map close (bars df) in
     let m := rolling mean_agg window c in
     let sd := rolling (std_agg np_sqrt) window c in
     mkFrame (bars df)
       (<["lower_band" :=
            NumCol (map2 fl_sub m (map (fun x => fl_mul x (Fin num_std)) sd))]>
          (<["upper_band" :=
               NumCol (map2 fl_add m
                         (map (fun x => fl_mul x (Fin num_std)) sd))]>
             (<["std" := NumCol sd]>
                (<["middle_band" := NumCol m]> (cols df)))))).
Proof.
  unfold calculate_bollinger_bands, try_except.
  repeat run_step. reflexivity.
Qed.


(** What [calculate_mean_reversion_metrics] leaves in the column "rsi",
    once the band columns are there. *)
Lemma metrics_rsi (df : frame) (m sd : list fl) :
  cols df !! "middle_band" = Some (NumCol m) ->
  cols df !! "std" = Some (NumCol sd) ->
  cols (snd (calculate_mean_reversion_metrics ta_rsi df)) !! "rsi"
  = match ta_rsi (map close (bars df)) 14 with
    | TaRaises _ => cols df !! "rsi"
    | TaNone => Some NoneCol
    | TaSeries l => Some (NumCol l)
    end.
Proof.
  intros Hm Hsd.
  unfold calculate_mean_reversion_metrics, try_except.
  repeat run_step. unfold bind, call_ta_rsi. cbn [bars].
  destruct (ta_rsi (map close (bars df)) 14) as [e| |l]; cbn.
  - by repeat (rewrite lookup_insert_ne by done).
  - apply lookup_insert_eq.
  - apply lookup_insert_eq.
Qed.

(** The frame both signal detectors look at. *)
Lemma prelude_frame (window : nat) (num_std : Q) (df : frame) :
  exists F,
    (calculate_bollinger_bands np_sqrt window num_std ;;;
     calculate_mean_reversion_metrics ta_rsi ;;; ret tt) df = (Returned tt, F)
    /\ bars F = bars df
    /\ (let c := map close (bars df) in
        let m := rolling mean_agg window c in
        let sd := rolling (std_agg np_sqrt) window c in
        cols F !! "middle_band" = Some (NumCol m)
        /\ cols F !! "lower_band"
           = Some (NumCol (map2 fl_sub m
                             (map (fun x => fl_mul x (Fin num_std)) sd)))
        /\ cols F !! "upper_band"
           = Some (NumCol (map2 fl_add m
                             (map (fun x => fl_mul x (Fin num_std)) sd))))
    /\ cols F !! "rsi"
       = match ta_rsi (map close (bars df)) 14 with
         | TaRaises _ => cols df !! "rsi"
         | TaNone => Some NoneCol
         | TaSeries l => Some (NumCol l)
         end.
Proof.
  unfold bind at 1. rewrite bollinger_run. cbv zeta.
  set (F0 := mkFrame _ _).
  pose proof (writes_only_calculate_mean_reversion_metrics ta_rsi F0)
    as [Hbars Hcols].
  pose proof (metrics_rsi F0 _ _ ltac:(subst F0; lookup_col)
                ltac:(subst F0; lookup_col)) as Hrsi.
  pose proof (try_unit_returns _ F0 : fst (calculate_mean_reversion_metrics
                                             ta_rsi F0) = Returned tt) as Hret.
  unfold bind.
  destruct (calculate_mean_reversion_metrics ta_rsi F0) as [o F].
  cbn [fst snd] in *. subst o. exists F.
  split; [reflexivity|]. split; [exact Hbars|]. split.
  - rewrite !Hcols by (by apply (bool_decide_unpack _)).
    subst F0. repeat split; lookup_col.
  - rewrite Hrsi. subst F0. cbn [bars cols].
    destruct (ta_rsi _ _); [|reflexivity|reflexivity].
    by repeat (rewrite lookup_insert_ne by done).
Qed.


(** The last row of the bands: the mean of the last [window] closes, and
    that mean less (plus) [num_std] sample standard deviations. *)
Lemma bands_last (window : nat) (num_std : Q) (c : list Q) :
  (2 <= window)%nat -> (window <= length c)%nat ->
  let win := trailing_window window c in
  let mean := Qsum win / of_nat window in
  let dev := np_sqrt (sample_var win) * num_std in
  let m := rolling mean_agg window c in
  let sd := rolling (std_agg np_sqrt) window c in
  from_end 1 m = Some (Fin mean)
  /\ from_end 1 (map2 fl_sub m (map (fun x => fl_mul x (Fin num_std)) sd))
     = Some (Fin (mean - dev))
  /\ from_end 1 (map2 fl_add m (map (fun x => fl_mul x (Fin num_std)) sd))
     = Some (Fin (mean + dev)).
Proof.
  intros Hw Hlen win mean dev m sd.
  assert (Hwin : length win = window).
  { unfold win, trailing_window. apply window_length. lia. }
  assert (Hm : from_end 1 m = Some (Fin mean)).
  { unfold m. rewrite rolling_last by lia. fold win.
    rewrite mean_agg_window by (eapply nonempty_of_length; [exact Hwin|lia]).
    by rewrite Hwin. }
  assert (Hsd : from_end 1 (map (fun x => fl_mul x (Fin num_std)) sd)
                = Some (Fin dev)).
  { apply (from_end_map (fun x => fl_mul x (Fin num_std)) sd
             (Fin (np_sqrt (sample_var win)))).
    unfold sd. rewrite rolling_last by lia. fold win.
    unfold std_agg. rewrite Hwin.
    destruct (Nat.leb_spec window 1); [lia | reflexivity]. }
  assert (Hl : length m
               = length (map (fun x => fl_mul x (Fin num_std)) sd)).
  { unfold m, sd. by rewrite length_map, !rolling_length. }
  split; [exact Hm|]. split.
  - by rewrite (from_end_map2 _ _ _ _ _ Hl Hm Hsd).
  - by rewrite (from_end_map2 _ _ _ _ _ Hl Hm Hsd).
Qed.

End Runs.

Lemma rolling_lookup_early {A : Type} (agg : list A -> fl) (w : nat)
    (l : list A) (i : nat) :
  (i + 1 < w)%nat -> (i < length l)%nat -> rolling agg w l !! i = Some NaN.
Proof.
  intros Hi Hlen. unfold rolling.
  change (map ?f ?x) with (f <$> x).
  rewrite list_lookup_fmap, lookup_seq_lt by done. simpl.
  unfold window_at.
  destruct (Nat.ltb_spec (i + 1) w); [|lia].
  by rewrite orb_true_r.
Qed.

(** X21.  [calculate_bollinger_bands] leaves three band columns in which
    every row before the first full window is NaN, and every later row
    ([window] at least 2) holds the mean of the [window] closes ending
    there and, below and above it at the same distance, that mean less and
    plus [num_std] times their sample standard deviation. *)
Theorem bands_row_by_row (np_sqrt : Q -> Q) (window : nat) (num_std : Q)
    (df : frame) :
  exists lower middle upper,
    cols (snd (calculate_bollinger_bands np_sqrt window num_std df))
      !! "lower_band" = Some (NumCol lower)
    /\ cols (snd (calculate_bollinger_bands np_sqrt window num_std df))
         !! "middle_band" = Some (NumCol middle)
    /\ cols (snd (calculate_bollinger_bands np_sqrt window num_std df))
         !! "upper_band" = Some (NumCol upper)
    /\ forall i, (i < length (bars df))%nat ->
         ((i + 1 < window)%nat ->
            lower !! i = Some NaN /\ middle !! i = Some NaN
            /\ upper !! i = Some NaN)
         /\ ((2 <= window)%nat -> (window <= i + 1)%nat ->
             let win := firstn window
                          (skipn (i + 1 - window) (map close (bars df))) in
             let mean := Qsum win / of_nat window in
             let dev := np_sqrt (MeanReversion.sample_var win) * num_std in
             lower !! i = Some (Fin (mean - dev))
             /\ middle !! i = Some (Fin mean)
             /\ upper !! i = Some (Fin (mean + dev))).
Proof.
  rewrite bollinger_run. cbv zeta. cbn [snd cols].
  eexists _, _, _.
  split; [lookup_col|]. split; [lookup_col|]. split; [lookup_col|].
  intros i Hi.
  set (c := map close (bars df)).
  assert (Hc : (i < length c)%nat) by (unfold c; by rewrite length_map).
  split.
  - intros Hearly.
    pose proof (rolling_lookup_early mean_agg window c i Hearly Hc) as Hm.
    pose proof (rolling_lookup_early (std_agg np_sqrt) window c i Hearly Hc)
      as Hsd.
    assert (Hk : map (fun x => fl_mul x (Fin num_std))
                   (rolling (std_agg np_sqrt) window c) !! i = Some NaN).
    { change (map ?f ?x) with (f <$> x). by rewrite list_lookup_fmap, Hsd. }
    split; [|split].
    + by rewrite (map2_lookup _ _ _ _ _ _ Hm Hk).
    + exact Hm.
    + by rewrite (map2_lookup _ _ _ _ _ _ Hm Hk).
  - intros Hw Hfull.
    set (win := firstn window (skipn (i + 1 - window) c)).
    set (mean := Qsum win / of_nat window).
    set (dev := np_sqrt (MeanReversion.sample_var win) * num_std).
    assert (Hwin : length win = window).
    { unfold win. apply window_length. lia. }
    assert (Hm : rolling mean_agg window c !! i = Some (Fin mean)).
    { rewrite rolling_lookup by lia. fold win.
      rewrite mean_agg_window
        by (eapply nonempty_of_length; [exact Hwin|lia]).
      by rewrite Hwin. }
    assert (Hk : map (fun x => fl_mul x (Fin num_std))
                   (rolling (std_agg np_sqrt) window c) !! i
                 = Some (Fin dev)).
    { change (map ?f ?x) with (f <$> x).
      rewrite list_lookup_fmap, rolling_lookup by lia. fold win.
      unfold std_agg. rewrite Hwin.
      destruct (Nat.leb_spec window 1); [lia | reflexivity]. }
    split; [|split].
    + by rewrite (map2_lookup _ _ _ _ _ _ Hm Hk).
    + exact Hm.
    + by rewrite (map2_lookup _ _ _ _ _ _ Hm Hk).
Qed.

(** X22.  With at least [window] bars ([window] at least 2) and an RSI
    routine that answers a Series, [detect_mean_reversion_opportunities]
    signals exactly when the last close is at or below the mean of the last
    [window] closes less [std_threshold] sample standard deviations and the
    latest RSI is at most 30; [detect_overbought_conditions] is the mirror
    image, at or above the mean plus the deviations with an RSI of at least
    70.  A signal carries the last close as entry and that mean as target;
    without a signal both prices are [None]. *)
Theorem reversion_signals_spec (np_sqrt : Q -> Q)
    (ta_rsi : list Q -> nat -> ta_result) (window : nat) (std_threshold : Q)
    (df : frame) (cur : bar) (rs : list fl) (r : fl) :
  (2 <= window)%nat -> (window <= length (bars df))%nat ->
  last (bars df) = Some cur ->
  ta_rsi (map close (bars df)) 14%nat = TaSeries rs ->
  last rs = Some r ->
  let win := trailing_window window (map close (bars df)) in
  let mean := Qsum win / of_nat window in
  let dev := np_sqrt (MeanReversion.sample_var win) * std_threshold in
  fst (detect_mean_reversion_opportunities np_sqrt ta_rsi window
         std_threshold df)
  = Returned (if Qle_bool (close cur) (mean - dev) && fl_le r (Fin 30)
              then (true, PyNum (Fin (close cur)), PyNum (Fin mean))
              else (false, PyNone, PyNone))
  /\ fst (detect_overbought_conditions np_sqrt ta_rsi window
            std_threshold df)
     = Returned (if Qle_bool (mean + dev) (close cur) && fl_le (Fin 70) r
                 then (true, PyNum (Fin (close cur)), PyNum (Fin mean))
                 else (false, PyNone, PyNone)).
Proof.
  intros Hw Hlen Hcur Hta Hr win mean dev.
  destruct (prelude_frame np_sqrt ta_rsi window std_threshold df)
    as (F & Hrun & Hbars & (Hmid & Hlow & Hup) & Hrsi).
  rewrite Hta in Hrsi. rewrite <- from_end_1 in Hr.
  destruct (bands_last np_sqrt window std_threshold (map close (bars df)) Hw)
    as (Hm & Hl & Hu); [by rewrite length_map|].
  fold win in Hm, Hl, Hu. fold mean in Hm, Hl, Hu. fold dev in Hl, Hu.
  rewrite <- Hbars in Hcur.
  split.
  - unfold detect_mean_reversion_opportunities, try_except.
    rewrite run_len.
    destruct (Nat.ltb_spec (length (bars df)) window); [lia|].
    rewrite (run_units _ _ _ _ _ Hrun).
    rewrite (run_bar_from_end cur) by exact Hcur.
    rewrite (run_cell_from_end "lower_band" _ _ _ _ Hlow Hl).
    rewrite (run_cell_from_end "middle_band" _ _ _ _ Hmid Hm).
    rewrite (run_latest_rsi _ _ _ _ Hrsi Hr).
    unfold bind, as_num, ret.
    change (fl_le (Fin (close cur)) (Fin (mean - dev)))
      with (Qle_bool (close cur) (mean - dev)).
    destruct (Qle_bool (close cur) (mean - dev)); [|reflexivity].
    by destruct (fl_le r (Fin 30)).
  - unfold detect_overbought_conditions, try_except.
    rewrite run_len.
    destruct (Nat.ltb_spec (length (bars df)) window); [lia|].
    rewrite (run_units _ _ _ _ _ Hrun).
    rewrite (run_bar_from_end cur) by exact Hcur.
    rewrite (run_cell_from_end "upper_band" _ _ _ _ Hup Hu).
    rewrite (run_cell_from_end "middle_band" _ _ _ _ Hmid Hm).
    rewrite (run_latest_rsi _ _ _ _ Hrsi Hr).
    unfold bind, as_num, ret, fl_ge.
    change (fl_le (Fin (mean + dev)) (Fin (close cur)))
      with (Qle_bool (mean + dev) (close cur)).
    destruct (Qle_bool (mean + dev) (close cur)); [|reflexivity].
    by destruct (fl_le (Fin 70) r).
Qed.


Lemma reversion_signals_spec_witness :
  fst (detect_mean_reversion_opportunities sqrt_trunc
         (fun c _ => TaSeries (map (fun _ => Fin 25) c)) 9 1 dip_bars)
  = Returned
      (true, PyNum (Fin 91),
       PyNum (Fin (Qsum (trailing_window 9 (map close (bars dip_bars)))
                   / of_nat 9))).
Proof.
  exact (proj1 (reversion_signals_spec sqrt_trunc
                  (fun c _ => TaSeries (map (fun _ => Fin 25) c)) 9 1 dip_bars
                  (flat_bar 91 1000)
                  (map (fun _ => Fin 25) (map close (bars dip_bars)))
                  (Fin 25)
                  ltac:(lia) ltac:(simpl; lia) eq_refl eq_refl eq_refl)).
Defined.

(** What a signal of either detector needs from the RSI column. *)
Ltac read_step E R :=
  let v := fresh "v" in
  let F1 := fresh "F" in
  let H := fresh "H" in
  apply bind_returned in E as (v & F1 & H & E);
  let R' := fresh "R" in
  pose proof R as R'; rewrite H in R'; cbn [snd] in R'; subst F1.

Lemma oversold_needs_low_rsi (np_sqrt : Q -> Q)
    (ta_rsi : list Q -> nat -> ta_result) (window : nat) (std_threshold : Q)
    (df : frame) (entry target : pyval) :
  fst (detect_mean_reversion_opportunities np_sqrt ta_rsi window
         std_threshold df) = Returned (true, entry, target) ->
  exists F r,
    (calculate_bollinger_bands np_sqrt window std_threshold ;;;
     calculate_mean_reversion_metrics ta_rsi ;;; ret tt) df = (Returned tt, F)
    /\ fst (latest_rsi F) = Returned (PyNum r)
    /\ fl_le r (Fin 30) = true.
Proof.
  unfold detect_mean_reversion_opportunities, try_except.
  match goal with
  | |- context [match ?body df with _ => _ end] =>
      destruct (body df) as [[res|e] F'] eqn:E
  end; cbn [fst]; [|discriminate].
  intros H. injection H as ->.
  rewrite run_len in E.
  destruct (length (bars df) <? window)%nat; [discriminate|].
  destruct (prelude_frame np_sqrt ta_rsi window std_threshold df)
    as (F & Hrun & _).
  rewrite (run_units _ _ _ _ _ Hrun) in E.
  exists F.
  read_step E (reads_only_bar_from_end 1 F).
  read_step E (reads_only_cell_from_end "lower_band" 1 F).
  read_step E (reads_only_cell_from_end "middle_band" 1 F).
  read_step E (reads_only_latest_rsi F).
  read_step E (reads_only_as_num v0 F).
  destruct (fl_le _ v3); [|discriminate].
  destruct v2 as [|r]; [discriminate|]. exists r.
  split; [exact Hrun|]. split; [by rewrite H2|].
  unfold bind, as_num, ret in E.
  by destruct (fl_le r (Fin 30)).
Qed.

Lemma overbought_needs_high_rsi (np_sqrt : Q -> Q)
    (ta_rsi : list Q -> nat -> ta_result) (window : nat) (std_threshold : Q)
    (df : frame) (entry target : pyval) :
  fst (detect_overbought_conditions np_sqrt ta_rsi window
         std_threshold df) = Returned (true, entry, target) ->
  exists F r,
    (calculate_bollinger_bands np_sqrt window std_threshold ;;;
     calculate_mean_reversion_metrics ta_rsi ;;; ret tt) df = (Returned tt, F)
    /\ fst (latest_rsi F) = Returned (PyNum r)
    /\ fl_le (Fin 70) r = true.
Proof.
  unfold detect_overbought_conditions, try_except.
  match goal with
  | |- context [match ?body df with _ => _ end] =>
      destruct (body df) as [[res|e] F'] eqn:E
  end; cbn [fst]; [|discriminate].
  intros H. injection H as ->.
  rewrite run_len in E.
  destruct (length (bars df) <? window)%nat; [discriminate|].
  destruct (prelude_frame np_sqrt ta_rsi window std_threshold df)
    as (F & Hrun & _).
  rewrite (run_units _ _ _ _ _ Hrun) in E.
  exists F.
  read_step E (reads_only_bar_from_end 1 F).
  read_step E (reads_only_cell_from_end "upper_band" 1 F).
  read_step E (reads_only_cell_from_end "middle_band" 1 F).
  read_step E (reads_only_latest_rsi F).
  read_step E (reads_only_as_num v0 F).
  destruct (fl_ge _ v3); [|discriminate].
  destruct v2 as [|r]; [discriminate|]. exists r.
  split; [exact Hrun|]. split; [by rewrite H2|].
  unfold bind, as_num, ret, fl_ge in E.
  by destruct (fl_le (Fin 70) r).
Qed.

(** The latest RSI read off a frame depends on its bars and its "rsi"
    column alone. *)
Lemma latest_rsi_same (F1 F2 : frame) :
  bars F1 = bars F2 -> cols F1 !! "rsi" = cols F2 !! "rsi" ->
  fst (latest_rsi F1) = fst (latest_rsi F2).
Proof.
  intros Hb Hc. unfold latest_rsi. rewrite !run_has_col, Hc.
  destruct (bool_decide _); [|reflexivity].
  unfold cell_from_end. rewrite Hb, Hc.
  destruct (cols F2 !! "rsi") as [[l|]|]; [|  |reflexivity].
  - by destruct (from_end 1 l).
  - by destruct (1 <=? length (bars F2))%nat.
Qed.

(** X23.  On one frame the oversold and the overbought signal never come
    together, whatever the windows, the band widths, the square-root and the
    RSI routine: both read the same latest RSI, and it cannot be at most 30
    and at least 70. *)
Theorem oversold_excludes_overbought (np_sqrt : Q -> Q)
    (ta_rsi : list Q -> nat -> ta_result) (window window' : nat)
    (std_threshold std_threshold' : Q) (df : frame)
    (entry target entry' target' : pyval) :
  ~ (fst (detect_mean_reversion_opportunities np_sqrt ta_rsi window
            std_threshold df) = Returned (true, entry, target)
     /\ fst (detect_overbought_conditions np_sqrt ta_rsi window'
               std_threshold' df) = Returned (true, entry', target')).
Proof.
  intros [Hlow Hhigh].
  apply oversold_needs_low_rsi in Hlow as (F & r & Hrun & Hr & Hle).
  apply overbought_needs_high_rsi in Hhigh as (F' & r' & Hrun' & Hr' & Hge).
  destruct (prelude_frame np_sqrt ta_rsi window std_threshold df)
    as (G & HG & Hbars & _ & Hrsi).
  destruct (prelude_frame np_sqrt ta_rsi window' std_threshold' df)
    as (G' & HG' & Hbars' & _ & Hrsi').
  rewrite HG in Hrun. injection Hrun as <-.
  rewrite HG' in Hrun'. injection Hrun' as <-.
  assert (Hsame : fst (latest_rsi G) = fst (latest_rsi G')).
  { apply latest_rsi_same; congruence. }
  rewrite Hr, Hr' in Hsame. injection Hsame as <-.
  destruct r as [q| | |]; try discriminate.
  cbn [fl_le] in Hle, Hge.
  apply Qle_bool_iff in Hle. apply Qle_bool_iff in Hge. lra.
Qed.

Lemma filter_none {A : Type} (P : A -> Prop) `{forall x, Decision (P x)}
    (l : list A) :
  (forall x, ~ P x) -> filter P l = [].
Proof.
  intros Hn. induction l as [|x l IH]; [reflexivity|].
  rewrite filter_cons. by destruct (decide (P x)) as [Hp|_]; [destruct (Hn x)|].
Qed.

(** A share of successes among at least five instances, of which the last
    is never counted. *)
Lemma success_share_range (P : nat -> Prop) `{forall i, Decision (P i)}
    (similar : list nat) :
  (5 <= length similar)%nat ->
  let p := of_nat (length (filter P (removelast similar)))
           / of_nat (length similar) in
  0 <= p /\ p < 1.
Proof.
  intros Hfive p.
  assert (Hcount : (length (filter P (removelast similar))
                    < length similar)%nat).
  { eapply Nat.le_lt_trans; [apply length_filter|].
    rewrite removelast_firstn_len, length_firstn. lia. }
  assert (Hpos : 0 < of_nat (length similar)) by (apply of_nat_pos; lia).
  assert (Hnum : 0 <= of_nat (length (filter P (removelast similar)))).
  { unfold of_nat. change 0 with (inject_Z 0). rewrite <- Zle_Qle. lia. }
  assert (Hlt : of_nat (length (filter P (removelast similar)))
                < of_nat (length similar)).
  { unfold of_nat. rewrite <- Zlt_Qlt. lia. }
  unfold p. split.
  - apply Qle_shift_div_l; [exact Hpos | lra].
  - apply Qlt_shift_div_r; [exact Hpos | lra].
Qed.

(** X24.  [calculate_reversal_probability] always returns a number, at
    least 0 and strictly below 1: the current bar is among the similar
    instances it divides by and is never counted as a success.  With fewer
    than 100 bars it answers 0.5, and so it does whenever the frame carries
    a z-score column whose latest value is a negative number -- no z-score
    can then be at most 1.1 times and at least 0.9 times that value -- which
    is the oversold case the mean-reversion signal fires in. *)
Theorem reversal_probability_range (np_sqrt : Q -> Q)
    (ta_rsi : list Q -> nat -> ta_result) (df : frame) :
  exists p,
    fst (calculate_reversal_probability np_sqrt ta_rsi df) = Returned p
    /\ 0 <= p /\ p < 1
    /\ ((length (bars df) < 100)%nat -> p = 5 # 10)
    /\ (forall zs z,
          cols df !! "z_score" = Some (NumCol zs) ->
          last zs = Some (Fin z) -> z < 0 -> p = 5 # 10).
Proof.
  assert (Hhalf : 0 <= 5 # 10 /\ 5 # 10 < 1)
    by (split; [discriminate | reflexivity]).
  unfold calculate_reversal_probability, try_except.
  match goal with
  | |- context [match ?b df with _ => _ end] => set (body := b)
  end.
  assert (Hshort : (length (bars df) < 100)%nat ->
                   fst (body df) = Returned (5 # 10)).
  { intros Hlt. unfold body. rewrite run_len.
    by destruct (Nat.ltb_spec (length (bars df)) 100); [|lia]. }
  assert (Hneg : forall zs z,
            cols df !! "z_score" = Some (NumCol zs) ->
            last zs = Some (Fin z) -> z < 0 ->
            fst (body df) = Returned (5 # 10)).
  { intros zs z Hc Hl Hz. unfold body. rewrite run_len.
    destruct (length (bars df) <? 100)%nat; [reflexivity|].
    rewrite run_has_col, Hc.
    rewrite bool_decide_eq_true_2 by by eexists.
    unfold bind at 1, ret at 1.
    rewrite <- from_end_1 in Hl.
    rewrite (run_cell_from_end "z_score" _ _ _ _ Hc Hl).
    rewrite (run_getnum "z_score" zs) by exact Hc.
    unfold bind at 1, as_num, ret at 1.
    rewrite filter_none; [reflexivity|].
    intros i Hi. apply Is_true_true, andb_true_iff in Hi as [H1 H2].
    unfold fl_ge in H2. cbn [fl_mul] in H1, H2.
    destruct (nth i zs NaN) as [x| | |]; try discriminate.
    cbn [fl_le] in H1, H2.
    apply Qle_bool_iff in H1. apply Qle_bool_iff in H2. lra. }
  destruct (body df) as [[p|e] F'] eqn:E; cbn [fst] in *.
  2:{ exists (5 # 10). split; [reflexivity|]. split; [apply Hhalf|].
      split; [apply Hhalf|]. by split. }
  exists p. split; [reflexivity|].
  assert (Hrange : 0 <= p /\ p < 1).
  { unfold body in E. clear Hshort Hneg body.
    apply bind_returned in E as (n & F1 & _ & E).
    destruct (n <? 100)%nat; [by injection E as <- _|].
    apply bind_returned in E as (present & F2 & _ & E).
    apply bind_returned in E as (? & F3 & _ & E).
    apply bind_returned in E as (latest_z & F4 & _ & E).
    apply bind_returned in E as (zs & F5 & _ & E).
    apply bind_returned in E as (z & F6 & _ & E).
    match type of E with
    | (if (length ?sim <? 5)%nat then _ else _) _ = _ =>
        destruct (Nat.ltb_spec (length sim) 5) as [|Hfive]
    end; [by injection E as <- _|].
    apply bind_returned in E as (c & F7 & _ & E).
    apply bind_returned in E as (m & F8 & _ & E).
    injection E as <- _. by apply success_share_range. }
  split; [apply Hrange|]. split; [apply Hrange|]. split.
  - intros Hlt. specialize (Hshort Hlt). congruence.
  - intros zs z Hc Hl Hz. specialize (Hneg zs z Hc Hl Hz). congruence.
Qed.

End MoreReversionFacts.

(** * The bounce block of the mean-reversion score *)

Section BounceFacts.
Import Pandas Breakout MeanReversion Spec.
Local Open Scope Q_scope.

Lemma from_end_lookup {A : Type} (k : nat) (l : list A) :
  (k <= length l)%nat -> from_end k l = l !! (length l - k)%nat.
Proof.
  intros H. unfold from_end. by destruct (Nat.leb_spec k (length l)); [|lia].
Qed.

Lemma from_end_some {A : Type} (k : nat) (l : list A) :
  (0 < k)%nat -> (k <= length l)%nat -> exists x, from_end k l = Some x.
Proof.
  intros Hk H. rewrite from_end_lookup by exact H.
  apply lookup_lt_is_Some_2. lia.
Qed.

(** Row [i] of the lower band, once the window is full. *)
Lemma lower_band_row (np_sqrt : Q -> Q) (window : nat) (num_std : Q)
    (c : list Q) (i : nat) :
  (2 <= window)%nat -> (window <= i + 1)%nat -> (i < length c)%nat ->
  let win := firstn window (skipn (i + 1 - window) c) in
  map2 fl_sub (rolling mean_agg window c)
    (map (fun x => fl_mul x (Fin num_std))
       (rolling (std_agg np_sqrt) window c)) !! i
  = Some (Fin (Qsum win / of_nat window
               - np_sqrt (MeanReversion.sample_var win) * num_std)).
Proof.
  intros Hw Hfull Hc win.
  assert (Hwin : length win = window).
  { unfold win. apply window_length. lia. }
  assert (Hm : rolling mean_agg window c !! i
               = Some (Fin (Qsum win / of_nat window))).
  { rewrite rolling_lookup by lia. fold win.
    rewrite mean_agg_window by (eapply nonempty_of_length; [exact Hwin|lia]).
    by rewrite Hwin. }
  assert (Hk : map (fun x => fl_mul x (Fin num_std))
                 (rolling (std_agg np_sqrt) window c) !! i
               = Some (Fin (np_sqrt (MeanReversion.sample_var win)
                            * num_std))).
  { change (map ?f ?x) with (f <$> x).
    rewrite list_lookup_fmap, rolling_lookup by lia. fold win.
    unfold std_agg. rewrite Hwin.
    destruct (Nat.leb_spec window 1); [lia | reflexivity]. }
  by rewrite (map2_lookup _ _ _ _ _ _ Hm Hk).
Qed.

(** X28.  The mean-reversion score is 0 on every bounce setup.  When the
    close two bars before the last one was at or below its lower band --
    the mean of the [window] closes ending there less twice their sample
    standard deviation -- the bounce block reads [.shift] off a number and
    raises, and [get_mean_reversion_score] answers 0, whatever the other
    blocks had added and whatever the RSI routine does. *)
Theorem bounce_setup_scores_zero (np_sqrt : Q -> Q)
    (ta_rsi : list Q -> nat -> ta_result) (window : nat) (df : frame)
    (prev2 : bar) :
  (2 <= window)%nat -> (window + 2 <= length (bars df))%nat ->
  bars df !! (length (bars df) - 3)%nat = Some prev2 ->
  let win := firstn window
               (skipn (length (bars df) - 2 - window)
                  (map close (bars df))) in
  close prev2
    <= Qsum win / of_nat window
       - np_sqrt (MeanReversion.sample_var win) * 2 ->
  fst (get_mean_reversion_score np_sqrt ta_rsi window df) = Returned 0%Z.
Proof.
  intros Hw Hlen Hprev win Hbelow.
  destruct (last (bars df)) as [cur|] eqn:Hcur.
  2:{ apply last_None in Hcur. rewrite Hcur in Hlen. simpl in Hlen. lia. }
  rewrite (mean_reversion_score_after_guard _ _ _ _ cur);
    [|lia|exact Hcur].
  destruct (prelude_frame np_sqrt ta_rsi window 2 df)
    as (F & Hrun & Hbars & (_ & Hlow & _) & _).
  assert (HF : scored_frame np_sqrt ta_rsi window df = F).
  { unfold scored_frame. unfold bind, ret in Hrun.
    destruct (calculate_bollinger_bands np_sqrt window 2 df)
      as [[[]|e] df1]; [|discriminate]. cbn [snd].
    destruct (calculate_mean_reversion_metrics ta_rsi df1)
      as [[[]|e] df2]; [|discriminate]. cbn [snd]. congruence. }
  rewrite HF.
  assert (Hbounce : fst (bounce_points F) = Raised AttributeError).
  { unfold bounce_points. rewrite run_len, Hbars.
    destruct (Nat.leb_spec 3 (length (bars df))); [|lia].
    destruct (from_end_some 1 (bars F)) as (b1 & Hb1);
      [lia | rewrite Hbars; lia |].
    destruct (from_end_some 2 (bars F)) as (b2 & Hb2);
      [lia | rewrite Hbars; lia |].
    assert (Hb3 : from_end 3 (bars F) = Some prev2).
    { rewrite Hbars. by rewrite from_end_lookup by lia. }
    unfold bind at 1, bar_from_end at 1. rewrite Hb1.
    unfold bind at 1, bar_from_end at 1. rewrite Hb2.
    unfold bind at 1, bar_from_end at 1. rewrite Hb3.
    unfold bind at 1, cell_from_end at 1. rewrite Hlow.
    rewrite from_end_lookup
      by (rewrite map2_length;
          rewrite ?length_map, !rolling_length, ?length_map; lia).
    rewrite map2_length
      by (by rewrite ?length_map, !rolling_length, ?length_map).
    rewrite rolling_length, length_map.
    rewrite (lower_band_row np_sqrt window 2 (map close (bars df))
               (length (bars df) - 3))
      by (rewrite ?length_map; lia).
    replace (length (bars df) - 3 + 1 - window)%nat
      with (length (bars df) - 2 - window)%nat by lia.
    fold win. unfold bind at 1, as_num, ret at 1.
    change (fl_le (Fin (close prev2)) (Fin ?x)) with (Qle_bool (close prev2) x).
    apply Qle_bool_iff in Hbelow. by rewrite Hbelow. }
  assert (Hraises : some_block_raises (reversion_factors window) F = true).
  { unfold reversion_factors. cbn [some_block_raises].
    destruct (fst (deviation_points F)); [|reflexivity].
    destruct (fst (MeanReversion.rsi_points F)); [|reflexivity].
    by rewrite Hbounce. }
  destruct (add_all_cases _ (reads_only_reversion_factors window) 0%Z F)
    as [Hr _].
  destruct (Hr Hraises) as [e He]. by rewrite He.
Qed.

Lemma bounce_setup_scores_zero_witness :
  fst (get_mean_reversion_score sqrt_trunc rsi_requiring_length 9 dip_bars)
  = Returned 0%Z.
Proof.
  apply (bounce_setup_scores_zero sqrt_trunc rsi_requiring_length 9 dip_bars
           (flat_bar 91 1000)).
  - lia.
  - simpl. lia.
  - reflexivity.
  - vm_compute. discriminate.
Defined.

End BounceFacts.

(** * The simulator's ledger *)

Section SimulatorFacts.
Import TestBot.
Local Open Scope Q_scope.

Lemma close_first_last (market contract : string) (price : Q)
    (ps : list position) (p : position) :
  Forall (fun p' => is_open_for market contract p' = false) ps ->
  is_open_for market contract p = true ->
  close_first market contract price (ps ++ [p])%list
  = Some (closing_pl price p,
          (ps ++ [mkPosition (market_ticker p) (contract_ticker p) (action p)
                    (entry_price p) (quantity p) CLOSED (Some price)
                    (Some (closing_pl price p))])%list).
Proof.
  intros Hps Hp. induction Hps as [|p' ps Hp' _ IH]; simpl.
  - by rewrite Hp.
  - by rewrite Hp', IH.
Qed.

(** X25.  A round trip through the simulator credits the profit twice.
    Buying [qty] contracts the bot can pay for, in a market it holds no
    open position in, and selling them again closes that position with the
    profit [(sell_price - buy_price) * qty]; the recorded profit grows by
    that amount, but the capital ends at what it was plus twice that
    amount, because the sale adds the profit on top of the full proceeds. *)
Theorem round_trip_credits_the_profit_twice (s : bot)
    (market contract : string) (buy_price sell_price : Q) (qty : Z) :
  buy_price * inject_Z qty <= capital s ->
  Forall (fun p => is_open_for market contract p = false) (positions s) ->
  let s1 := snd (execute_trade market contract "BUY" buy_price qty s) in
  let sale := execute_trade market contract "SELL" sell_price qty s1 in
  let pl := (sell_price - buy_price) * inject_Z qty in
  fst sale = Sold market contract sell_price qty (sell_price * inject_Z qty) pl
  /\ profit_loss (snd sale) = profit_loss s + pl
  /\ capital (snd sale) == capital s + 2 * pl
  /\ Forall (fun p => is_open_for market contract p = false)
       (positions (snd sale)).
Proof.
  intros Hcost Hfree s1 sale pl.
  assert (Hs1 : s1 = mkBot (initial_capital s)
                       (capital s - buy_price * inject_Z qty)
                       (positions s
                          ++ [mkPosition market contract "BUY" buy_price qty
                                OPEN None None])%list
                       (trading_history s
                          ++ [Bought market contract buy_price qty
                                (buy_price * inject_Z qty)])%list
                       (profit_loss s)).
  { unfold s1, execute_trade. cbn [String.eqb Ascii.eqb Bool.eqb andb].
    apply Qle_bool_iff in Hcost. by rewrite Hcost. }
  assert (Hopen : is_open_for market contract
                    (mkPosition market contract "BUY" buy_price qty OPEN
                       None None) = true).
  { unfold is_open_for. cbn [market_ticker contract_ticker position_status].
    by rewrite !String.eqb_refl. }
  assert (Hsale : sale
            = (Sold market contract sell_price qty
                 (sell_price * inject_Z qty) pl,
               mkBot (initial_capital s)
                 (capital s - buy_price * inject_Z qty
                  + (sell_price * inject_Z qty + pl))
                 (positions s
                    ++ [mkPosition market contract "BUY" buy_price qty
                          CLOSED (Some sell_price) (Some pl)])%list
                 ((trading_history s
                     ++ [Bought market contract buy_price qty
                           (buy_price * inject_Z qty)])
                    ++ [Sold market contract sell_price qty
                          (sell_price * inject_Z qty) pl])%list
                 (profit_loss s + pl))).
  { unfold sale, execute_trade. rewrite Hs1.
    cbn [String.eqb Ascii.eqb Bool.eqb andb positions capital
         initial_capital trading_history profit_loss].
    by rewrite (close_first_last _ _ _ _ _ Hfree Hopen). }
  rewrite Hsale. cbn [fst snd profit_loss capital positions].
  split; [reflexivity|]. split; [reflexivity|]. split.
  - unfold pl. ring.
  - apply Forall_app. split; [exact Hfree|].
    constructor; [|constructor]. unfold is_open_for.
    cbn [position_status]. by rewrite andb_false_r.
Qed.

Lemma round_trip_credits_the_profit_twice_witness :
  let s1 := snd (execute_trade "TEST-MKT1" "TEST-MKT1-YES" "BUY" (5 # 10) 20
                   (init 100)) in
  let sale := execute_trade "TEST-MKT1" "TEST-MKT1-YES" "SELL" (75 # 100) 20
                s1 in
  profit_loss (snd sale) = 0 + ((75 # 100) - (5 # 10)) * inject_Z 20
  /\ capital (snd sale) == 100 + 2 * (((75 # 100) - (5 # 10)) * inject_Z 20).
Proof.
  destruct (round_trip_credits_the_profit_twice (init 100)
              "TEST-MKT1" "TEST-MKT1-YES" (5 # 10) (75 # 100) 20)
    as (_ & H1 & H2 & _).
  - discriminate.
  - constructor.
  - split; [exact H1 | exact H2].
Defined.

Lemma close_first_none (market contract : string) (price : Q)
    (ps : list position) :
  close_first market contract price ps = None
  <-> Forall (fun p => is_open_for market contract p = false) ps.
Proof.
  induction ps as [|p ps IH]; simpl.
  - split; [constructor | done].
  - destruct (is_open_for market contract p) eqn:E.
    + split; [done|]. intros H. apply Forall_cons in H as [H _]. congruence.
    + destruct (close_first market contract price ps) as [[pl ps']|].
      * split; [done|]. intros H. apply Forall_cons in H as [_ H].
        by apply IH in H.
      * split; [|done]. intros _. constructor; [exact E | by apply IH].
Qed.

(** X26.  A trade that is refused changes nothing.  [execute_trade]
    answers the error dictionary exactly when the action is a buy the
    capital does not cover, a sale with no open position in that market and
    contract, or neither of the two actions; and whenever it answers an
    error the bot is as it was: no partial fill, no row in the history. *)
Theorem refused_trade_changes_nothing (market contract act : string)
    (price : Q) (qty : Z) (s : bot) :
  ((exists message,
      fst (execute_trade market contract act price qty s) = Error message)
   <-> (act = "BUY" /\ capital s < price * inject_Z qty)
       \/ (act = "SELL"
           /\ Forall (fun p => is_open_for market contract p = false)
                (positions s))
       \/ (act <> "BUY" /\ act <> "SELL"))
  /\ (forall message,
        fst (execute_trade market contract act price qty s) = Error message ->
        snd (execute_trade market contract act price qty s) = s).
Proof.
  unfold execute_trade.
  destruct (String.eqb_spec act "BUY") as [-> | Hbuy].
  - destruct (Qle_bool (price * inject_Z qty) (capital s)) eqn:E; cbn.
    + apply Qle_bool_iff in E. split; [|discriminate]. split.
      * by intros [? ?].
      * intros [[_ H] | [[H _] | [H _]]]; [lra | discriminate | done].
    + apply Qle_bool_false_iff in E. split; [|done].
      split; [intros _; by left | by eexists].
  - cbn [andb].
    destruct (String.eqb_spec act "SELL") as [-> | Hsell].
    + pose proof (close_first_none market contract price (positions s))
        as Hnone.
      destruct (close_first market contract price (positions s))
        as [[pl ps']|]; cbn.
      * split; [|discriminate]. split; [by intros [? ?]|].
        intros [[H _] | [[_ H] | [_ H]]]; [discriminate | | done].
        by apply Hnone in H.
      * split; [|done]. split; [|by eexists].
        intros _. right. left. split; [reflexivity | by apply Hnone].
    + cbn. split; [|done]. split; [|by eexists].
      intros _. right. by right.
Qed.

(** One call keeps the books: what it does to the capital, the recorded
    profit and the positions is what the row it appends says. *)
Lemma close_first_counts (market contract : string) (price : Q)
    (ps ps' : list position) (pl : Q) :
  close_first market contract price ps = Some (pl, ps') ->
  length ps' = length ps
  /\ length (List.filter (fun p => match position_status p with
                                   | CLOSED => true | OPEN => false end) ps')
     = S (length (List.filter (fun p => match position_status p with
                                        | CLOSED => true | OPEN => false end)
                    ps)).
Proof.
  revert ps' pl. induction ps as [|p ps IH]; intros ps' pl; simpl; [done|].
  destruct (is_open_for market contract p) eqn:E.
  - intros H. injection H as _ <-. simpl.
    unfold is_open_for in E. apply andb_true_iff in E as [_ E].
    destruct (position_status p); [by split | discriminate].
  - destruct (close_first market contract price ps) as [[pl' ps1]|];
      [|discriminate].
    intros H. injection H as _ <-. destruct (IH ps1 pl' eq_refl) as [H1 H2].
    simpl. rewrite H1. split; [reflexivity|].
    destruct (position_status p); simpl; lia.
Qed.

Lemma Qsum_snoc (l : list Q) (x : Q) :
  Pandas.Qsum (l ++ [x])%list = Pandas.Qsum l + x.
Proof. unfold Pandas.Qsum. by rewrite fold_left_app. Qed.

Lemma filter_length_split {A : Type} (f g : A -> bool) (l : list A) :
  (forall x, g x = negb (f x)) ->
  (length (List.filter f l) + length (List.filter g l) = length l)%nat.
Proof.
  intros Hfg. induction l as [|x l IH]; simpl; [reflexivity|].
  rewrite Hfg. destruct (f x); simpl; lia.
Qed.

(** X27.  The books of the simulator after any sequence of calls on a new
    bot.  The capital is the initial capital less the cost of every buy
    plus the proceeds and the profit of every sale; the recorded profit is
    the sum of the sales' profits; every buy in the history has its
    position, every sale has closed one, and the summary's counts of open
    and closed positions add up to the number of buys.  No refused call
    leaves a row. *)
Theorem simulator_books_balance (initial : Q) (orders : list order) :
  let s := run orders (init initial) in
  let history := trading_history s in
  initial_capital s = initial
  /\ capital s == initial + Pandas.Qsum (map row_cash history)
  /\ profit_loss s == Pandas.Qsum (map row_pl history)
  /\ length (positions s) = length (List.filter is_bought history)
  /\ closed_positions_count (get_portfolio_summary s)
     = length (List.filter is_sold history)
  /\ (open_positions_count (get_portfolio_summary s)
      + closed_positions_count (get_portfolio_summary s)
      = length (List.filter is_bought history))%nat
  /\ total_trades (get_portfolio_summary s)
     = (length (List.filter is_bought history)
        + length (List.filter is_sold history))%nat.
Proof.
  set (closed := fun p => match position_status p with
                          | CLOSED => true | OPEN => false end).
  set (opened := fun p => match position_status p with
                          | OPEN => true | CLOSED => false end).
  set (Inv := fun s : bot =>
         initial_capital s = initial
         /\ capital s == initial + Pandas.Qsum (map row_cash (trading_history s))
         /\ profit_loss s == Pandas.Qsum (map row_pl (trading_history s))
         /\ length (positions s)
            = length (List.filter is_bought (trading_history s))
         /\ length (List.filter closed (positions s))
            = length (List.filter is_sold (trading_history s))
         /\ length (trading_history s)
            = (length (List.filter is_bought (trading_history s))
               + length (List.filter is_sold (trading_history s)))%nat).
  assert (Hinit : Inv (init initial)).
  { unfold Inv, init, Pandas.Qsum.
    cbn [initial_capital capital profit_loss positions trading_history
         map fold_left List.filter length].
    split; [reflexivity|]. split; [ring|]. split; [reflexivity|].
    by repeat split. }
  assert (Hstep : forall s o, Inv s -> Inv (place s o)).
  { intros s [m c a price qty] (H1 & H2 & H3 & H4 & H5 & H6).
    unfold place, execute_trade.
    cbn [order_market order_contract order_action order_price
         order_quantity].
    destruct (String.eqb a "BUY" && Qle_bool _ _).
    - unfold Inv.
      cbn [snd initial_capital capital profit_loss positions trading_history].
      rewrite !map_app, !List.filter_app, !length_app. cbn [map List.filter
        is_bought is_sold row_cash row_pl length app].
      rewrite !Qsum_snoc. cbn [closed position_status].
      repeat split; [exact H1 | rewrite H2; ring | rewrite H3; ring
                     | lia | simpl; lia | lia].
    - destruct (String.eqb a "SELL"); [|by repeat split].
      destruct (close_first m c price (positions s)) as [[pl ps']|] eqn:E;
        [|by repeat split].
      destruct (close_first_counts _ _ _ _ _ _ E) as [Hl Hc].
      unfold Inv.
      cbn [snd initial_capital capital profit_loss positions trading_history].
      rewrite !map_app, !List.filter_app, !length_app. cbn [map List.filter
        is_bought is_sold row_cash row_pl length app].
      rewrite !Qsum_snoc. fold closed in Hc.
      repeat split; [exact H1 | rewrite H2; ring | rewrite H3; ring
                     | lia | simpl; lia | lia]. }
  assert (Hrun : forall s, Inv s -> Inv (run orders s)).
  { unfold run. induction orders as [|o orders IH]; intros s Hs; [exact Hs|].
    simpl. apply IH, Hstep, Hs. }
  intros s history. destruct (Hrun _ Hinit) as (H1 & H2 & H3 & H4 & H5 & H6).
  fold s in H1, H2, H3, H4, H5, H6. fold history in H2, H3, H4, H5, H6.
  unfold get_portfolio_summary.
  cbn [closed_positions_count open_positions_count total_trades].
  fold closed opened.
  pose proof (filter_length_split opened closed (positions s)
                ltac:(intros p; unfold opened, closed;
                      by destruct (position_status p))) as Hsplit.
  repeat split; try assumption; fold history; lia.
Qed.

End SimulatorFacts.
